(** * PrintFlow: the job manager and the printer workers

    A shallow embedding of [src/PrintFlow.py]: the classes [PrintJob],
    [Printer] and [JobManager], with the scheduling policy, the SRTF
    preemption check, the dequeue, the cancellation and the worker cycle.

    Python objects are shared and mutated in place, so [PrintJob] objects live
    in a store ([heap]) and the queue and the printers hold references to them:
    a job that is dropped from the queue or detached from a printer is still
    in the store, with whatever status the code last wrote.  The Tk window,
    the PDF page counting and the Bluetooth dialogue are not modelled. *)

From Stdlib Require Import ZArith QArith Lia.
From stdpp Require Import gmap list strings.

Close Scope Q_scope.
Local Open Scope Z_scope.

(** ** Data *)

(** The three values [JobManager.algorithm] takes. *)
Inductive Algorithm := FCFS | SJF | SRTF.

(** The strings written to [PrintJob.status]: "Queued", "Printing", "Paused",
    "Completed", "Canceled" and "Queued (Preempted)". *)
Inductive Status :=
  Queued | Printing | Paused | Completed | Canceled | QueuedPreempted.

Global Instance Algorithm_eq_dec : EqDecision Algorithm.
Proof. solve_decision. Defined.
Global Instance Status_eq_dec : EqDecision Status.
Proof. solve_decision. Defined.

(** class PrintJob.  [job_id] is the first eight characters of a uuid4, drawn
    by the caller of [PrintJob_init]. *)
Record PrintJob := mkPrintJob {
  job_id : string;
  file_name : string;
  file_path : string;
  pages : Z;
  status : Status;
  progress : Z;
  pages_remaining : Z
}.

(** A reference to a [PrintJob] object; Python's [==] on jobs is identity, so
    it is equality of references. *)
Abbreviation loc := nat (only parsing).

(** class Printer, without the thread machinery.  [is_paused] and
    [shutdown_flag] are [threading.Event]s, read with [is_set]. *)
Record Printer := mkPrinter {
  printer_id : Z;
  printer_name : string;
  current_job : option loc;
  is_running : bool;
  is_paused : bool;
  shutdown_flag : bool;
  preempt_with_job : option loc;
  cancel_current_job : bool
}.

(** The text of a log line, without its timestamp: one constructor per
    f-string of the source, carrying the values it interpolates. *)
Inductive LogMsg :=
  | MsgOnline (name : string) (id : Z)
  | MsgShuttingDown (name : string) (id : Z)
  | MsgAlgorithmSwitched (a : Algorithm)
  | MsgRequeued (fname : string)
  | MsgAdded (fname : string) (npages : Z)
  | MsgSrtfPreemption (jid : string) (remaining : Z)
  | MsgSrtfInfo (jid : string)
  | MsgGetNextError
  | MsgCanceledRemoved (fname : string)
  | MsgSignaling (pname fname : string)
  | MsgCouldNotFind (jid : string)
  | MsgStarted (fname : string)
  | MsgCanceled (fname : string)
  | MsgPreemptedBy (fname : string)
  | MsgFinished (fname : string)
  | MsgResumed
  | MsgPausedLog
  | MsgShutdownSignal
  | MsgRequeuing (fname : string)
  | MsgOffline.

(** Who wrote the line: "[Manager]" or "[<printer_name>]". *)
Inductive LogSource := Manager | FromPrinter (name : string).

(** The "status" entry of a [printer_status] message: a job's status string,
    "Idle" or "Offline".  A paused printer without a job reports "Paused",
    the same string as a paused job. *)
Inductive PrinterStatus := Idle | Offline | JobStatus (s : Status).

(** The tuples put on [update_queue].  Snapshots are [copy.copy] of the job:
    the record itself. *)
Inductive Update :=
  | ULog (src : LogSource) (msg : LogMsg)
  | UAlgorithm (a : Algorithm)
  | UUpdateQueue (queue_snapshot : list PrintJob)
  | UPrinterStatus (id : Z) (name : string) (job : option PrintJob)
                   (st : PrinterStatus).

(** The state the manager and the printers share: the store of job objects,
    the update queue, and the attributes of the [JobManager].  [printers] is
    the list of the values of the dict, which Python keeps in insertion order;
    a printer is designated by its position in it. *)
Record State := mkState {
  heap : gmap loc PrintJob;
  update_queue : list Update;
  job_queue : list loc;
  printers : list Printer;
  algorithm : Algorithm
}.

(** ** Reading and writing objects *)

(** A reference of a running program always designates an object.  The
    operations below are total: reading a location that was never allocated,
    which no execution does, gives this blank job. *)
Definition blank_job : PrintJob :=
  mkPrintJob "" "" "" 0 Queued 0 0.

Definition deref (h : gmap loc PrintJob) (r : loc) : PrintJob :=
  default blank_job (h !! r).

Definition set_status (st : Status) (j : PrintJob) : PrintJob :=
  mkPrintJob (job_id j) (file_name j) (file_path j) (pages j) st
             (progress j) (pages_remaining j).

(** [job.progress += 1; job.pages_remaining -= 1] *)
Definition print_page (j : PrintJob) : PrintJob :=
  mkPrintJob (job_id j) (file_name j) (file_path j) (pages j) (status j)
             (progress j + 1) (pages_remaining j - 1).

Definition set_heap (h : gmap loc PrintJob) (s : State) : State :=
  mkState h (update_queue s) (job_queue s) (printers s) (algorithm s).
Definition set_job_queue (q : list loc) (s : State) : State :=
  mkState (heap s) (update_queue s) q (printers s) (algorithm s).
Definition set_printers (ps : list Printer) (s : State) : State :=
  mkState (heap s) (update_queue s) (job_queue s) ps (algorithm s).
Definition set_algorithm (a : Algorithm) (s : State) : State :=
  mkState (heap s) (update_queue s) (job_queue s) (printers s) a.

(** [<job>.status = st] *)
Definition write_status (r : loc) (st : Status) (s : State) : State :=
  set_heap (alter (set_status st) r (heap s)) s.

Definition set_is_running (b : bool) (p : Printer) : Printer :=
  mkPrinter (printer_id p) (printer_name p) (current_job p) b (is_paused p)
            (shutdown_flag p) (preempt_with_job p) (cancel_current_job p).
Definition set_current_job (c : option loc) (p : Printer) : Printer :=
  mkPrinter (printer_id p) (printer_name p) c (is_running p) (is_paused p)
            (shutdown_flag p) (preempt_with_job p) (cancel_current_job p).
Definition set_is_paused (b : bool) (p : Printer) : Printer :=
  mkPrinter (printer_id p) (printer_name p) (current_job p) (is_running p) b
            (shutdown_flag p) (preempt_with_job p) (cancel_current_job p).
Definition set_shutdown_flag (b : bool) (p : Printer) : Printer :=
  mkPrinter (printer_id p) (printer_name p) (current_job p) (is_running p)
            (is_paused p) b (preempt_with_job p) (cancel_current_job p).
Definition set_preempt_with_job (c : option loc) (p : Printer) : Printer :=
  mkPrinter (printer_id p) (printer_name p) (current_job p) (is_running p)
            (is_paused p) (shutdown_flag p) c (cancel_current_job p).
Definition set_cancel_current_job (b : bool) (p : Printer) : Printer :=
  mkPrinter (printer_id p) (printer_name p) (current_job p) (is_running p)
            (is_paused p) (shutdown_flag p) (preempt_with_job p) b.

(** [PrintJob(file_name, file_path, pages)]: a new object, at a location that
    is not in use, and the reference to it. *)
Definition PrintJob_init (jid fname fpath : string) (npages : Z) (s : State)
    : loc * State :=
  let r := fresh (dom (heap s)) in
  (r, set_heap (<[r := mkPrintJob jid fname fpath npages Queued 0 npages]> (heap s)) s).

(** [Printer.__init__] *)
Definition Printer_init (id : Z) (name : string) : Printer :=
  mkPrinter id name None true false false None false.

(** [JobManager.__init__], on an empty store and an empty update queue. *)
Definition JobManager_init : State := mkState ∅ [] [] [] FCFS.

(** [deque.remove(x)]: deletes the first occurrence; [None] is the
    [ValueError] raised when there is none. *)
Fixpoint deque_remove (x : loc) (q : list loc) : option (list loc) :=
  match q with
  | [] => None
  | y :: q' =>
      if decide (y = x) then Some q'
      else match deque_remove x q' with
           | Some q'' => Some (y :: q'')
           | None => None
           end
  end.

(** ** JobManager *)

(** [JobManager.send_update] *)
Definition send_update (u : Update) (s : State) : State :=
  mkState (heap s) (update_queue s ++ [u]) (job_queue s) (printers s)
          (algorithm s).

(** [JobManager.log] *)
Definition log (msg : LogMsg) (s : State) : State :=
  send_update (ULog Manager msg) s.

(** [JobManager.send_full_update] *)
Definition send_full_update (s : State) : State :=
  send_update (UUpdateQueue (deref (heap s) <$> job_queue s)) s.

(** [sum(j.pages_remaining for j in self.job_queue)] *)
Definition sum_remaining (h : gmap loc PrintJob) (q : list loc) : Z :=
  fold_left (fun acc r => acc + pages_remaining (deref h r)) q 0.

(** [sum(...) / queue_length].  Python's true division of two integers is the
    correctly rounded quotient; the embedding keeps the exact rational, which
    compares with 20 the same way as long as the queue is shorter than 2^49
    jobs and the quotient is in the range of a float. *)
Definition avg_pages (h : gmap loc PrintJob) (q : list loc) : Q :=
  (inject_Z (sum_remaining h q) / inject_Z (Z.of_nat (length q)))%Q.

(** The value of [new_algo] in [auto_select_algorithm].  The handler of
    [ZeroDivisionError] is not reached: the division is under
    [queue_length > 3]. *)
Definition new_algo (h : gmap loc PrintJob) (q : list loc) : Algorithm :=
  let queue_length := length q in
  if (queue_length =? 0)%nat then FCFS
  else if (queue_length <=? 3)%nat then FCFS
  else if Qle_bool (avg_pages h q) (inject_Z 20) then SRTF
  else SJF.

(** [JobManager.auto_select_algorithm] *)
Definition auto_select_algorithm (s : State) : State :=
  let a := new_algo (heap s) (job_queue s) in
  if decide (algorithm s = a) then s
  else send_update (UAlgorithm a)
         (log (MsgAlgorithmSwitched a) (set_algorithm a s)).

(** [Printer.preempt], on the printer at position [i]. *)
Definition preempt (i : nat) (new_job : loc) (s : State) : State :=
  set_printers (alter (set_preempt_with_job (Some new_job)) i (printers s)) s.

(** [Printer.set_cancel_flag], on the printer at position [i]. *)
Definition set_cancel_flag (i : nat) (s : State) : State :=
  set_printers (alter (set_cancel_current_job true) i (printers s)) s.

(** The loop of [check_for_preemption] over [self.printers.values()], from
    position [i] on, with the loop variables [best_target_printer] and
    [max_remaining_time]. *)
Fixpoint scan_printers (h : gmap loc PrintJob) (ps : list Printer) (i : nat)
    (best_target_printer : option nat) (max_remaining_time : Z)
    : option nat * Z :=
  match ps with
  | [] => (best_target_printer, max_remaining_time)
  | printer :: ps' =>
      match current_job printer with
      | Some r =>
          if negb (is_paused printer) then
            let remaining_time := pages_remaining (deref h r) in
            if max_remaining_time <? remaining_time
            then scan_printers h ps' (S i) (Some i) remaining_time
            else scan_printers h ps' (S i) best_target_printer max_remaining_time
          else scan_printers h ps' (S i) best_target_printer max_remaining_time
      | None => scan_printers h ps' (S i) best_target_printer max_remaining_time
      end
  end.

(** [JobManager.check_for_preemption] *)
Definition check_for_preemption (new_job : loc) (s : State) : State :=
  let nj := deref (heap s) new_job in
  match fst (scan_printers (heap s) (printers s) 0 None (pages_remaining nj)) with
  | Some best_target_printer =>
      let s1 := log (MsgSrtfPreemption (job_id nj) (pages_remaining nj)) s in
      match deque_remove new_job (job_queue s1) with
      | Some q' => preempt best_target_printer new_job (set_job_queue q' s1)
      | None => log (MsgSrtfInfo (job_id nj)) s1
      end
  | None => s
  end.

(** [JobManager.add_job_to_queue] *)
Definition add_job_to_queue (job : loc) (preempted : bool) (s : State) : State :=
  let j := deref (heap s) job in
  let s1 :=
    if preempted
    then log (MsgRequeued (file_name j)) (set_job_queue (job :: job_queue s) s)
    else log (MsgAdded (file_name j) (pages j))
             (set_job_queue (job_queue s ++ [job]) s) in
  let s2 :=
    if bool_decide (algorithm s1 = SRTF) && negb preempted
    then check_for_preemption job s1
    else s1 in
  send_full_update (auto_select_algorithm s2).

(** [sorted(jobs, key=lambda j: j.pages_remaining)]: Python's sort is stable,
    and so is this insertion sort. *)
Fixpoint insert_by_remaining (h : gmap loc PrintJob) (x : loc) (l : list loc)
    : list loc :=
  match l with
  | [] => [x]
  | y :: l' =>
      if pages_remaining (deref h x) <=? pages_remaining (deref h y)
      then x :: y :: l'
      else y :: insert_by_remaining h x l'
  end.

Definition sorted_jobs (h : gmap loc PrintJob) (q : list loc) : list loc :=
  foldr (insert_by_remaining h) [] q.

(** [JobManager.get_next_job]: the job returned, and the state.  An exception
    in the [try] block is logged and [None] is returned. *)
Definition get_next_job (pid : Z) (s : State) : option loc * State :=
  let s1 := auto_select_algorithm s in
  match job_queue s1 with
  | [] => (None, s1)
  | head :: rest =>
      match algorithm s1 with
      | FCFS => (Some head, send_full_update (set_job_queue rest s1))
      | SJF | SRTF =>
          match sorted_jobs (heap s1) (job_queue s1) with
          | next_job :: _ =>
              match deque_remove next_job (job_queue s1) with
              | Some q' => (Some next_job, send_full_update (set_job_queue q' s1))
              | None => (None, log MsgGetNextError s1)
              end
          | [] => (None, log MsgGetNextError s1)
          end
      end
  end.

(** The loop of [cancel_job] over [self.printers.values()]: the first printer
    whose current job has the id [jid], with its position and that job. *)
Fixpoint find_holder (h : gmap loc PrintJob) (jid : string) (ps : list Printer)
    (i : nat) : option (nat * Printer * loc) :=
  match ps with
  | [] => None
  | printer :: ps' =>
      match current_job printer with
      | Some r =>
          if String.eqb (job_id (deref h r)) jid then Some (i, printer, r)
          else find_holder h jid ps' (S i)
      | None => find_holder h jid ps' (S i)
      end
  end.

(** [JobManager.cancel_job]; [None] is a [ValueError] of [deque.remove]
    leaving the method, which has no handler for it. *)
Definition cancel_job (jid : string) (s : State) : option State :=
  match find (fun r => String.eqb (job_id (deref (heap s) r)) jid) (job_queue s) with
  | Some job_to_cancel =>
      match deque_remove job_to_cancel (job_queue s) with
      | Some q' =>
          Some (send_full_update
                  (log (MsgCanceledRemoved (file_name (deref (heap s) job_to_cancel)))
                       (set_job_queue q' s)))
      | None => None
      end
  | None =>
      match find_holder (heap s) jid (printers s) 0 with
      | Some (i, printer, r) =>
          Some (set_cancel_flag i
                  (log (MsgSignaling (printer_name printer)
                          (file_name (deref (heap s) r))) s))
      | None => Some (log (MsgCouldNotFind jid) s)
      end
  end.

(** [JobManager.add_printer]: [self.printers[id] = instance] replaces the
    value of a key already present and keeps its position, and appends a new
    key. *)
Fixpoint dict_set (p : Printer) (ps : list Printer) : list Printer :=
  match ps with
  | [] => [p]
  | p' :: ps' =>
      if decide (printer_id p' = printer_id p) then p :: ps'
      else p' :: dict_set p ps'
  end.

Definition add_printer (p : Printer) (s : State) : State :=
  log (MsgOnline (printer_name p) (printer_id p))
      (set_printers (dict_set p (printers s)) s).

(** [self.printers.pop(printer_id)], under [printer_id in self.printers]. *)
Fixpoint dict_pop (id : Z) (ps : list Printer) : option (Printer * list Printer) :=
  match ps with
  | [] => None
  | p :: ps' =>
      if decide (printer_id p = id) then Some (p, ps')
      else match dict_pop id ps' with
           | Some (x, ps'') => Some (x, p :: ps'')
           | None => None
           end
  end.

(** ** Printer *)

(** [Printer.send_update] *)
Definition printer_send_update (self : Printer) (u : Update) (s : State) : State :=
  if is_running self then send_update u s else s.

(** [Printer.log] *)
Definition printer_log (self : Printer) (msg : LogMsg) (s : State) : State :=
  printer_send_update self (ULog (FromPrinter (printer_name self)) msg) s.

(** [Printer.send_status_update] *)
Definition send_status_update (self : Printer) (s : State) : State :=
  let job_snapshot := deref (heap s) <$> current_job self in
  let current_status :=
    match current_job self with
    | Some r => JobStatus (status (deref (heap s) r))
    | None => if is_paused self then JobStatus Paused else Idle
    end in
  printer_send_update self
    (UPrinterStatus (printer_id self) (printer_name self) job_snapshot
                    current_status) s.

(** [Printer.run_cycle], lines 113 to 134: up to the delay that simulates the
    printing of one page.  The boolean tells whether the delay is reached;
    otherwise the method has returned. *)
Definition run_cycle_before_delay (self : Printer) (s : State)
    : Printer * State * bool :=
  if is_paused self then
    let s1 := match current_job self with
              | Some r => write_status r Paused s
              | None => s
              end in
    (self, send_status_update self s1, false)
  else
    match current_job self with
    | Some r => (self, send_status_update self s, true)
    | None =>
        let s1 := send_status_update self s in
        if shutdown_flag self then (self, s1, false)
        else
          let '(next, s2) := get_next_job (printer_id self) s1 in
          let self1 := set_current_job next self in
          match next with
          | Some r =>
              let s3 := write_status r Printing s2 in
              let s4 := printer_log self1 (MsgStarted (file_name (deref (heap s3) r))) s3 in
              (self1, send_status_update self1 s4, true)
          | None => (self1, s2, false)
          end
    end.

(** [Printer.run_cycle], lines 138 to 167: what follows the delay.  The flags
    of [self] are the ones another thread may have set during the delay.
    [None] is the [AttributeError] of line 141 when there is no current job,
    raised before anything is written. *)
Definition run_cycle_after_delay (self : Printer) (s : State)
    : option (Printer * State) :=
  if is_paused self || shutdown_flag self then Some (self, s)
  else
    match current_job self with
    | None => None
    | Some r =>
        let s1 := set_heap (alter print_page r (heap s)) s in
        if cancel_current_job self then
          let s2 := printer_log self (MsgCanceled (file_name (deref (heap s1) r))) s1 in
          let s3 := write_status r Canceled s2 in
          let self1 := set_cancel_current_job false (set_current_job None self) in
          Some (self1, send_status_update self1 s3)
        else
          match preempt_with_job self with
          | Some new_job =>
              let s2 := printer_log self
                          (MsgPreemptedBy (file_name (deref (heap s1) new_job))) s1 in
              let s3 := write_status r QueuedPreempted s2 in
              let s4 := add_job_to_queue r true s3 in
              let self1 := set_current_job (Some new_job) self in
              let s5 := write_status new_job Printing s4 in
              Some (set_preempt_with_job None self1, s5)
          | None =>
              let j := deref (heap s1) r in
              if pages j <=? progress j then
                let s2 := printer_log self (MsgFinished (file_name j)) s1 in
                let s3 := write_status r Completed s2 in
                let self1 := set_current_job None self in
                Some (self1, send_status_update self1 s3)
              else Some (self, s1)
          end
    end.

(** [Printer.run_cycle] when no other thread acts during the delay. *)
Definition run_cycle (self : Printer) (s : State) : option (Printer * State) :=
  let '(self1, s1, at_delay) := run_cycle_before_delay self s in
  if at_delay then run_cycle_after_delay self1 s1 else Some (self1, s1).

(** [Printer.toggle_pause] *)
Definition toggle_pause (self : Printer) (s : State) : Printer * State :=
  if is_paused self then
    let self1 := set_is_paused false self in
    let s1 := match current_job self1 with
              | Some r => write_status r Printing s
              | None => s
              end in
    (self1, send_status_update self1 (printer_log self1 MsgResumed s1))
  else
    let self1 := set_is_paused true self in
    let s1 := match current_job self1 with
              | Some r => write_status r Paused s
              | None => s
              end in
    (self1, send_status_update self1 (printer_log self1 MsgPausedLog s1)).

(** [Printer.stop] *)
Definition stop (self : Printer) (s : State) : Printer * State :=
  (set_shutdown_flag true self, printer_log self MsgShutdownSignal s).

(** [JobManager.remove_printer]: the printer taken out of the dict, if any,
    with its shutdown flag set.  Its thread runs on, outside the manager. *)
Definition remove_printer (id : Z) (s : State) : option Printer * State :=
  match dict_pop id (printers s) with
  | Some (printer, ps') =>
      let '(printer1, s1) := stop printer (set_printers ps' s) in
      (Some printer1, log (MsgShuttingDown (printer_name printer1) (printer_id printer1)) s1)
  | None => (None, s)
  end.

(** [Printer.run], lines 95 to 108: what the thread does when its loop ends.
    The "Offline" status is not sent: [is_running] is false by the time
    [send_update] tests it. *)
Definition run_exit (self : Printer) (s : State) : Printer * State :=
  let s1 :=
    match current_job self with
    | Some r =>
        let s0 := printer_log self (MsgRequeuing (file_name (deref (heap s) r))) s in
        add_job_to_queue r true (write_status r Queued s0)
    | None => s
    end in
  let s2 := printer_log self MsgOffline s1 in
  let self1 := set_is_running false self in
  (self1,
   printer_send_update self1
     (UPrinterStatus (printer_id self) (printer_name self) None Offline) s2).

(** ** Operations on a registered printer

    The manager holds the very [Printer] objects the threads run on.  A method
    of the printer at position [i] runs on the entry of [printers]; the calls
    it makes into the manager ([get_next_job], and [add_job_to_queue] with
    [preempted=True]) do not touch [printers], so the entry is written after
    them. *)
Definition on_printer (i : nat) (m : Printer -> State -> option (Printer * State))
    (s : State) : option State :=
  match printers s !! i with
  | Some self =>
      match m self s with
      | Some (self', s') => Some (set_printers (<[i := self']> (printers s')) s')
      | None => None
      end
  | None => None
  end.

(** What the user interface and the printer threads do, one call at a time:
    connect a printer, submit a file, cancel a job, pause or resume a printer,
    let a printer run one cycle, and disconnect a printer, whose thread then
    leaves its loop and gives its job back. *)
Inductive Op :=
  | OpAddPrinter (id : Z) (name : string)
  | OpSubmit (jid fname fpath : string) (npages : Z)
  | OpCancel (jid : string)
  | OpTogglePause (i : nat)
  | OpRunCycle (i : nat)
  | OpRemovePrinter (id : Z).

Definition step (o : Op) (s : State) : option State :=
  match o with
  | OpAddPrinter id name => Some (add_printer (Printer_init id name) s)
  | OpSubmit jid fname fpath npages =>
      let '(job, s1) := PrintJob_init jid fname fpath npages s in
      Some (add_job_to_queue job false s1)
  | OpCancel jid => cancel_job jid s
  | OpTogglePause i => on_printer i (fun self s => Some (toggle_pause self s)) s
  | OpRunCycle i => on_printer i run_cycle s
  | OpRemovePrinter id =>
      match remove_printer id s with
      | (Some printer, s1) => Some (snd (run_exit printer s1))
      | (None, s1) => Some s1
      end
  end.

Fixpoint run_ops (os : list Op) (s : State) : option State :=
  match os with
  | [] => Some s
  | o :: os' =>
      match step o s with
      | Some s' => run_ops os' s'
      | None => None
      end
  end.

(** * The vocabulary of the statements *)

(** The policy as the specification words it, from the length of the queue
    and the mean of the remaining pages. *)
Definition policy_of (queue_length : nat) (mean : Q) : Algorithm :=
  if (queue_length <=? 3)%nat then FCFS
  else if Qle_bool mean (inject_Z 20) then SRTF
  else SJF.

(** A printer that holds the job [r] and is not paused. *)
Definition actively_printing (p : Printer) (r : loc) : Prop :=
  current_job p = Some r /\ is_paused p = false.

(** [progress + pages_remaining == pages] *)
Definition balanced (j : PrintJob) : Prop :=
  progress j + pages_remaining j = pages j.

(** Every job of the store is balanced. *)
Definition heap_balanced (h : gmap loc PrintJob) : Prop :=
  map_Forall (fun _ j => balanced j) h.

(** [progress] and [pages_remaining] of a job. *)
Definition counters (j : PrintJob) : Z * Z := (progress j, pages_remaining j).

(** The status a job shows on a printer whose pause flag is [b]. *)
Definition shown_status (b : bool) : Status := if b then Paused else Printing.

(** The jobs a printer holds. *)
Definition held (p : Printer) : list loc :=
  option_list (current_job p) ++ option_list (preempt_with_job p).

(** The jobs held by the queue and the printers. *)
Definition owned (s : State) : list loc :=
  job_queue s ++ (printers s ≫= held).

(** The job on the printer, if any, shows the status of the pause flag. *)
Definition shows_flag (h : gmap loc PrintJob) (p : Printer) : Prop :=
  forall r, current_job p = Some r ->
            status (deref h r) = shown_status (is_paused p).

(** A well-formed state: every job is held once, every reference held
    designates an object, and the jobs on the printers show the status of the
    pause flags. *)
Record wf (s : State) : Prop := mk_wf {
  wf_NoDup : NoDup (owned s);
  wf_alloc : forall r, r ∈ owned s -> is_Some (heap s !! r);
  wf_shown : forall p, p ∈ printers s -> shows_flag (heap s) p
}.

(** What a method of the printer [p] may do to the state: it leaves the list
    of printers alone, it moves jobs between the queue and the printer or
    drops them, and it writes only jobs that the queue or the printer held. *)
Definition local_step (s : State) (p : Printer) (s' : State) (p' : Printer) : Prop :=
  printers s' = printers s /\
  job_queue s' ++ held p' ⊆+ job_queue s ++ held p /\
  (forall x, is_Some (heap s !! x) -> is_Some (heap s' !! x)) /\
  (forall x, x ∉ job_queue s ++ held p -> deref (heap s') x = deref (heap s) x).

(** * Concrete states and runs *)

(** One printer prints A (40 pages) while B, C, D and E (one page each) wait,
    so the policy is SRTF.  F (two pages) is submitted and becomes the
    preemption payload of the printer; A is cancelled before the printer's
    next checkpoint.  The cycles that follow cancel A, start B and print its
    only page, re-queue B at the checkpoint as preempted by F, print F, and
    take B from the queue again. *)
Definition requeue_after_last_page : list Op :=
  [ OpAddPrinter 1 "W";
    OpSubmit "a" "A.pdf" "/A.pdf" 40;
    OpRunCycle 0%nat;
    OpSubmit "b" "B.pdf" "/B.pdf" 1;
    OpSubmit "c" "C.pdf" "/C.pdf" 1;
    OpSubmit "d" "D.pdf" "/D.pdf" 1;
    OpSubmit "e" "E.pdf" "/E.pdf" 1;
    OpSubmit "f" "F.pdf" "/F.pdf" 2;
    OpCancel "a";
    OpRunCycle 0%nat;
    OpRunCycle 0%nat;
    OpRunCycle 0%nat;
    OpRunCycle 0%nat;
    OpRunCycle 0%nat ].

(** One job of three pages submitted to a manager without printers. *)
Definition one_pending_job : State :=
  let '(job, s) := PrintJob_init "a" "A.pdf" "/A.pdf" 3 JobManager_init in
  add_job_to_queue job false s.


(** The printer W prints A, with 39 pages left; B, C, D and E, of one page
    each, and F, of two pages, are pending under SRTF. *)
Definition five_pending : State :=
  mkState
    (list_to_map
       [ (0%nat, mkPrintJob "a" "A.pdf" "/A.pdf" 40 Printing 1 39);
         (1%nat, mkPrintJob "b" "B.pdf" "/B.pdf" 1 Queued 0 1);
         (2%nat, mkPrintJob "c" "C.pdf" "/C.pdf" 1 Queued 0 1);
         (3%nat, mkPrintJob "d" "D.pdf" "/D.pdf" 1 Queued 0 1);
         (4%nat, mkPrintJob "e" "E.pdf" "/E.pdf" 1 Queued 0 1);
         (5%nat, mkPrintJob "f" "F.pdf" "/F.pdf" 2 Queued 0 2) ])
    []
    [1; 2; 3; 4; 5]%nat
    [mkPrinter 1 "W" (Some 0%nat) true false false None false]
    SRTF.


(** W as it is in [five_pending]. *)
Definition printer_printing : Printer :=
  mkPrinter 1 "W" (Some 0%nat) true false false None false.


(** * More of the program *)

(** [n] cycles of [Printer.run]'s loop in a row, with no other thread acting
    in between. *)
Fixpoint run_cycles (n : nat) (self : Printer) (s : State)
    : option (Printer * State) :=
  match n with
  | O => Some (self, s)
  | S n' =>
      match run_cycle self s with
      | Some (self1, s1) => run_cycles n' self1 s1
      | None => None
      end
  end.

(** What identifies a job: the fields that [PrintJob.__init__] sets and no
    method writes. *)
Definition job_identity (j : PrintJob) : string * string * string * Z :=
  (job_id j, file_name j, file_path j, pages j).

(** Two states of one job that differ at most in [status]. *)
Definition same_but_status (j j' : PrintJob) : Prop :=
  job_identity j' = job_identity j /\ counters j' = counters j.

(** Every job of [h] is in [h'], changed at most in [status]. *)
Definition status_writes (h h' : gmap loc PrintJob) : Prop :=
  forall r j, h !! r = Some j -> exists j', h' !! r = Some j' /\ same_but_status j j'.

(** Whether a message is a [printer_status] message. *)
Definition is_printer_status (u : Update) : bool :=
  match u with
  | UPrinterStatus _ _ _ _ => true
  | _ => false
  end.

(** W prints A and already has E as its preemption payload; B, C, D and F
    are pending under SRTF. *)
Definition payload_waiting : State :=
  mkState (heap five_pending) []
    [1; 2; 3; 5]%nat
    [mkPrinter 1 "W" (Some 0%nat) true false false (Some 4%nat) false]
    SRTF.

(** The [printer_status] messages on the update queue, oldest first. *)
Definition status_messages (s : State) : list Update :=
  List.filter is_printer_status (update_queue s).

(** A printer that nobody has paused, stopped, or handed a cancel flag or a
    preemption payload. *)
Definition undisturbed (p : Printer) : Prop :=
  is_paused p = false /\ shutdown_flag p = false /\
  cancel_current_job p = false /\ preempt_with_job p = None.

(** The job [j] after [k] more pages. *)
Definition after_pages (k : Z) (j : PrintJob) : PrintJob :=
  mkPrintJob (job_id j) (file_name j) (file_path j) (pages j) (status j)
             (progress j + k) (pages_remaining j - k).

(** What identifies a printer: the fields that [Printer.__init__] takes from
    its caller. *)
Definition printer_identity (p : Printer) : Z * string :=
  (printer_id p, printer_name p).

(** The two statuses with which a printer lets go of a job. *)
Definition is_final (st : Status) : bool :=
  match st with
  | Completed | Canceled => true
  | _ => false
  end.

(** * printersch.py: the first-come first-served scheduler

    The window of [SmartPrinterScheduler] is kept as far as the program reads
    it back: the process list and the rows of the table. *)
Module printersch.

(** [class Process] *)
Record Process := mkProcess {
  pid : string;
  arrival_time : Z;
  burst_time : Z;
  priority : Z;
  remaining_time : Z;
  waiting_time : Z;
  turnaround_time : Z;
  completion_time : Z
}.

(** [Process.__init__] *)
Definition Process_init (pid : string) (arrival_time burst_time priority : Z)
    : Process :=
  mkProcess pid arrival_time burst_time priority burst_time 0 0 0.

(** A row of the table: the seven values given to [tree.insert].  The last
    three are [None] where the program writes a dash. *)
Record Row := mkRow {
  row_pid : string;
  row_arrival : Z;
  row_burst : Z;
  row_priority : Z;
  row_ct : option Z;
  row_tat : option Z;
  row_wt : option Z
}.

(** The message boxes. *)
Inductive MessageBox :=
  | ShowError
  | ShowWarning
  | ShowInfo (avg_wt avg_tat : Q).

Record SmartPrinterScheduler := mkScheduler {
  process_list : list Process;
  tree : list Row
}.


(** [SmartPrinterScheduler.add_process].  [at_], [bt] and [pr] are the results
    of [int] on the three entries, [None] for a [ValueError]; the first of
    them to fail leaves the method before anything is written. *)
Definition add_process (pid : string) (at_ bt pr : option Z)
    (self : SmartPrinterScheduler) : SmartPrinterScheduler * option MessageBox :=
  match at_, bt, pr with
  | Some a, Some b, Some p =>
      (mkScheduler (process_list self ++ [Process_init pid a b p])
                   (tree self ++ [mkRow pid a b p None None None]),
       None)
  | _, _, _ => (self, Some ShowError)
  end.

(** [process_list.sort(key=lambda x: x.arrival_time)]: Python's sort is
    stable, and so is this insertion sort. *)
Fixpoint insert_by_arrival (x : Process) (l : list Process) : list Process :=
  match l with
  | [] => [x]
  | y :: l' =>
      if arrival_time x <=? arrival_time y then x :: y :: l'
      else y :: insert_by_arrival x l'
  end.

Definition sort_by_arrival (l : list Process) : list Process :=
  foldr insert_by_arrival [] l.

(** The loop of [run_scheduler], lines 82 to 90, with its three variables:
    the processes as the loop leaves them, and the two totals. *)
Fixpoint for_loop (l : list Process)
    (time total_waiting_time total_turnaround_time : Z)
    : list Process * Z * Z :=
  match l with
  | [] => ([], total_waiting_time, total_turnaround_time)
  | p :: l' =>
      let time1 := if time <? arrival_time p then arrival_time p else time in
      let time2 := time1 + burst_time p in
      let completion := time2 in
      let turnaround := completion - arrival_time p in
      let waiting := turnaround - burst_time p in
      let p' := mkProcess (pid p) (arrival_time p) (burst_time p) (priority p)
                          (remaining_time p) waiting turnaround completion in
      let '(done, w, t) :=
        for_loop l' time2 (total_waiting_time + waiting)
                 (total_turnaround_time + turnaround) in
      (p' :: done, w, t)
  end.

(** The row written for a process after the loop. *)
Definition row_of (p : Process) : Row :=
  mkRow (pid p) (arrival_time p) (burst_time p) (priority p)
        (Some (completion_time p)) (Some (turnaround_time p))
        (Some (waiting_time p)).

(** [SmartPrinterScheduler.run_scheduler].  The two averages are Python's
    true division of integers; the embedding keeps the exact rationals, which
    the message box shows rounded to two decimals. *)
Definition run_scheduler (self : SmartPrinterScheduler)
    : SmartPrinterScheduler * MessageBox :=
  match process_list self with
  | [] => (self, ShowWarning)
  | _ :: _ =>
      let sorted := sort_by_arrival (process_list self) in
      let '(done, total_waiting_time, total_turnaround_time) :=
        for_loop sorted 0 0 0 in
      let n := inject_Z (Z.of_nat (length done)) in
      (mkScheduler done (row_of <$> done),
       ShowInfo (inject_Z total_waiting_time / n)%Q
                (inject_Z total_turnaround_time / n)%Q)
  end.

(** What the user does: adds a process, or runs the scheduler. *)
Inductive Op :=
  | OpAddProcess (pid : string) (at_ bt pr : option Z)
  | OpRunScheduler.

Definition step (o : Op) (self : SmartPrinterScheduler) : SmartPrinterScheduler :=
  match o with
  | OpAddProcess pid at_ bt pr => fst (add_process pid at_ bt pr self)
  | OpRunScheduler => fst (run_scheduler self)
  end.

Definition run_ops (os : list Op) (self : SmartPrinterScheduler)
    : SmartPrinterScheduler :=
  fold_left (fun s o => step o s) os self.

(** What [Process.__init__] takes from its caller. *)
Definition proc_identity (p : Process) : string * Z * Z * Z :=
  (pid p, arrival_time p, burst_time p, priority p).

(** A list of processes in which nobody comes before an earlier arrival. *)
Fixpoint in_arrival_order (l : list Process) : Prop :=
  match l with
  | [] => True
  | p :: l' =>
      Forall (fun q => arrival_time p <= arrival_time q) l' /\ in_arrival_order l'
  end.



End printersch.

(** * Properties *)

(** ** The store and the queue *)

Section Basics.
Implicit Types (h : gmap loc PrintJob) (q : list loc) (r x : loc).

Lemma deref_alter_eq h r f :
  is_Some (h !! r) -> deref (alter f r h) r = f (deref h r).
Proof.
  intros [j Hj]. unfold deref. rewrite lookup_alter_eq, Hj. reflexivity.
Qed.

Lemma deref_alter_ne h r r' f :
  r <> r' -> deref (alter f r h) r' = deref h r'.
Proof.
  intros Hne. unfold deref. rewrite lookup_alter_ne by exact Hne. reflexivity.
Qed.

Lemma deque_remove_elem_of x q : x ∈ q -> is_Some (deque_remove x q).
Proof.
  induction q as [|y q IH]; intros Hin.
  - inversion Hin.
  - simpl. destruct (decide (y = x)) as [->|Hne]; [eauto|].
    destruct IH as [q' Hq'].
    + apply elem_of_cons in Hin as [->|Hin]; [congruence|exact Hin].
    + rewrite Hq'. eauto.
Qed.

Lemma deque_remove_None x q : deque_remove x q = None -> x ∉ q.
Proof.
  intros Hnone Hin. apply deque_remove_elem_of in Hin as [q' Hq'].
  congruence.
Qed.

(** [deque.remove] takes out the first occurrence and nothing else. *)
Lemma deque_remove_Some x q q' :
  deque_remove x q = Some q' <->
  exists l1 l2, q = l1 ++ x :: l2 /\ q' = l1 ++ l2 /\ x ∉ l1.
Proof.
  revert q'. induction q as [|y q IH]; intros q'; simpl.
  - split; [discriminate|]. intros (l1 & l2 & Heq & _). destruct l1; discriminate.
  - destruct (decide (y = x)) as [->|Hne].
    + split.
      * intros [= <-]. exists [], q. repeat split. apply not_elem_of_nil.
      * intros (l1 & l2 & Heq & -> & Hnin). destruct l1 as [|z l1]; simpl in *.
        -- congruence.
        -- injection Heq as <- _. exfalso. apply Hnin. apply elem_of_cons. auto.
    + destruct (deque_remove x q) as [q''|] eqn:Hrem.
      * split.
        -- intros [= <-]. destruct (proj1 (IH q'') eq_refl) as (l1 & l2 & -> & -> & Hnin).
           exists (y :: l1), l2. repeat split.
           intros [?|?]%elem_of_cons; [congruence|contradiction].
        -- intros (l1 & l2 & Heq & -> & Hnin). destruct l1 as [|z l1]; simpl in *.
           ++ congruence.
           ++ injection Heq as <- ->. f_equal.
              assert (Some q'' = Some (l1 ++ l2)) as [= ->]; [|reflexivity].
              apply IH. exists l1, l2. repeat split.
              intros Hin. apply Hnin. apply elem_of_cons. auto.
      * split; [discriminate|].
        intros (l1 & l2 & Heq & -> & Hnin). destruct l1 as [|z l1]; simpl in *.
        -- congruence.
        -- injection Heq as <- ->. exfalso.
           assert (is_Some (None : option (list loc))) as [? ?]; [|discriminate].
           rewrite <- Hrem. apply deque_remove_elem_of.
           apply elem_of_app. right. apply elem_of_cons. auto.
Qed.

Lemma deque_remove_length x q q' :
  deque_remove x q = Some q' -> length q = S (length q').
Proof.
  intros (l1 & l2 & -> & -> & _)%deque_remove_Some.
  rewrite !length_app. simpl. lia.
Qed.

(** In a queue that holds every job once, the job removed is gone. *)
Lemma deque_remove_NoDup x q q' :
  NoDup q -> deque_remove x q = Some q' -> (x ∉ q') /\ NoDup q'.
Proof.
  intros Hnd (l1 & l2 & -> & -> & Hnin)%deque_remove_Some.
  apply NoDup_app in Hnd as (Hnd1 & Hdisj & Hnd2).
  apply NoDup_cons in Hnd2 as [Hx Hnd2]. split.
  - intros [?|?]%elem_of_app; contradiction.
  - apply NoDup_app. repeat split; [exact Hnd1| |exact Hnd2].
    intros y Hy1 Hy2. apply (Hdisj y Hy1). apply elem_of_cons. auto.
Qed.

Lemma sum_remaining_from h q a :
  fold_left (fun acc r => acc + pages_remaining (deref h r)) q a
  = a + sum_remaining h q.
Proof.
  unfold sum_remaining. revert a. induction q as [|r q IH]; intros a; simpl.
  - lia.
  - rewrite IH, (IH (0 + _)). lia.
Qed.

Lemma sum_remaining_cons h r q :
  sum_remaining h (r :: q) = pages_remaining (deref h r) + sum_remaining h q.
Proof.
  unfold sum_remaining at 1. simpl. rewrite sum_remaining_from. lia.
Qed.
End Basics.

Lemma list_alter_insert {A} (f : A -> A) (l : list A) (i : nat) (x : A) :
  l !! i = Some x -> alter f i l = <[i := f x]> l.
Proof.
  revert i. induction l as [|y l IH]; intros [|i] Hi; simpl in *; try discriminate.
  - injection Hi as ->. reflexivity.
  - f_equal. apply IH. exact Hi.
Qed.


Lemma deref_alter_field {A} (g : PrintJob -> A) (f : PrintJob -> PrintJob)
    (r r' : loc) (h : gmap loc PrintJob) :
  (forall j, g (f j) = g j) -> g (deref (alter f r h) r') = g (deref h r').
Proof.
  intros Hg. unfold deref. destruct (decide (r = r')) as [<-|Hne].
  - rewrite lookup_alter_eq. destruct (h !! r); simpl; [apply Hg|reflexivity].
  - rewrite lookup_alter_ne by exact Hne. reflexivity.
Qed.

Lemma deref_alter_status (st : Status) (r : loc) (h : gmap loc PrintJob) :
  is_Some (h !! r) -> status (deref (alter (set_status st) r h) r) = st.
Proof. intros Hr. rewrite deref_alter_eq by exact Hr. reflexivity. Qed.

Lemma set_status_idem (st : Status) (j : PrintJob) :
  status j = st -> set_status st j = j.
Proof. destruct j. simpl. intros ->. reflexivity. Qed.

Lemma alter_is_Some (f : PrintJob -> PrintJob) (r x : loc) (h : gmap loc PrintJob) :
  is_Some (h !! x) -> is_Some (alter f r h !! x).
Proof. intros Hx. apply lookup_alter_is_Some. exact Hx. Qed.

(** ** What the methods leave alone *)

Global Arguments auto_select_algorithm : simpl never.
Global Arguments check_for_preemption : simpl never.
Global Arguments add_job_to_queue : simpl never.
Global Arguments get_next_job : simpl never.
Global Arguments send_status_update : simpl never.
Global Arguments printer_log : simpl never.


Lemma auto_select_algorithm_frame (s : State) :
  heap (auto_select_algorithm s) = heap s /\
  job_queue (auto_select_algorithm s) = job_queue s /\
  printers (auto_select_algorithm s) = printers s.
Proof. unfold auto_select_algorithm. case_decide; repeat split. Qed.

(** The manager never writes a job: its methods leave the store as it is. *)
Lemma check_for_preemption_heap new_job s :
  heap (check_for_preemption new_job s) = heap s.
Proof.
  unfold check_for_preemption.
  destruct (fst _) as [i|]; [|reflexivity].
  simpl. destruct (deque_remove _ _); reflexivity.
Qed.

Lemma check_for_preemption_algorithm new_job s :
  algorithm (check_for_preemption new_job s) = algorithm s.
Proof.
  unfold check_for_preemption.
  destruct (fst _) as [i|]; [|reflexivity].
  simpl. destruct (deque_remove _ _); reflexivity.
Qed.

(** What [add_job_to_queue] does after it has put the job in the queue. *)
Lemma add_job_to_queue_unfold (job : loc) (preempted : bool) (s : State) :
  add_job_to_queue job preempted s =
  let j := deref (heap s) job in
  let s1 :=
    if preempted
    then log (MsgRequeued (file_name j)) (set_job_queue (job :: job_queue s) s)
    else log (MsgAdded (file_name j) (pages j))
             (set_job_queue (job_queue s ++ [job]) s) in
  send_full_update
    (auto_select_algorithm
       (if bool_decide (algorithm s = SRTF) && negb preempted
        then check_for_preemption job s1 else s1)).
Proof. unfold add_job_to_queue. destruct preempted; reflexivity. Qed.

Lemma add_job_to_queue_heap job preempted s :
  heap (add_job_to_queue job preempted s) = heap s.
Proof.
  unfold add_job_to_queue. simpl.
  rewrite (proj1 (auto_select_algorithm_frame _)).
  destruct (_ && _); [rewrite check_for_preemption_heap|]; destruct preempted; reflexivity.
Qed.

(** A re-queue puts the job at the head and hands nothing to a printer. *)
Lemma add_job_to_queue_requeue job s :
  job_queue (add_job_to_queue job true s) = job :: job_queue s /\
  printers (add_job_to_queue job true s) = printers s.
Proof.
  unfold add_job_to_queue. rewrite andb_false_r.
  cbn [job_queue printers send_full_update send_update].
  destruct (auto_select_algorithm_frame
              (log (MsgRequeued (file_name (deref (heap s) job)))
                   (set_job_queue (job :: job_queue s) s))) as (_ & -> & ->).
  split; reflexivity.
Qed.

(** [get_next_job] takes one entry out of the queue, or none, and touches
    neither the jobs nor the printers. *)
Lemma get_next_job_dequeues pid s :
  heap (snd (get_next_job pid s)) = heap s /\
  printers (snd (get_next_job pid s)) = printers s /\
  match fst (get_next_job pid s) with
  | Some j => exists l1 l2, job_queue s = l1 ++ j :: l2 /\
                            job_queue (snd (get_next_job pid s)) = l1 ++ l2
  | None => job_queue (snd (get_next_job pid s)) = job_queue s
  end.
Proof.
  unfold get_next_job.
  destruct (auto_select_algorithm_frame s) as (Hheap & Hq & Hps).
  set (s1 := auto_select_algorithm s) in *. rewrite Hq.
  destruct (job_queue s) as [|head rest] eqn:Eq; [split_and!; assumption|].
  assert (Hsorted :
    let out := match sorted_jobs (heap s1) (head :: rest) with
               | [] => (None, log MsgGetNextError s1)
               | next_job :: _ =>
                   match deque_remove next_job (head :: rest) with
                   | Some q' => (Some next_job, send_full_update (set_job_queue q' s1))
                   | None => (None, log MsgGetNextError s1)
                   end
               end in
    heap (snd out) = heap s /\ printers (snd out) = printers s /\
    match fst out with
    | Some j => exists l1 l2, head :: rest = l1 ++ j :: l2 /\
                              job_queue (snd out) = l1 ++ l2
    | None => job_queue (snd out) = head :: rest
    end).
  { cbn zeta. destruct (sorted_jobs _ _) as [|j t]; [split_and!; assumption|].
    destruct (deque_remove j (head :: rest)) as [q'|] eqn:Hrem;
      [|split_and!; assumption].
    apply deque_remove_Some in Hrem as (l1 & l2 & Hsplit & -> & _).
    split_and!; try assumption. exists l1, l2. split; [exact Hsplit|reflexivity]. }
  destruct (algorithm s1); try exact Hsorted.
  split_and!; try assumption. exists [], rest. split; reflexivity.
Qed.

Lemma get_next_job_heap pid s : heap (snd (get_next_job pid s)) = heap s.
Proof. apply get_next_job_dequeues. Qed.

Lemma cancel_job_heap jid s s' : cancel_job jid s = Some s' -> heap s' = heap s.
Proof.
  unfold cancel_job. destruct (find _ _) as [r|].
  - destruct (deque_remove _ _); [|discriminate]. intros [= <-]. reflexivity.
  - destruct (find_holder _ _ _ _) as [[[i p] r]|]; intros [= <-]; reflexivity.
Qed.

(** A printer's messages change the update queue only. *)
Lemma printer_send_update_frame self u s :
  heap (printer_send_update self u s) = heap s /\
  job_queue (printer_send_update self u s) = job_queue s /\
  printers (printer_send_update self u s) = printers s /\
  algorithm (printer_send_update self u s) = algorithm s.
Proof. unfold printer_send_update. destruct (is_running self); split_and!; reflexivity. Qed.

Lemma printer_send_update_job_queue self u s :
  job_queue (printer_send_update self u s) = job_queue s.
Proof. apply printer_send_update_frame. Qed.

Lemma printer_send_update_printers self u s :
  printers (printer_send_update self u s) = printers s.
Proof. apply printer_send_update_frame. Qed.

Lemma printer_log_job_queue self msg s :
  job_queue (printer_log self msg s) = job_queue s.
Proof. apply printer_send_update_frame. Qed.

Lemma printer_log_printers self msg s :
  printers (printer_log self msg s) = printers s.
Proof. apply printer_send_update_frame. Qed.

Lemma send_status_update_job_queue self s :
  job_queue (send_status_update self s) = job_queue s.
Proof. apply printer_send_update_frame. Qed.

Lemma send_status_update_printers self s :
  printers (send_status_update self s) = printers s.
Proof. apply printer_send_update_frame. Qed.

Lemma printer_send_update_heap self u s : heap (printer_send_update self u s) = heap s.
Proof. apply printer_send_update_frame. Qed.

Lemma send_status_update_heap self s : heap (send_status_update self s) = heap s.
Proof. apply printer_send_update_frame. Qed.

Lemma printer_log_heap self msg s : heap (printer_log self msg s) = heap s.
Proof. apply printer_send_update_frame. Qed.

Ltac state_simpl :=
  repeat first
    [ rewrite send_status_update_heap
    | rewrite printer_send_update_heap
    | rewrite printer_log_heap
    | rewrite send_status_update_job_queue
    | rewrite printer_send_update_job_queue
    | rewrite printer_send_update_printers
    | rewrite printer_log_job_queue
    | rewrite send_status_update_printers
    | rewrite printer_log_printers
    | rewrite add_job_to_queue_heap
    | rewrite get_next_job_heap
    | rewrite check_for_preemption_heap
    | progress cbn [heap job_queue printers algorithm write_status set_heap
                    set_job_queue set_printers set_algorithm send_update log
                    send_full_update fst snd] ].

Lemma toggle_pause_unfold (self : Printer) (s : State) :
  toggle_pause self s =
  let self1 := set_is_paused (negb (is_paused self)) self in
  let s1 := match current_job self with
            | Some r => write_status r (shown_status (negb (is_paused self))) s
            | None => s
            end in
  (self1,
   send_status_update self1
     (printer_log self1 (if is_paused self then MsgResumed else MsgPausedLog) s1)).
Proof. unfold toggle_pause. destruct (is_paused self); reflexivity. Qed.

Lemma toggle_pause_fst (self : Printer) (s : State) :
  fst (toggle_pause self s) = set_is_paused (negb (is_paused self)) self.
Proof. rewrite toggle_pause_unfold. reflexivity. Qed.

Lemma toggle_pause_heap (self : Printer) (s : State) :
  heap (snd (toggle_pause self s)) =
  match current_job self with
  | Some r => alter (set_status (shown_status (negb (is_paused self)))) r (heap s)
  | None => heap s
  end.
Proof.
  rewrite toggle_pause_unfold. cbn zeta. cbn [snd]. state_simpl.
  destruct (current_job self); reflexivity.
Qed.

Lemma toggle_pause_frame (self : Printer) (s : State) :
  job_queue (snd (toggle_pause self s)) = job_queue s /\
  printers (snd (toggle_pause self s)) = printers s /\
  algorithm (snd (toggle_pause self s)) = algorithm s.
Proof.
  rewrite toggle_pause_unfold. cbn zeta. cbn [snd].
  unfold send_status_update, printer_log.
  rewrite !(proj2 (proj2 (proj2 (printer_send_update_frame _ _ _)))).
  state_simpl. destruct (current_job self); split_and!; reflexivity.
Qed.

(** ** C1: the policy *)

Lemma policy_of_mean_eq (n : nat) (m1 m2 : Q) :
  (m1 == m2)%Q -> policy_of n m1 = policy_of n m2.
Proof.
  intros Heq. unfold policy_of. destruct (n <=? 3)%nat; [reflexivity|].
  destruct (Qle_bool m1 (inject_Z 20)) eqn:H1, (Qle_bool m2 (inject_Z 20)) eqn:H2;
    try reflexivity; exfalso.
  - apply Qle_bool_iff in H1. rewrite Heq in H1. apply Qle_bool_iff in H1. congruence.
  - apply Qle_bool_iff in H2. rewrite <- Heq in H2. apply Qle_bool_iff in H2. congruence.
Qed.



(** ** C2: the SRTF preemption check *)

Section Preemption.
Variable h : gmap loc PrintJob.

(** The loop keeps the first printer that holds the largest remaining count
    above the starting value, when there is one. *)
Lemma scan_printers_spec (ps : list Printer) :
  forall (i : nat) (best : option nat) (max : Z) (b : option nat) (m : Z),
  scan_printers h ps i best max = (b, m) ->
  (b = best /\ m = max /\
   forall p r, p ∈ ps -> actively_printing p r -> pages_remaining (deref h r) <= max)
  \/
  (exists k p r,
     b = Some (i + k)%nat /\ ps !! k = Some p /\ actively_printing p r /\
     pages_remaining (deref h r) = m /\ max < m /\
     (forall p' r', p' ∈ ps -> actively_printing p' r' -> pages_remaining (deref h r') <= m) /\
     (forall k' p' r', (k' < k)%nat -> ps !! k' = Some p' ->
                       actively_printing p' r' -> pages_remaining (deref h r') < m)).
Proof.
  induction ps as [|p ps IH]; intros i best max b m Hscan; simpl in Hscan.
  - injection Hscan as <- <-. left. split_and!; try reflexivity.
    intros p r Hin. inversion Hin.
  - assert (Hskip :
      (forall r, actively_printing p r -> pages_remaining (deref h r) <= max) ->
      scan_printers h ps (S i) best max = (b, m) ->
      (b = best /\ m = max /\
       forall p0 r, p0 ∈ p :: ps -> actively_printing p0 r -> pages_remaining (deref h r) <= max)
      \/
      (exists k p0 r,
         b = Some (i + k)%nat /\ (p :: ps) !! k = Some p0 /\
         actively_printing p0 r /\ pages_remaining (deref h r) = m /\ max < m /\
         (forall p' r', p' ∈ p :: ps -> actively_printing p' r' -> pages_remaining (deref h r') <= m) /\
         (forall k' p' r', (k' < k)%nat -> (p :: ps) !! k' = Some p' ->
                           actively_printing p' r' -> pages_remaining (deref h r') < m))).
    { intros Hp Hrec. destruct (IH _ _ _ _ _ Hrec) as
          [(-> & -> & Hall)|(k & p0 & r & -> & Hk & Hact & Hr & Hlt & Hall & Hfirst)].
      - left. split_and!; try reflexivity. intros p0 r [->|Hin]%elem_of_cons Hact; eauto.
      - right. exists (S k), p0, r. split_and!; try assumption; try reflexivity.
        + f_equal. lia.
        + intros p' r' [->|Hin]%elem_of_cons Hact'; [|eauto].
          specialize (Hp _ Hact'). lia.
        + intros [|k'] p' r' Hlt' Hk' Hact'; simpl in Hk'.
          * injection Hk' as <-. specialize (Hp _ Hact'). lia.
          * apply (Hfirst k' p' r'); [lia|assumption|assumption]. }
    destruct (current_job p) as [r|] eqn:Hcur.
    + destruct (is_paused p) eqn:Hpau; simpl in Hscan.
      * apply Hskip; [|exact Hscan]. intros r' [_ Hp]. congruence.
      * destruct (max <? pages_remaining (deref h r)) eqn:Hcmp.
        -- apply Z.ltb_lt in Hcmp. 
           assert (Hactp : actively_printing p r) by (split; assumption).
           right. destruct (IH _ _ _ _ _ Hscan) as
               [(-> & -> & Hall)|(k & p0 & r0 & -> & Hk & Hact & Hr & Hlt & Hall & Hfirst)].
           ++ exists 0%nat, p, r. split_and!; try assumption; try reflexivity.
              ** f_equal. lia.
              ** intros p' r' [->|Hin]%elem_of_cons Hact'; [|eauto].
                 destruct Hact' as [Hc _]. rewrite Hcur in Hc.
                 injection Hc as <-. lia.
              ** intros k' p' r' Hlt'. lia.
           ++ exists (S k), p0, r0. split_and!; try assumption; try reflexivity.
              ** f_equal. lia.
              ** lia.
              ** intros p' r' [->|Hin]%elem_of_cons Hact'; [|eauto].
                 destruct Hact' as [Hc _]. rewrite Hcur in Hc.
                 injection Hc as <-. lia.
              ** intros [|k'] p' r' Hlt' Hk' Hact'; simpl in Hk'.
                 --- injection Hk' as <-. destruct Hact' as [Hc _].
                     rewrite Hcur in Hc. injection Hc as <-. lia.
                 --- apply (Hfirst k' p' r'); [lia|assumption|assumption].
        -- apply Z.ltb_ge in Hcmp. apply Hskip; [|exact Hscan].
           intros r' [Hc _]. rewrite Hcur in Hc. injection Hc as <-. exact Hcmp.
    + apply Hskip; [|exact Hscan]. intros r' [Hc _]. congruence.
Qed.
End Preemption.

(** C2.  With the new job in the pending queue, [check_for_preemption] looks
    at the printers that hold a job and are not paused.  When one of them has
    more pages remaining than the new job, the new job leaves the queue and
    becomes the preemption payload of one printer, which holds the largest
    remaining count among them (the first such printer), and no other printer
    changes; when none has, nothing changes and the job stays in the queue. *)
Theorem check_for_preemption_spec (new_job : loc) (s : State) :
  new_job ∈ job_queue s ->
  let rem := fun r => pages_remaining (deref (heap s) r) in
  let s' := check_for_preemption new_job s in
  ((exists p r, p ∈ printers s /\ actively_printing p r /\ rem new_job < rem r) ->
   exists i p r q',
     printers s !! i = Some p /\ actively_printing p r /\
     rem new_job < rem r /\
     (forall p' r', p' ∈ printers s -> actively_printing p' r' -> rem r' <= rem r) /\
     (forall k p' r', (k < i)%nat -> printers s !! k = Some p' ->
                      actively_printing p' r' -> rem r' < rem r) /\
     printers s' = <[i := set_preempt_with_job (Some new_job) p]> (printers s) /\
     deque_remove new_job (job_queue s) = Some q' /\
     job_queue s' = q' /\
     (NoDup (job_queue s) -> new_job ∉ job_queue s') /\
     heap s' = heap s /\ algorithm s' = algorithm s)
  /\
  ((forall p r, p ∈ printers s -> actively_printing p r -> rem r <= rem new_job) ->
   s' = s).
Proof.
  intros Hin rem s'. subst s'. unfold check_for_preemption.
  destruct (scan_printers (heap s) (printers s) 0 None
              (pages_remaining (deref (heap s) new_job))) as [b m] eqn:Hscan.
  apply scan_printers_spec in Hscan. simpl. split.
  - intros (p0 & r0 & Hp0 & Hact0 & Hlt0).
    destruct Hscan as
        [(-> & -> & Hall)|(k & p & r & -> & Hk & Hact & Hr & Hlt & Hall & Hfirst)].
    + specialize (Hall _ _ Hp0 Hact0). unfold rem in Hlt0. lia.
    + destruct (deque_remove_elem_of _ _ Hin) as [q' Hq'].
      simpl. rewrite Hq'. exists k, p, r, q'. unfold rem. rewrite Hr.
      split_and!; try assumption; try reflexivity.
      * unfold preempt. simpl. apply list_alter_insert. exact Hk.
      * intros Hnd. simpl. exact (proj1 (deque_remove_NoDup _ _ _ Hnd Hq')).
  - intros Hnone.
    destruct Hscan as
        [(-> & -> & Hall)|(k & p & r & -> & Hk & Hact & Hr & Hlt & Hall & Hfirst)].
    + reflexivity.
    + apply list_elem_of_lookup_2 in Hk. specialize (Hnone _ _ Hk Hact).
      unfold rem in Hnone. lia.
Qed.

(** ** C3: the dequeue *)

Section Dequeue.
Variable h : gmap loc PrintJob.



End Dequeue.


(** ** C4: the page counters of a job *)

Lemma heap_balanced_insert h r jid fname fpath npages :
  heap_balanced h ->
  heap_balanced (<[r := mkPrintJob jid fname fpath npages Queued 0 npages]> h).
Proof.
  intros Hb. apply map_Forall_insert_2; [|exact Hb]. unfold balanced. simpl. lia.
Qed.

Lemma heap_balanced_alter h r f :
  (forall j, balanced j -> balanced (f j)) ->
  heap_balanced h -> heap_balanced (alter f r h).
Proof.
  intros Hf Hb r' j Hj. destruct (decide (r = r')) as [<-|Hne].
  - rewrite lookup_alter_eq in Hj. destruct (h !! r) as [j0|] eqn:Hr; [|discriminate].
    injection Hj as <-. apply Hf. exact (Hb _ _ Hr).
  - rewrite lookup_alter_ne in Hj by exact Hne. exact (Hb _ _ Hj).
Qed.

Lemma balanced_set_status st j : balanced j -> balanced (set_status st j).
Proof. exact id. Qed.

Lemma balanced_print_page j : balanced j -> balanced (print_page j).
Proof. unfold balanced. simpl. lia. Qed.

Lemma heap_balanced_write_status r st s :
  heap_balanced (heap s) -> heap_balanced (heap (write_status r st s)).
Proof. apply heap_balanced_alter, balanced_set_status. Qed.

Lemma run_cycle_before_delay_balanced self s :
  heap_balanced (heap s) ->
  heap_balanced (heap (snd (fst (run_cycle_before_delay self s)))).
Proof.
  intros Hb. unfold run_cycle_before_delay.
  destruct (is_paused self).
  - destruct (current_job self); simpl; state_simpl;
      [apply heap_balanced_alter, Hb; apply balanced_set_status|exact Hb].
  - destruct (current_job self) as [r|]; simpl; state_simpl; [exact Hb|].
    destruct (shutdown_flag self); simpl; state_simpl; [exact Hb|].
    pose proof (get_next_job_heap (printer_id self) (send_status_update self s)) as Hh.
    destruct (get_next_job _ _) as [[r|] s2]; simpl in *; state_simpl; rewrite Hh;
      state_simpl; [|exact Hb].
    apply heap_balanced_alter, Hb. apply balanced_set_status.
Qed.

Lemma run_cycle_after_delay_balanced self s self' s' :
  heap_balanced (heap s) ->
  run_cycle_after_delay self s = Some (self', s') ->
  heap_balanced (heap s').
Proof.
  intros Hb. unfold run_cycle_after_delay.
  destruct (_ || _); [intros [= <- <-]; exact Hb|].
  destruct (current_job self) as [r|]; [|discriminate].
  assert (Hp : heap_balanced (alter print_page r (heap s))).
  { apply heap_balanced_alter, Hb. apply balanced_print_page. }
  destruct (cancel_current_job self).
  { intros [= <- <-]. state_simpl.
    apply heap_balanced_alter, Hp. apply balanced_set_status. }
  destruct (preempt_with_job self) as [n|].
  { intros [= <- <-]. state_simpl.
    do 2 (apply heap_balanced_alter; [apply balanced_set_status|]). exact Hp. }
  destruct (_ <=? _); intros [= <- <-]; state_simpl; [|exact Hp].
  apply heap_balanced_alter, Hp. apply balanced_set_status.
Qed.

Lemma toggle_pause_balanced self s :
  heap_balanced (heap s) -> heap_balanced (heap (snd (toggle_pause self s))).
Proof.
  intros Hb. unfold toggle_pause.
  destruct (is_paused self); simpl; destruct (current_job self); state_simpl;
    try exact Hb; apply heap_balanced_alter, Hb; apply balanced_set_status.
Qed.

(** The first half of C4, on every operation: a submission, a cancellation,
    a pause or a resumption and a worker cycle (with its work unit, its
    cancellation, its preemption and its re-queue) keep
    [progress + pages_remaining == pages] on every job. *)
Lemma step_balanced (o : Op) (s s' : State) :
  heap_balanced (heap s) -> step o s = Some s' -> heap_balanced (heap s').
Proof.
  intros Hb. destruct o as [id name|jid fname fpath npages|jid|i|i|id]; simpl.
  - intros [= <-]. exact Hb.
  - intros [= <-]. rewrite add_job_to_queue_heap. simpl.
    apply heap_balanced_insert, Hb.
  - intros Hc. rewrite (cancel_job_heap _ _ _ Hc). exact Hb.
  - unfold on_printer. destruct (printers s !! i) as [self|]; [|discriminate].
    pose proof (toggle_pause_balanced self s Hb) as Ht.
    destruct (toggle_pause self s) as [self' s1]. intros [= <-]. exact Ht.
  - unfold on_printer. destruct (printers s !! i) as [self|]; [|discriminate].
    destruct (run_cycle self s) as [[self' s1]|] eqn:Hrun; [|discriminate].
    intros [= <-]. simpl. unfold run_cycle in Hrun.
    pose proof (run_cycle_before_delay_balanced self s Hb) as H1.
    destruct (run_cycle_before_delay self s) as [[self1 s2] go]. simpl in H1.
    destruct go.
    + exact (run_cycle_after_delay_balanced _ _ _ _ H1 Hrun).
    + injection Hrun as <- <-. exact H1.
  - unfold remove_printer. destruct (dict_pop id (printers s)) as [[p ps']|].
    + intros [= <-]. unfold run_exit, stop. state_simpl.
      destruct (current_job _); state_simpl; [|exact Hb].
      apply heap_balanced_alter, Hb. apply balanced_set_status.
    + intros [= <-]. exact Hb.
Qed.

Lemma run_ops_balanced (os : list Op) (s s' : State) :
  heap_balanced (heap s) -> run_ops os s = Some s' -> heap_balanced (heap s').
Proof.
  revert s. induction os as [|o os IH]; intros s Hb; simpl.
  - intros [= <-]. exact Hb.
  - destruct (step o s) as [s1|] eqn:Hstep; [|discriminate].
    apply IH. exact (step_balanced _ _ _ Hb Hstep).
Qed.

(** C4, where the code departs from it.  The counters of every job add up to
    its page count throughout, but [pages_remaining] goes below zero: the job
    B, of one page, is re-queued by the preemption branch of the checkpoint
    right after its last page, without the completion check (first eleven
    operations), and its next work unit leaves it with [progress = 2] and
    [pages_remaining = -1]. *)
Theorem pages_remaining_negative_after_requeue :
  exists s_mid s,
    run_ops (take 11 requeue_after_last_page) JobManager_init = Some s_mid /\
    job_queue s_mid = [1; 2; 3; 4]%nat /\
    heap s_mid !! 1%nat =
      Some (mkPrintJob "b" "B.pdf" "/B.pdf" 1 QueuedPreempted 1 0) /\
    run_ops requeue_after_last_page JobManager_init = Some s /\
    heap_balanced (heap s) /\
    heap s !! 1%nat =
      Some (mkPrintJob "b" "B.pdf" "/B.pdf" 1 Completed 2 (-1)) /\
    pages_remaining (deref (heap s) 1%nat) < 0.
Proof.
  destruct (run_ops (take 11 requeue_after_last_page) JobManager_init)
    as [s_mid|] eqn:Hmid; [|vm_compute in Hmid; discriminate].
  destruct (run_ops requeue_after_last_page JobManager_init) as [s|] eqn:Hrun;
    [|vm_compute in Hrun; discriminate].
  exists s_mid, s.
  assert (Hb : heap s !! 1%nat =
               Some (mkPrintJob "b" "B.pdf" "/B.pdf" 1 Completed 2 (-1))).
  { vm_compute in Hrun. injection Hrun as <-. reflexivity. }
  split_and!; try reflexivity.
  - vm_compute in Hmid. injection Hmid as <-. reflexivity.
  - vm_compute in Hmid. injection Hmid as <-. reflexivity.
  - apply (run_ops_balanced requeue_after_last_page JobManager_init s);
      [|exact Hrun].
    apply map_Forall_empty.
  - exact Hb.
  - unfold deref. rewrite Hb. simpl. lia.
Qed.

(** ** C5: cancellation *)

Section Cancel.
Variables (h : gmap loc PrintJob) (jid : string).

(** The loop over the printers finds the first printer that holds a job
    with the id, or none when no printer holds one. *)
Lemma find_holder_Some (ps : list Printer) :
  forall (i0 i : nat) (p : Printer) (r : loc),
  find_holder h jid ps i0 = Some (i, p, r) ->
  exists k, i = (i0 + k)%nat /\ ps !! k = Some p /\
    current_job p = Some r /\ job_id (deref h r) = jid.
Proof.
  induction ps as [|p0 ps IH]; intros i0 i p r Hf; simpl in Hf; [discriminate|].
  assert (Hrec : find_holder h jid ps (S i0) = Some (i, p, r) ->
                 exists k, i = (i0 + k)%nat /\ (p0 :: ps) !! k = Some p /\
                   current_job p = Some r /\ job_id (deref h r) = jid).
  { intros (k & -> & Hk & Hc & Hid)%IH. exists (S k).
    split_and!; try assumption. lia. }
  destruct (current_job p0) as [r0|] eqn:Hc0; [|auto].
  destruct (String.eqb _ _) eqn:Heq; [|auto].
  injection Hf as <- <- <-. exists 0%nat. apply String.eqb_eq in Heq.
  split_and!; try assumption; [lia|reflexivity].
Qed.

Lemma find_holder_None (ps : list Printer) (i0 : nat) :
  find_holder h jid ps i0 = None <->
  forall p r, p ∈ ps -> current_job p = Some r -> job_id (deref h r) <> jid.
Proof.
  revert i0. induction ps as [|p0 ps IH]; intros i0; simpl.
  - split; [|reflexivity]. intros _ p r Hin. inversion Hin.
  - destruct (current_job p0) as [r0|] eqn:Hc0.
    + destruct (String.eqb _ _) eqn:Heq.
      * split; [discriminate|]. intros Hall. exfalso.
        apply String.eqb_eq in Heq. apply (Hall p0 r0); [left|assumption|assumption].
      * apply String.eqb_neq in Heq. rewrite IH. split.
        -- intros Hall p r [->|Hin]%elem_of_cons Hc; [congruence|eauto].
        -- intros Hall p r Hin. apply Hall. right. exact Hin.
    + rewrite IH. split.
      * intros Hall p r [->|Hin]%elem_of_cons Hc; [congruence|eauto].
      * intros Hall p r Hin. apply Hall. right. exact Hin.
Qed.
End Cancel.

(** [cancel_job] raises nothing: the job it removes was found in the queue. *)
Lemma cancel_job_total (jid : string) (s : State) : is_Some (cancel_job jid s).
Proof.
  unfold cancel_job. destruct (find _ _) as [r|] eqn:Hfind.
  - apply List.find_some in Hfind as [Hin _]. apply list_elem_of_In in Hin.
    destruct (deque_remove_elem_of _ _ Hin) as [q' ->]. eauto.
  - destruct (find_holder _ _ _ _) as [[[i p] r]|]; eauto.
Qed.

(** A pending job with the id: it leaves the queue and a snapshot of the new
    queue is sent; no field of the job is written, its status included. *)
Lemma cancel_job_pending (jid : string) (s : State) (r : loc) :
  find (fun r => String.eqb (job_id (deref (heap s) r)) jid) (job_queue s) = Some r ->
  exists q',
    deque_remove r (job_queue s) = Some q' /\
    cancel_job jid s =
      Some (mkState (heap s)
              (update_queue s ++
                 [ULog Manager (MsgCanceledRemoved (file_name (deref (heap s) r)));
                  UUpdateQueue (deref (heap s) <$> q')])
              q' (printers s) (algorithm s)).
Proof.
  intros Hfind. unfold cancel_job. rewrite Hfind.
  apply List.find_some in Hfind as [Hin _]. apply list_elem_of_In in Hin.
  destruct (deque_remove_elem_of _ _ Hin) as [q' Hq']. exists q'.
  split; [exact Hq'|]. rewrite Hq'. unfold send_full_update, log, send_update. simpl.
  rewrite <- app_assoc. reflexivity.
Qed.

(** No pending job has the id and a printer holds one that has: the cancel
    flag of the first such printer is set, and the queue and the jobs are
    untouched. *)
Lemma cancel_job_in_flight (jid : string) (s : State) (i : nat) (p : Printer) (r : loc) :
  (forall x, x ∈ job_queue s -> job_id (deref (heap s) x) <> jid) ->
  find_holder (heap s) jid (printers s) 0 = Some (i, p, r) ->
  printers s !! i = Some p /\ current_job p = Some r /\
  job_id (deref (heap s) r) = jid /\
  cancel_job jid s =
    Some (mkState (heap s)
            (update_queue s ++
               [ULog Manager (MsgSignaling (printer_name p)
                                (file_name (deref (heap s) r)))])
            (job_queue s)
            (<[i := set_cancel_current_job true p]> (printers s))
            (algorithm s)).
Proof.
  intros Hq Hh. destruct (find_holder_Some _ _ _ _ _ _ _ Hh) as (k & -> & Hk & Hc & Hid).
  simpl. split_and!; try assumption.
  unfold cancel_job. destruct (find _ _) as [x|] eqn:Hfind.
  - apply List.find_some in Hfind as [Hin Hx]. apply list_elem_of_In in Hin.
    apply String.eqb_eq in Hx. exfalso. exact (Hq _ Hin Hx).
  - rewrite Hh. unfold set_cancel_flag, log, send_update, set_printers. simpl.
    rewrite (list_alter_insert _ _ _ _ Hk). reflexivity.
Qed.

(** No pending job and no printer's job has the id: one line is logged and
    nothing else changes. *)
Lemma cancel_job_not_found (jid : string) (s : State) :
  (forall x, x ∈ job_queue s -> job_id (deref (heap s) x) <> jid) ->
  (forall p r, p ∈ printers s -> current_job p = Some r ->
               job_id (deref (heap s) r) <> jid) ->
  cancel_job jid s =
    Some (mkState (heap s) (update_queue s ++ [ULog Manager (MsgCouldNotFind jid)])
            (job_queue s) (printers s) (algorithm s)).
Proof.
  intros Hq Hp. unfold cancel_job. destruct (find _ _) as [x|] eqn:Hfind.
  - apply List.find_some in Hfind as [Hin Hx]. apply list_elem_of_In in Hin.
    apply String.eqb_eq in Hx. exfalso. exact (Hq _ Hin Hx).
  - apply (find_holder_None (heap s) jid (printers s) 0) in Hp. rewrite Hp.
    reflexivity.
Qed.

(** C5, where the code departs from it.  Cancelling a pending job removes it
    from the queue and sends the snapshot of the queue, now empty, but the job
    is not marked: its status is still "Queued", where the claim, and the
    cancellation of a job on a printer, have "Canceled". *)
Theorem cancel_job_pending_not_marked :
  exists s',
    cancel_job "a" one_pending_job = Some s' /\
    job_queue one_pending_job = [0%nat] /\
    job_queue s' = [] /\
    last (update_queue s') = Some (UUpdateQueue []) /\
    heap s' !! 0%nat = Some (mkPrintJob "a" "A.pdf" "/A.pdf" 3 Queued 0 3) /\
    status (deref (heap s') 0%nat) <> Canceled.
Proof.
  destruct (cancel_job_pending "a" one_pending_job 0%nat) as (q' & Hq' & ->).
  { reflexivity. }
  vm_compute in Hq'. injection Hq' as <-.
  eexists. split; [reflexivity|]. split_and!; try reflexivity.
  vm_compute. discriminate.
Qed.

(** ** C6: the checkpoint *)


(** ** C7: the interrupted work unit *)

Lemma counters_alter_status (st : Status) (r r' : loc) (h : gmap loc PrintJob) :
  counters (deref (alter (set_status st) r h) r') = counters (deref h r').
Proof. apply (deref_alter_field counters). reflexivity. Qed.

(** Up to the delay a cycle writes statuses only. *)
Lemma run_cycle_before_delay_counters (self : Printer) (s : State) (r' : loc) :
  counters (deref (heap (snd (fst (run_cycle_before_delay self s)))) r')
  = counters (deref (heap s) r').
Proof.
  unfold run_cycle_before_delay.
  destruct (is_paused self).
  - destruct (current_job self); state_simpl;
      [apply counters_alter_status|reflexivity].
  - destruct (current_job self) as [r|]; state_simpl; [reflexivity|].
    destruct (shutdown_flag self); state_simpl; [reflexivity|].
    pose proof (get_next_job_heap (printer_id self) (send_status_update self s)) as Hh.
    destruct (get_next_job _ _) as [[r|] s2]; simpl in Hh; state_simpl; rewrite Hh;
      state_simpl; [|reflexivity].
    apply counters_alter_status.
Qed.

(** After an uninterrupted delay the counters are the ones the work unit
    leaves, whatever the checkpoint does next. *)
Lemma run_cycle_after_delay_counters (self : Printer) (s : State) (r : loc) :
  is_paused self = false -> shutdown_flag self = false ->
  current_job self = Some r ->
  exists self' s',
    run_cycle_after_delay self s = Some (self', s') /\
    forall r', counters (deref (heap s') r')
               = counters (deref (alter print_page r (heap s)) r').
Proof.
  intros Hpau Hshut Hcur. unfold run_cycle_after_delay.
  rewrite Hpau, Hshut, Hcur. simpl orb. cbv iota.
  destruct (cancel_current_job self).
  { do 2 eexists. split; [reflexivity|]. intros r'. state_simpl.
    apply counters_alter_status. }
  destruct (preempt_with_job self) as [n|].
  { do 2 eexists. split; [reflexivity|]. intros r'. state_simpl.
    rewrite !counters_alter_status. reflexivity. }
  destruct (_ <=? _); do 2 eexists; (split; [reflexivity|]); intros r'; state_simpl;
    [apply counters_alter_status|reflexivity].
Qed.

(** C7.  When the pause flag or the shutdown flag is set at the end of the
    delay, the cycle returns there: the printer and the whole state, the
    counters of the job included, are as they were, and nothing of the
    checkpoint has run.  Otherwise the current job's [progress] goes up by one
    and its [pages_remaining] down by one, and no other job's counters move.
    Before the delay a cycle moves no counter. *)
Theorem interrupted_unit_counts_no_page (self : Printer) (s : State) :
  (is_paused self || shutdown_flag self = true ->
   run_cycle_after_delay self s = Some (self, s))
  /\
  (forall r j,
     is_paused self = false -> shutdown_flag self = false ->
     current_job self = Some r -> heap s !! r = Some j ->
     exists self' s',
       run_cycle_after_delay self s = Some (self', s') /\
       progress (deref (heap s') r) = progress j + 1 /\
       pages_remaining (deref (heap s') r) = pages_remaining j - 1 /\
       forall r', r' <> r ->
         counters (deref (heap s') r') = counters (deref (heap s) r'))
  /\
  (forall r',
     counters (deref (heap (snd (fst (run_cycle_before_delay self s)))) r')
     = counters (deref (heap s) r')).
Proof.
  split_and!.
  - intros Hint. unfold run_cycle_after_delay. rewrite Hint. reflexivity.
  - intros r j Hpau Hshut Hcur Hj.
    destruct (run_cycle_after_delay_counters self s r Hpau Hshut Hcur)
      as (self' & s' & Hrun & Hcnt).
    exists self', s'. split; [exact Hrun|].
    assert (Hr : counters (deref (heap s') r) = (progress j + 1, pages_remaining j - 1)).
    { rewrite Hcnt, deref_alter_eq by eauto. unfold deref. rewrite Hj. reflexivity. }
    unfold counters in Hr. injection Hr as Hp Hrem. split_and!; try assumption.
    intros r' Hne. rewrite Hcnt, deref_alter_ne by congruence. reflexivity.
  - apply run_cycle_before_delay_counters.
Qed.

(** ** C8: submission *)


(** ** C9: the new job is no longer in the queue *)



(** ** C10: pausing and resuming *)

(** C10.  Two calls of [toggle_pause] in a row give the printer back as it
    was, pause flag included, and leave the queue, the printers and the policy
    alone.  The attached job, if any, ends with the status that goes with the
    flag (Paused when it is set, Printing when it is clear) and is otherwise
    unchanged: a job that showed that status before has it again, and the
    store is as it was. *)
Theorem toggle_pause_twice (self : Printer) (s : State) :
  let once := toggle_pause self s in
  let twice := toggle_pause (fst once) (snd once) in
  is_paused (fst once) = negb (is_paused self) /\
  fst twice = self /\
  job_queue (snd twice) = job_queue s /\
  printers (snd twice) = printers s /\
  algorithm (snd twice) = algorithm s /\
  heap (snd twice) =
    match current_job self with
    | Some r => alter (set_status (shown_status (is_paused self))) r (heap s)
    | None => heap s
    end /\
  (forall r, current_job self = Some r ->
     status (deref (heap s) r) = shown_status (is_paused self) ->
     heap (snd twice) = heap s /\
     deref (heap (snd twice)) r = deref (heap s) r).
Proof.
  intros once twice.
  assert (Hfst : fst twice = self).
  { subst twice once. rewrite !toggle_pause_fst. destruct self as [? ? ? ? [] ? ? ?]; reflexivity. }
  assert (Hheap : heap (snd twice) =
                  match current_job self with
                  | Some r => alter (set_status (shown_status (is_paused self))) r (heap s)
                  | None => heap s
                  end).
  { subst twice once. rewrite !toggle_pause_heap, !toggle_pause_fst.
    cbn [current_job is_paused set_is_paused]. rewrite negb_involutive.
    destruct (current_job self) as [r|]; [|reflexivity].
    rewrite alter_alter_eq. apply alter_ext. reflexivity. }
  destruct (toggle_pause_frame self s) as (Hq1 & Hp1 & Ha1).
  destruct (toggle_pause_frame (fst once) (snd once)) as (Hq2 & Hp2 & Ha2).
  split_and!.
  - subst once. rewrite toggle_pause_fst. reflexivity.
  - exact Hfst.
  - subst twice once. congruence.
  - subst twice once. congruence.
  - subst twice once. congruence.
  - exact Hheap.
  - intros r Hcur Hst. rewrite Hheap, Hcur.
    assert (Hid : alter (set_status (shown_status (is_paused self))) r (heap s) = heap s).
    { apply alter_id. intros j Hj. apply set_status_idem.
      unfold deref in Hst. rewrite Hj in Hst. exact Hst. }
    rewrite Hid. split; reflexivity.
Qed.

(** * Well-formed states

    The hypotheses of the theorems above hold in every state the program
    reaches: a job object is held once (in the queue, as the current job of
    one printer or as the payload of one printer), every reference held
    designates an object, and the job on a printer shows the status that goes
    with the printer's pause flag between two operations. *)

Lemma submseteq_NoDup (k l : list loc) : k ⊆+ l -> NoDup l -> NoDup k.
Proof.
  intros (k' & Hperm)%submseteq_Permutation Hnd. rewrite Hperm in Hnd.
  apply NoDup_app in Hnd. apply Hnd.
Qed.

Lemma list_delete_insert {A} (l : list A) (i : nat) (x : A) :
  delete i (<[i := x]> l) = delete i l.
Proof.
  revert i. induction l as [|y l IH]; intros [|i]; simpl; try reflexivity.
  f_equal. apply IH.
Qed.

Lemma bind_held_lookup (ps : list Printer) (i : nat) (p : Printer) :
  ps !! i = Some p -> ps ≫= held ≡ₚ held p ++ (delete i ps ≫= held).
Proof.
  intros Hi. rewrite <- (take_drop_middle ps i p Hi) at 1.
  rewrite delete_take_drop, !bind_app, bind_cons.
  apply Permutation_app_swap_app.
Qed.

Lemma bind_held_insert (ps : list Printer) (i : nat) (p p' : Printer) :
  ps !! i = Some p ->
  <[i := p']> ps ≫= held ≡ₚ held p' ++ (delete i ps ≫= held).
Proof.
  intros Hi. rewrite <- (list_delete_insert ps i p').
  apply bind_held_lookup. apply list_lookup_insert_eq.
  apply lookup_lt_Some in Hi. exact Hi.
Qed.

Lemma elem_of_insert_cases (ps : list Printer) (i : nat) (p' x : Printer) :
  x ∈ <[i := p']> ps -> x = p' \/ x ∈ delete i ps.
Proof.
  revert i. induction ps as [|y ps IH]; intros [|i]; simpl.
  - intros Hx. inversion Hx.
  - intros Hx. inversion Hx.
  - intros [->|Hx]%elem_of_cons; [left; reflexivity|right; exact Hx].
  - intros [->|Hx]%elem_of_cons.
    + right. left.
    + destruct (IH _ Hx) as [->|Hd]; [left; reflexivity|right; right; exact Hd].
Qed.

Lemma elem_of_delete (ps : list Printer) (i : nat) (x : Printer) :
  x ∈ delete i ps -> x ∈ ps.
Proof.
  rewrite delete_take_drop. intros [Hx|Hx]%elem_of_app.
  - rewrite <- (take_drop i ps). apply elem_of_app. left. exact Hx.
  - rewrite <- (take_drop (S i) ps). apply elem_of_app. right. exact Hx.
Qed.

Lemma current_job_held (ps : list Printer) (p : Printer) (r : loc) :
  p ∈ ps -> current_job p = Some r -> r ∈ ps ≫= held.
Proof.
  intros Hp Hc. apply list_elem_of_bind. exists p. split; [|exact Hp].
  unfold held. rewrite Hc. left.
Qed.

Lemma local_step_refl (s : State) (p : Printer) : local_step s p s p.
Proof. split_and!; auto. Qed.

Lemma local_step_trans s p s1 p1 s2 p2 :
  local_step s p s1 p1 -> local_step s1 p1 s2 p2 -> local_step s p s2 p2.
Proof.
  intros (Hp1 & Hs1 & Hd1 & Hf1) (Hp2 & Hs2 & Hd2 & Hf2). split_and!.
  - congruence.
  - etransitivity; eassumption.
  - auto.
  - intros x Hx. rewrite Hf2, Hf1; [reflexivity|exact Hx|].
    intros Hin. apply Hx. exact (elem_of_submseteq _ _ _ Hin Hs1).
Qed.

(** A well-formed state stays so when only the log and the policy change. *)
Lemma wf_ext (s s' : State) :
  heap s' = heap s -> job_queue s' = job_queue s -> printers s' = printers s ->
  wf s -> wf s'.
Proof.
  intros Hh Hq Hp [Hnd Hal Hsh]. split; unfold owned; rewrite ?Hh, ?Hq, ?Hp; assumption.
Qed.

(** The step of the printer at position [i], written back into the list. *)
Lemma wf_local (s s1 : State) (i : nat) (p p' : Printer) :
  wf s -> printers s !! i = Some p ->
  local_step s p s1 p' -> shows_flag (heap s1) p' ->
  wf (set_printers (<[i := p']> (printers s1)) s1).
Proof.
  intros [Hnd Hal Hsh] Hi (Hps & Hsub & Hdom & Hframe) Hown.
  assert (Howned : owned s ≡ₚ (job_queue s ++ held p) ++ (delete i (printers s) ≫= held)).
  { unfold owned. rewrite (bind_held_lookup _ _ _ Hi), app_assoc. reflexivity. }
  assert (Hnew : owned (set_printers (<[i := p']> (printers s1)) s1)
                 ≡ₚ (job_queue s1 ++ held p') ++ (delete i (printers s) ≫= held)).
  { unfold owned. cbn [job_queue printers set_printers]. rewrite Hps.
    rewrite (bind_held_insert _ _ _ p' Hi), app_assoc. reflexivity. }
  assert (Hle : owned (set_printers (<[i := p']> (printers s1)) s1) ⊆+ owned s).
  { rewrite Hnew, Howned. apply submseteq_skips_r. exact Hsub. }
  split.
  - exact (submseteq_NoDup _ _ Hle Hnd).
  - intros r Hr. cbn [heap set_printers]. apply Hdom, Hal.
    exact (elem_of_submseteq _ _ _ Hr Hle).
  - cbn [heap printers set_printers]. rewrite Hps.
    intros x [->|Hx]%elem_of_insert_cases; [exact Hown|].
    intros r Hc. rewrite Hframe.
    + apply Hsh; [exact (elem_of_delete _ _ _ Hx)|exact Hc].
    + rewrite Howned in Hnd. apply NoDup_app in Hnd as (_ & Hdisj & _).
      intros Hin. apply (Hdisj r Hin). exact (current_job_held _ _ _ Hx Hc).
Qed.

(** Jobs leave the queue or the printers, and nothing else changes. *)
Lemma wf_shrink (s s' : State) :
  heap s' = heap s -> owned s' ⊆+ owned s ->
  (forall p, p ∈ printers s' ->
             p ∈ printers s \/ current_job p = None) ->
  wf s -> wf s'.
Proof.
  intros Hh Hsub Hps [Hnd Hal Hsh]. split.
  - exact (submseteq_NoDup _ _ Hsub Hnd).
  - intros r Hr. rewrite Hh. apply Hal. exact (elem_of_submseteq _ _ _ Hr Hsub).
  - intros p Hp. rewrite Hh. destruct (Hps p Hp) as [Hin|Hnone].
    + apply Hsh. exact Hin.
    + intros r Hc. congruence.
Qed.

Lemma held_current (p : Printer) (r : loc) : current_job p = Some r -> r ∈ held p.
Proof. intros Hc. unfold held. rewrite Hc. left. Qed.

Lemma held_payload (p : Printer) (n : loc) : preempt_with_job p = Some n -> n ∈ held p.
Proof.
  intros Hc. unfold held. rewrite Hc. apply elem_of_app. right. left.
Qed.

Lemma toggle_pause_local (self : Printer) (s : State) :
  local_step s self (snd (toggle_pause self s)) (fst (toggle_pause self s)) /\
  ((forall r, r ∈ held self -> is_Some (heap s !! r)) ->
   shows_flag (heap (snd (toggle_pause self s))) (fst (toggle_pause self s))).
Proof.
  rewrite toggle_pause_unfold. cbn zeta. cbn [fst snd]. split.
  - split_and!; state_simpl.
    + destruct (current_job self); reflexivity.
    + destruct (current_job self); state_simpl; reflexivity.
    + intros x Hx. destruct (current_job self); state_simpl;
        [apply alter_is_Some|]; exact Hx.
    + intros x Hx. destruct (current_job self) as [r|] eqn:Hc; state_simpl;
        [|reflexivity].
      apply deref_alter_ne. intros ->. apply Hx, elem_of_app. right.
      apply held_current, Hc.
  - intros Hal r Hc. cbn [current_job set_is_paused] in Hc. state_simpl.
    rewrite Hc. state_simpl. cbn [is_paused set_is_paused].
    apply deref_alter_status. apply Hal, held_current, Hc.
Qed.

(** The cycle up to the delay: it may take a job from the queue. *)
Lemma run_cycle_before_delay_local (self : Printer) (s : State) :
  let self1 := fst (fst (run_cycle_before_delay self s)) in
  let s1 := snd (fst (run_cycle_before_delay self s)) in
  let at_delay := snd (run_cycle_before_delay self s) in
  local_step s self s1 self1 /\
  ((forall r, r ∈ job_queue s ++ held self -> is_Some (heap s !! r)) ->
   shows_flag (heap s) self ->
   shows_flag (heap s1) self1) /\
  (at_delay = true -> is_paused self1 = false /\ is_Some (current_job self1)).
Proof.
  unfold run_cycle_before_delay.
  destruct (is_paused self) eqn:Hpau.
  { cbn [fst snd]. split_and!; [|intros Hal Hsh|discriminate].
    - split_and!; state_simpl.
      + destruct (current_job self); reflexivity.
      + destruct (current_job self); state_simpl; reflexivity.
      + intros x Hx. destruct (current_job self); state_simpl;
          [apply alter_is_Some|]; exact Hx.
      + intros x Hx. destruct (current_job self) as [r|] eqn:Hc; state_simpl;
          [|reflexivity].
        apply deref_alter_ne. intros ->. apply Hx, elem_of_app. right.
        apply held_current, Hc.
    - intros r Hc. state_simpl. rewrite Hc, Hpau. state_simpl.
      apply deref_alter_status. apply Hal, elem_of_app. right.
      apply held_current, Hc. }
  destruct (current_job self) as [r|] eqn:Hcur.
  { cbn [fst snd]. split_and!; [|intros Hal Hsh|intros _].
    - split_and!; state_simpl; auto.
    - state_simpl. exact Hsh.
    - split; [exact Hpau|rewrite Hcur; eauto]. }
  destruct (shutdown_flag self).
  { cbn [fst snd]. split_and!; [|intros Hal Hsh|discriminate].
    - split_and!; state_simpl; auto.
    - state_simpl. exact Hsh. }
  destruct (get_next_job_dequeues (printer_id self) (send_status_update self s))
    as (Hh & Hps & Hq).
  destruct (get_next_job (printer_id self) (send_status_update self s))
    as [[j|] s2]; cbn [fst snd] in *.
  - destruct Hq as (l1 & l2 & Hq & Hq2). rewrite send_status_update_job_queue in Hq.
    rewrite send_status_update_heap in Hh. rewrite send_status_update_printers in Hps.
    split_and!; [|intros Hal Hsh|intros _].
    + split_and!; state_simpl.
      * exact Hps.
      * rewrite Hq, Hq2. unfold held. cbn [current_job preempt_with_job set_current_job].
        rewrite Hcur. cbn [option_list]. solve_submseteq.
      * intros x Hx. rewrite Hh. apply alter_is_Some. exact Hx.
      * intros x Hx. rewrite Hh. apply deref_alter_ne. intros ->.
        apply Hx. rewrite Hq. apply elem_of_app. left.
        apply elem_of_app. right. left.
    + intros r Hc. cbn [current_job set_current_job] in Hc. injection Hc as <-.
      state_simpl. cbn [is_paused set_current_job]. rewrite Hpau, Hh.
      apply deref_alter_status. apply Hal. rewrite Hq. apply elem_of_app. left.
      apply elem_of_app. right. left.
    + split; [exact Hpau|cbn; eauto].
  - rewrite send_status_update_job_queue in Hq.
    rewrite send_status_update_heap in Hh. rewrite send_status_update_printers in Hps.
    split_and!; [|intros Hal Hsh|discriminate].
    + split_and!.
      * exact Hps.
      * rewrite Hq. unfold held. cbn [current_job preempt_with_job set_current_job].
        rewrite Hcur. reflexivity.
      * intros x Hx. rewrite Hh. exact Hx.
      * intros x Hx. rewrite Hh. reflexivity.
    + intros r Hc. discriminate.
Qed.

(** The cycle after the delay: the current job is dropped, swapped with the
    payload and put back in the queue, or kept. *)
Lemma run_cycle_after_delay_local (self : Printer) (s : State)
    (self' : Printer) (s' : State) :
  run_cycle_after_delay self s = Some (self', s') ->
  local_step s self s' self' /\
  ((forall r, r ∈ job_queue s ++ held self -> is_Some (heap s !! r)) ->
   shows_flag (heap s) self ->
   shows_flag (heap s') self').
Proof.
  unfold run_cycle_after_delay.
  destruct (is_paused self) eqn:Hpau.
  { intros [= <- <-]. split; [apply local_step_refl|auto]. }
  destruct (shutdown_flag self); cbn [orb].
  { intros [= <- <-]. split; [apply local_step_refl|auto]. }
  destruct (current_job self) as [r|] eqn:Hcur; [|discriminate].
  assert (Hr : forall x, x ∉ job_queue s ++ held self -> r <> x).
  { intros x Hx ->. apply Hx, elem_of_app. right. apply held_current, Hcur. }
  destruct (cancel_current_job self).
  { intros [= <- <-]. split; [|intros _ _ x Hc; discriminate].
    split_and!; state_simpl.
    - reflexivity.
    - unfold held. cbn [current_job preempt_with_job set_current_job set_cancel_current_job].
      rewrite Hcur. cbn [option_list]. solve_submseteq.
    - intros x Hx. do 2 apply alter_is_Some. exact Hx.
    - intros x Hx. rewrite !deref_alter_ne by (apply Hr, Hx). reflexivity. }
  destruct (preempt_with_job self) as [n|] eqn:Hpay.
  { intros [= <- <-]. split; [|intros Hal _ x Hc].
    - split_and!; state_simpl.
      + rewrite (proj2 (add_job_to_queue_requeue r _)). state_simpl. reflexivity.
      + rewrite (proj1 (add_job_to_queue_requeue r _)). state_simpl. unfold held.
        cbn [current_job preempt_with_job set_current_job set_preempt_with_job].
        rewrite Hcur, Hpay. cbn [option_list]. solve_submseteq.
      + intros x Hx. do 3 apply alter_is_Some. exact Hx.
      + intros x Hx. rewrite deref_alter_ne.
        * rewrite !deref_alter_ne by (apply Hr, Hx). reflexivity.
        * intros ->. apply Hx, elem_of_app. right. apply held_payload, Hpay.
    - cbn [current_job set_current_job set_preempt_with_job] in Hc. injection Hc as <-.
      state_simpl. cbn [is_paused set_current_job set_preempt_with_job]. rewrite Hpau.
      apply deref_alter_status. do 2 apply alter_is_Some.
      apply Hal, elem_of_app. right. apply held_payload, Hpay. }
  destruct (_ <=? _); intros [= <- <-].
  - split; [|intros _ _ x Hc; discriminate].
    split_and!; state_simpl.
    + reflexivity.
    + unfold held. cbn [current_job preempt_with_job set_current_job].
      rewrite Hcur. cbn [option_list]. solve_submseteq.
    + intros x Hx. do 2 apply alter_is_Some. exact Hx.
    + intros x Hx. rewrite !deref_alter_ne by (apply Hr, Hx). reflexivity.
  - split; [|intros _ Hsh x Hc].
    + split_and!; state_simpl.
      * reflexivity.
      * reflexivity.
      * intros x Hx. apply alter_is_Some. exact Hx.
      * intros x Hx. rewrite !deref_alter_ne by (apply Hr, Hx). reflexivity.
    + state_simpl. rewrite (deref_alter_field status print_page) by reflexivity.
      apply Hsh. exact Hc.
Qed.


Lemma run_cycle_local (self : Printer) (s : State) (self' : Printer) (s' : State) :
  run_cycle self s = Some (self', s') ->
  (forall r, r ∈ job_queue s ++ held self -> is_Some (heap s !! r)) ->
  shows_flag (heap s) self ->
  local_step s self s' self' /\ shows_flag (heap s') self'.
Proof.
  unfold run_cycle. intros Hrun Hal Hsh.
  destruct (run_cycle_before_delay_local self s) as (Hl1 & Hs1 & _).
  destruct (run_cycle_before_delay self s) as [[self1 s1] go]. cbn [fst snd] in *.
  specialize (Hs1 Hal Hsh).
  destruct go; [|injection Hrun as <- <-; split; assumption].
  destruct (run_cycle_after_delay_local _ _ _ _ Hrun) as [Hl2 Hs2]. split.
  - exact (local_step_trans _ _ _ _ _ _ Hl1 Hl2).
  - apply Hs2; [|exact Hs1]. destruct Hl1 as (_ & Hsub & Hdom & _).
    intros r Hr. apply Hdom, Hal. exact (elem_of_submseteq _ _ _ Hr Hsub).
Qed.

(** The entry of a well-formed state holds what [local_step] needs. *)
Lemma wf_printer (s : State) (i : nat) (p : Printer) :
  wf s -> printers s !! i = Some p ->
  (forall r, r ∈ job_queue s ++ held p -> is_Some (heap s !! r)) /\
  shows_flag (heap s) p.
Proof.
  intros [Hnd Hal Hsh] Hi. split.
  - intros r Hr. apply Hal. unfold owned.
    rewrite (bind_held_lookup _ _ _ Hi), app_assoc. apply elem_of_app. left. exact Hr.
  - apply Hsh. exact (list_elem_of_lookup_2 _ _ _ Hi).
Qed.

Lemma on_printer_run_cycle_wf (i : nat) (s s' : State) :
  wf s -> on_printer i run_cycle s = Some s' -> wf s'.
Proof.
  intros Hwf. unfold on_printer.
  destruct (printers s !! i) as [self|] eqn:Hi; [|discriminate].
  destruct (run_cycle self s) as [[self' s1]|] eqn:Hrun; [|discriminate].
  intros [= <-]. destruct (wf_printer _ _ _ Hwf Hi) as [Hal Hsh].
  destruct (run_cycle_local _ _ _ _ Hrun Hal Hsh) as [Hl Hs].
  exact (wf_local _ _ _ _ _ Hwf Hi Hl Hs).
Qed.

Lemma on_printer_toggle_pause_wf (i : nat) (s s' : State) :
  wf s ->
  on_printer i (fun self s => Some (toggle_pause self s)) s = Some s' -> wf s'.
Proof.
  intros Hwf. unfold on_printer.
  destruct (printers s !! i) as [self|] eqn:Hi; [|discriminate].
  destruct (toggle_pause_local self s) as [Hl Hs].
  destruct (toggle_pause self s) as [self' s1]. intros [= <-]. cbn [fst snd] in *.
  destruct (wf_printer _ _ _ Hwf Hi) as [Hal _].
  apply (wf_local _ _ _ _ _ Hwf Hi Hl). apply Hs.
  intros r Hr. apply Hal, elem_of_app. right. exact Hr.
Qed.

Lemma check_for_preemption_wf (new_job : loc) (s : State) :
  wf s -> wf (check_for_preemption new_job s).
Proof.
  intros Hwf. unfold check_for_preemption.
  destruct (scan_printers (heap s) (printers s) 0 None
              (pages_remaining (deref (heap s) new_job))) as [b m] eqn:Hscan.
  apply scan_printers_spec in Hscan. cbn [fst].
  destruct Hscan as
      [(-> & _)|(k & p & r & -> & Hk & _)]; [exact Hwf|].
  cbn [job_queue log send_update].
  destruct (deque_remove new_job (job_queue s)) as [q'|] eqn:Hrem;
    [|apply (wf_ext s); [reflexivity..|exact Hwf]].
  apply deque_remove_Some in Hrem as (l1 & l2 & Hq & -> & _).
  unfold preempt. cbn [printers set_job_queue Nat.add].
  rewrite (list_alter_insert _ _ _ _ Hk).
  destruct (wf_printer _ _ _ Hwf Hk) as [_ Hsh].
  apply (wf_local s
           (set_job_queue (l1 ++ l2)
              (log (MsgSrtfPreemption (job_id (deref (heap s) new_job))
                      (pages_remaining (deref (heap s) new_job))) s))
           k p (set_preempt_with_job (Some new_job) p) Hwf Hk); [|exact Hsh].
  split_and!; cbn [printers job_queue heap set_job_queue log send_update]; auto.
  rewrite Hq. unfold held. cbn [current_job preempt_with_job set_preempt_with_job].
  cbn [option_list]. solve_submseteq.
Qed.

Lemma add_job_to_queue_new_wf (job : loc) (s : State) :
  wf s -> job ∉ owned s -> is_Some (heap s !! job) ->
  wf (add_job_to_queue job false s).
Proof.
  intros [Hnd Hal Hsh] Hnew Hjob. rewrite add_job_to_queue_unfold. cbn zeta.
  set (s1 := log _ (set_job_queue (job_queue s ++ [job]) s)).
  assert (Hwf1 : wf s1).
  { assert (Hperm : owned s1 ≡ₚ job :: owned s).
    { unfold owned, s1. cbn [job_queue printers log send_update set_job_queue].
      solve_Permutation. }
    split.
    - rewrite Hperm. apply NoDup_cons. split; assumption.
    - intros r Hr. rewrite Hperm in Hr. apply elem_of_cons in Hr as [->|Hr];
        [exact Hjob|exact (Hal r Hr)].
    - exact Hsh. }
  set (s2 := if _ && _ then _ else _).
  assert (Hwf2 : wf s2).
  { subst s2. destruct (_ && _); [apply check_for_preemption_wf|]; exact Hwf1. }
  destruct (auto_select_algorithm_frame s2) as (Hh & Hq & Hp).
  apply (wf_ext s2); [exact Hh|exact Hq|exact Hp|exact Hwf2].
Qed.

Lemma PrintJob_init_wf (jid fname fpath : string) (npages : Z) (s : State) :
  wf s ->
  let job := fst (PrintJob_init jid fname fpath npages s) in
  let s1 := snd (PrintJob_init jid fname fpath npages s) in
  wf s1 /\ (job ∉ owned s1) /\ is_Some (heap s1 !! job).
Proof.
  intros [Hnd Hal Hsh]. unfold PrintJob_init. cbn [fst snd].
  set (r := fresh (dom (heap s))).
  assert (Hfresh : heap s !! r = None).
  { apply not_elem_of_dom. apply is_fresh. }
  assert (Hnot : r ∉ owned s).
  { intros Hin. destruct (Hal r Hin) as [j Hj]. congruence. }
  split_and!.
  - split.
    + exact Hnd.
    + intros x Hx. cbn [heap set_heap]. apply lookup_insert_is_Some'.
      right. apply Hal. exact Hx.
    + intros p Hp x Hc. cbn [heap set_heap]. unfold deref.
      rewrite lookup_insert_ne.
      * exact (Hsh p Hp x Hc).
      * intros <-. apply Hnot. unfold owned. apply elem_of_app. right.
        exact (current_job_held _ _ _ Hp Hc).
  - exact Hnot.
  - cbn [heap set_heap]. rewrite lookup_insert_eq. eauto.
Qed.

Lemma cancel_job_wf (jid : string) (s s' : State) :
  wf s -> cancel_job jid s = Some s' -> wf s'.
Proof.
  intros Hwf. unfold cancel_job. destruct (find _ _) as [r|].
  - destruct (deque_remove r (job_queue s)) as [q'|] eqn:Hrem; [|discriminate].
    intros [= <-]. apply deque_remove_Some in Hrem as (l1 & l2 & Hq & -> & _).
    apply (wf_shrink s); [reflexivity| |auto|exact Hwf].
    unfold owned. cbn [job_queue printers send_full_update send_update log set_job_queue].
    rewrite Hq. solve_submseteq.
  - destruct (find_holder _ _ _ _) as [[[i p] r]|] eqn:Hfind.
    + intros [= <-].
      destruct (find_holder_Some _ _ _ _ _ _ _ Hfind) as (k & -> & Hk & _).
      unfold set_cancel_flag. cbn [printers log send_update Nat.add].
      rewrite (list_alter_insert _ _ _ _ Hk).
      destruct (wf_printer _ _ _ Hwf Hk) as [_ Hsh].
      apply (wf_local s
               (log (MsgSignaling (printer_name p) (file_name (deref (heap s) r))) s)
               k p (set_cancel_current_job true p) Hwf Hk); [|exact Hsh].
      split_and!; cbn [printers job_queue heap log send_update]; auto.
    + intros [= <-]. apply (wf_ext s); [reflexivity..|exact Hwf].
Qed.

Lemma dict_set_held (p : Printer) (ps : list Printer) :
  held p = [] ->
  dict_set p ps ≫= held ⊆+ ps ≫= held /\
  (forall x, x ∈ dict_set p ps -> x ∈ ps \/ x = p).
Proof.
  intros Hp. induction ps as [|y ps [IH1 IH2]]; simpl.
  - rewrite Hp. split; [reflexivity|].
    intros x [->|Hx]%elem_of_cons; [right; reflexivity|inversion Hx].
  - destruct (decide (printer_id y = printer_id p)).
    + split.
      * rewrite !bind_cons, Hp. apply submseteq_inserts_l. reflexivity.
      * intros x [->|Hx]%elem_of_cons; [right; reflexivity|left; right; exact Hx].
    + split.
      * rewrite !bind_cons. apply submseteq_skips_l. exact IH1.
      * intros x [->|Hx]%elem_of_cons; [left; left|].
        destruct (IH2 _ Hx) as [Hin| ->]; [left; right; exact Hin|right; reflexivity].
Qed.

Lemma add_printer_wf (id : Z) (name : string) (s : State) :
  wf s -> wf (add_printer (Printer_init id name) s).
Proof.
  intros Hwf. destruct (dict_set_held (Printer_init id name) (printers s) eq_refl)
    as [Hsub Hmem].
  apply (wf_shrink s); [reflexivity| | |exact Hwf].
  - unfold owned. cbn [job_queue printers add_printer log send_update set_printers].
    apply submseteq_skips_l. exact Hsub.
  - cbn [printers add_printer log send_update set_printers].
    intros p [Hp| ->]%Hmem; [left; exact Hp|right; reflexivity].
Qed.

Lemma dict_pop_held (id : Z) (ps ps' : list Printer) (p : Printer) :
  dict_pop id ps = Some (p, ps') ->
  ps ≫= held ≡ₚ held p ++ (ps' ≫= held) /\
  (forall x, x ∈ ps' -> x ∈ ps).
Proof.
  revert ps'. induction ps as [|y ps IH]; intros ps'; cbn [dict_pop]; [discriminate|].
  destruct (decide (printer_id y = id)).
  - intros [= <- <-]. rewrite bind_cons. split; [reflexivity|].
    intros x Hx. right. exact Hx.
  - destruct (dict_pop id ps) as [[x0 ps0]|]; [|discriminate].
    intros [= <- <-]. destruct (IH _ eq_refl) as [Hperm Hmem]. split.
    + rewrite !bind_cons, Hperm. solve_Permutation.
    + intros x [->|Hx]%elem_of_cons; [left|right; auto].
Qed.

Lemma remove_printer_wf (id : Z) (s : State) :
  wf s ->
  wf match remove_printer id s with
     | (Some printer, s1) => snd (run_exit printer s1)
     | (None, s1) => s1
     end.
Proof.
  intros Hwf. unfold remove_printer.
  destruct (dict_pop id (printers s)) as [[p ps']|] eqn:Hpop; [|exact Hwf].
  destruct (dict_pop_held _ _ _ _ Hpop) as [Hperm Hmem].
  destruct Hwf as [Hnd Hal Hsh].
  assert (Howned : owned s ≡ₚ job_queue s ++ held p ++ (ps' ≫= held)).
  { unfold owned. rewrite Hperm. reflexivity. }
  unfold stop, run_exit. cbn [fst snd current_job set_shutdown_flag].
  destruct (current_job p) as [r|] eqn:Hcur.
  - split.
    + unfold owned. state_simpl.
      rewrite (proj1 (add_job_to_queue_requeue r _)),
              (proj2 (add_job_to_queue_requeue r _)). state_simpl.
      apply (submseteq_NoDup _ (owned s)); [|exact Hnd].
      rewrite Howned. unfold held. rewrite Hcur. cbn [option_list]. solve_submseteq.
    + unfold owned. state_simpl.
      rewrite (proj1 (add_job_to_queue_requeue r _)),
              (proj2 (add_job_to_queue_requeue r _)). state_simpl.
      intros x Hx. apply alter_is_Some, Hal. rewrite Howned.
      unfold held. rewrite Hcur. cbn [option_list].
      apply elem_of_cons in Hx as [->|Hx].
      * apply elem_of_app. right. left.
      * apply elem_of_app in Hx as [Hx|Hx]; apply elem_of_app; [left; exact Hx|].
        right. right. apply elem_of_app. right. exact Hx.
    + state_simpl. rewrite (proj2 (add_job_to_queue_requeue r _)). state_simpl.
      intros x Hx y Hc. rewrite deref_alter_ne.
      * apply Hsh; [exact (Hmem _ Hx)|exact Hc].
      * intros <-. rewrite Howned in Hnd.
        apply NoDup_app in Hnd as (_ & _ & Hnd).
        apply NoDup_app in Hnd as (_ & Hdisj & _).
        apply (Hdisj r); [apply held_current, Hcur|].
        exact (current_job_held _ _ _ Hx Hc).
  - split.
    + unfold owned. state_simpl.
      apply (submseteq_NoDup _ (owned s)); [|exact Hnd].
      rewrite Howned. solve_submseteq.
    + unfold owned. state_simpl. intros x Hx. apply Hal. rewrite Howned.
      apply elem_of_app in Hx as [Hx|Hx]; apply elem_of_app; [left; exact Hx|].
      right. apply elem_of_app. right. exact Hx.
    + state_simpl. intros x Hx. apply Hsh. exact (Hmem _ Hx).
Qed.

(** Every operation keeps the state well formed. *)
Lemma step_wf (o : Op) (s s' : State) : wf s -> step o s = Some s' -> wf s'.
Proof.
  intros Hwf. destruct o as [id name|jid fname fpath npages|jid|i|i|id]; cbn [step].
  - intros [= <-]. apply add_printer_wf, Hwf.
  - destruct (PrintJob_init_wf jid fname fpath npages s Hwf) as (Hwf1 & Hnew & Hjob).
    destruct (PrintJob_init jid fname fpath npages s) as [job s1].
    cbn [fst snd] in *. intros [= <-]. apply add_job_to_queue_new_wf; assumption.
  - apply cancel_job_wf, Hwf.
  - apply on_printer_toggle_pause_wf, Hwf.
  - apply on_printer_run_cycle_wf, Hwf.
  - pose proof (remove_printer_wf id s Hwf) as Hr.
    destruct (remove_printer id s) as [[p|] s1]; intros [= <-]; exact Hr.
Qed.

Lemma JobManager_init_wf : wf JobManager_init.
Proof.
  split.
  - apply NoDup_nil_2.
  - intros r Hr. inversion Hr.
  - intros p Hp. inversion Hp.
Qed.

(** In every state reached from the start, the pending queue lists each job
    once, no pending job is on a printer, and the job on a printer shows
    Paused or Printing as the pause flag has it. *)
Lemma run_ops_wf (os : list Op) (s s' : State) :
  wf s -> run_ops os s = Some s' -> wf s'.
Proof.
  revert s. induction os as [|o os IH]; intros s Hwf; simpl.
  - intros [= <-]. exact Hwf.
  - destruct (step o s) as [s1|] eqn:Hstep; [|discriminate].
    apply IH. exact (step_wf _ _ _ Hwf Hstep).
Qed.

(** In particular the pending queue never lists a job twice. *)
Lemma reachable_queue_NoDup (os : list Op) (s : State) :
  run_ops os JobManager_init = Some s -> NoDup (job_queue s).
Proof.
  intros Hrun. destruct (run_ops_wf _ _ _ JobManager_init_wf Hrun) as [Hnd _ _].
  unfold owned in Hnd. apply NoDup_app in Hnd. apply Hnd.
Qed.


(** * The claims at concrete states *)


Lemma check_for_preemption_spec_witness :
  exists i p r q',
    printers five_pending !! i = Some p /\ actively_printing p r /\
    printers (check_for_preemption 5%nat five_pending)
      = <[i := set_preempt_with_job (Some 5%nat) p]> (printers five_pending) /\
    job_queue (check_for_preemption 5%nat five_pending) = q' /\
    5%nat ∉ q'.
Proof.
  assert (Hin : 5%nat ∈ job_queue five_pending).
  { apply (bool_decide_unpack _). vm_compute. exact I. }
  assert (Hnd : NoDup (job_queue five_pending)).
  { apply (bool_decide_unpack _). vm_compute. exact I. }
  assert (Hlonger : exists p r,
             p ∈ printers five_pending /\ actively_printing p r /\
             pages_remaining (deref (heap five_pending) 5%nat)
             < pages_remaining (deref (heap five_pending) r)).
  { exists printer_printing, 0%nat. split_and!.
    - left.
    - split; reflexivity.
    - vm_compute. reflexivity. }
  destruct (proj1 (check_for_preemption_spec 5%nat five_pending Hin) Hlonger)
    as (i & p & r & q' & Hi & Hact & _ & _ & _ & Hps & _ & Hq & Hgone & _).
  exists i, p, r, q'. split_and!; try assumption.
  rewrite <- Hq. apply Hgone. exact Hnd.
Defined.




Lemma interrupted_unit_counts_no_page_witness :
  run_cycle_after_delay (set_is_paused true printer_printing) five_pending
    = Some (set_is_paused true printer_printing, five_pending) /\
  exists self' s',
    run_cycle_after_delay printer_printing five_pending = Some (self', s') /\
    progress (deref (heap s') 0%nat) = 2 /\
    pages_remaining (deref (heap s') 0%nat) = 38.
Proof.
  split.
  - apply (interrupted_unit_counts_no_page (set_is_paused true printer_printing)
             five_pending). reflexivity.
  - destruct (interrupted_unit_counts_no_page printer_printing five_pending)
      as (_ & Hunit & _).
    destruct (Hunit 0%nat (mkPrintJob "a" "A.pdf" "/A.pdf" 40 Printing 1 39)
                eq_refl eq_refl eq_refl eq_refl)
      as (self' & s' & Hrun & Hp & Hr & _).
    exists self', s'. split_and!; assumption.
Defined.


Lemma toggle_pause_twice_witness :
  heap (snd (toggle_pause (fst (toggle_pause printer_printing five_pending))
                          (snd (toggle_pause printer_printing five_pending))))
  = heap five_pending.
Proof.
  destruct (toggle_pause_twice printer_printing five_pending)
    as (_ & _ & _ & _ & _ & _ & Hback).
  apply (Hback 0%nat); reflexivity.
Defined.

(** * Further properties *)

(** ** Reachable states *)

Lemma held_disjoint (ps : list Printer) (i k : nat) (p q : Printer) (r : loc) :
  NoDup (ps ≫= held) -> ps !! i = Some p -> ps !! k = Some q ->
  r ∈ held p -> r ∈ held q -> i = k.
Proof.
  intros Hnd Hi Hk Hp Hq. destruct (decide (i = k)) as [|Hne]; [assumption|exfalso].
  rewrite (bind_held_lookup _ _ _ Hi) in Hnd.
  apply NoDup_app in Hnd as (_ & Hdisj & _). apply (Hdisj r Hp).
  apply list_elem_of_bind. exists q. split; [exact Hq|].
  apply list_elem_of_lookup. destruct (decide (k < i)%nat).
  - exists k. rewrite list_lookup_delete_lt by lia. exact Hk.
  - exists (pred k). rewrite list_lookup_delete_ge by lia.
    replace (S (pred k)) with k by lia. exact Hk.
Qed.

(** X1.  In every state reached from the start by whole operations, a job is
    held once: the pending queue lists no job twice, a job that a printer
    holds (as its current job or as its payload) is not pending, and no two
    printers hold the same job. *)
Theorem reachable_exclusive_ownership (os : list Op) (s : State) :
  run_ops os JobManager_init = Some s ->
  NoDup (job_queue s) /\
  (forall p r, p ∈ printers s -> r ∈ held p -> r ∉ job_queue s) /\
  (forall i k p q r, printers s !! i = Some p -> printers s !! k = Some q ->
                     r ∈ held p -> r ∈ held q -> i = k).
Proof.
  intros Hrun. destruct (run_ops_wf _ _ _ JobManager_init_wf Hrun) as [Hnd _ _].
  unfold owned in Hnd. apply NoDup_app in Hnd as (Hq & Hdisj & Hps). split_and!.
  - exact Hq.
  - intros p r Hp Hr Hin. apply (Hdisj r Hin).
    apply list_elem_of_bind. exists p. split; assumption.
  - intros i k p q r. apply held_disjoint. exact Hps.
Qed.

Lemma reachable_exclusive_ownership_witness :
  exists s, run_ops (take 9 requeue_after_last_page) JobManager_init = Some s /\
            NoDup (job_queue s).
Proof.
  destruct (run_ops (take 9 requeue_after_last_page) JobManager_init) as [s|] eqn:Hrun;
    [|vm_compute in Hrun; discriminate].
  exists s. split; [reflexivity|].
  exact (proj1 (reachable_exclusive_ownership _ s Hrun)).
Defined.

(** X2.  In every state reached from the start by whole operations, the job
    on a printer shows "Paused" when the printer's pause flag is set and
    "Printing" when it is clear. *)
Theorem reachable_status_shows_pause (os : list Op) (s : State) :
  run_ops os JobManager_init = Some s ->
  forall p r, p ∈ printers s -> current_job p = Some r ->
    status (deref (heap s) r) = if is_paused p then Paused else Printing.
Proof.
  intros Hrun p r Hp Hc.
  destruct (run_ops_wf _ _ _ JobManager_init_wf Hrun) as [_ _ Hsh].
  exact (Hsh p Hp r Hc).
Qed.

Lemma reachable_status_shows_pause_witness :
  exists s, run_ops (take 9 requeue_after_last_page) JobManager_init = Some s /\
            status (deref (heap s) 0%nat) = Printing.
Proof.
  destruct (run_ops (take 9 requeue_after_last_page) JobManager_init) as [s|] eqn:Hrun;
    [|vm_compute in Hrun; discriminate].
  exists s. split; [reflexivity|].
  apply (reachable_status_shows_pause _ s Hrun
           (mkPrinter 1 "W" (Some 0%nat) true false false (Some 5%nat) true) 0%nat);
    [|reflexivity].
  vm_compute in Hrun. injection Hrun as <-. left.
Defined.

(** ** What a job keeps *)

Section JobInvariant.
Variable P : PrintJob -> Prop.
Hypothesis P_new :
  forall jid fname fpath npages, P (mkPrintJob jid fname fpath npages Queued 0 npages).
Hypothesis P_status : forall st j, P j -> P (set_status st j).
Hypothesis P_page : forall j, P j -> P (print_page j).

Lemma holds_alter (f : PrintJob -> PrintJob) (r : loc) (h : gmap loc PrintJob) :
  (forall j, P j -> P (f j)) ->
  map_Forall (fun _ j => P j) h -> map_Forall (fun _ j => P j) (alter f r h).
Proof.
  intros Hf Hh r' j Hj. destruct (decide (r = r')) as [<-|Hne].
  - rewrite lookup_alter_eq in Hj. destruct (h !! r) as [j0|] eqn:Hr; [|discriminate].
    injection Hj as <-. apply Hf. exact (Hh _ _ Hr).
  - rewrite lookup_alter_ne in Hj by exact Hne. exact (Hh _ _ Hj).
Qed.

Lemma holds_run_cycle (self self' : Printer) (s s' : State) :
  map_Forall (fun _ j => P j) (heap s) ->
  run_cycle self s = Some (self', s') ->
  map_Forall (fun _ j => P j) (heap s').
Proof.
  intros Hh. unfold run_cycle.
  assert (H1 : map_Forall (fun _ j => P j)
                 (heap (snd (fst (run_cycle_before_delay self s))))).
  { unfold run_cycle_before_delay. destruct (is_paused self).
    - destruct (current_job self); state_simpl;
        [apply holds_alter; [apply P_status|]|]; exact Hh.
    - destruct (current_job self) as [r|]; state_simpl; [exact Hh|].
      destruct (shutdown_flag self); state_simpl; [exact Hh|].
      pose proof (get_next_job_heap (printer_id self) (send_status_update self s)) as Hg.
      destruct (get_next_job _ _) as [[r|] s2]; cbn [fst snd] in *; state_simpl;
        rewrite Hg; state_simpl; [|exact Hh].
      apply holds_alter; [apply P_status|exact Hh]. }
  destruct (run_cycle_before_delay self s) as [[self1 s1] go]. cbn [fst snd] in H1.
  destruct go; [|intros [= <- <-]; exact H1].
  unfold run_cycle_after_delay. destruct (_ || _); [intros [= <- <-]; exact H1|].
  destruct (current_job self1) as [r|]; [|discriminate].
  assert (Hp : map_Forall (fun _ j => P j) (alter print_page r (heap s1))).
  { apply holds_alter; [apply P_page|exact H1]. }
  destruct (cancel_current_job self1).
  { intros [= <- <-]. state_simpl. apply holds_alter; [apply P_status|exact Hp]. }
  destruct (preempt_with_job self1) as [n|].
  { intros [= <- <-]. state_simpl.
    do 2 (apply holds_alter; [apply P_status|]). exact Hp. }
  destruct (_ <=? _); intros [= <- <-]; state_simpl; [|exact Hp].
  apply holds_alter; [apply P_status|exact Hp].
Qed.

Lemma holds_step (o : Op) (s s' : State) :
  map_Forall (fun _ j => P j) (heap s) -> step o s = Some s' ->
  map_Forall (fun _ j => P j) (heap s').
Proof.
  intros Hh. destruct o as [id name|jid fname fpath npages|jid|i|i|id]; cbn [step].
  - intros [= <-]. exact Hh.
  - destruct (PrintJob_init jid fname fpath npages s) as [job s1] eqn:Hinit.
    unfold PrintJob_init in Hinit. injection Hinit as <- <-.
    intros [= <-]. state_simpl.
    apply map_Forall_insert_2; [apply P_new|exact Hh].
  - intros Hc. rewrite (cancel_job_heap _ _ _ Hc). exact Hh.
  - unfold on_printer. destruct (printers s !! i) as [self|]; [|discriminate].
    pose proof (toggle_pause_heap self s) as Ht.
    destruct (toggle_pause self s) as [self' s1]. cbn [snd] in Ht.
    intros [= <-]. cbn [heap set_printers]. rewrite Ht.
    destruct (current_job self); [apply holds_alter; [apply P_status|]|]; exact Hh.
  - unfold on_printer. destruct (printers s !! i) as [self|]; [|discriminate].
    destruct (run_cycle self s) as [[self' s1]|] eqn:Hrun; [|discriminate].
    intros [= <-]. cbn [heap set_printers]. exact (holds_run_cycle _ _ _ _ Hh Hrun).
  - unfold remove_printer. destruct (dict_pop id (printers s)) as [[p ps']|].
    + intros [= <-]. unfold run_exit, stop. state_simpl.
      destruct (current_job _); state_simpl; [|exact Hh].
      apply holds_alter; [apply P_status|exact Hh].
    + intros [= <-]. exact Hh.
Qed.

Lemma holds_run_ops (os : list Op) (s s' : State) :
  map_Forall (fun _ j => P j) (heap s) -> run_ops os s = Some s' ->
  map_Forall (fun _ j => P j) (heap s').
Proof.
  revert s. induction os as [|o os IH]; intros s Hh; simpl.
  - intros [= <-]. exact Hh.
  - destruct (step o s) as [s1|] eqn:Hstep; [|discriminate].
    apply IH. exact (holds_step _ _ _ Hh Hstep).
Qed.
End JobInvariant.

(** X3.  In every state reached from the start, every job has
    [progress + pages_remaining == pages] and a [progress] that is not
    negative, so that [pages_remaining] never exceeds [pages]. *)
Theorem reachable_job_counters (os : list Op) (s : State) (r : loc) (j : PrintJob) :
  run_ops os JobManager_init = Some s -> heap s !! r = Some j ->
  progress j + pages_remaining j = pages j /\
  0 <= progress j /\ pages_remaining j <= pages j.
Proof.
  intros Hrun Hj.
  assert (Hall : map_Forall
            (fun _ j => progress j + pages_remaining j = pages j /\ 0 <= progress j)
            (heap s)).
  { apply (holds_run_ops _) with (os := os) (s := JobManager_init).
    - intros. simpl. lia.
    - intros st j0 H0. exact H0.
    - intros j0 [H0 H1]. simpl. lia.
    - apply map_Forall_empty.
    - exact Hrun. }
  destruct (Hall r j Hj) as [Hb Hp]. split_and!; [exact Hb|exact Hp|lia].
Qed.

Lemma reachable_job_counters_witness :
  exists s j, run_ops requeue_after_last_page JobManager_init = Some s /\
              heap s !! 1%nat = Some j /\
              progress j + pages_remaining j = pages j /\ 0 <= progress j.
Proof.
  destruct (run_ops requeue_after_last_page JobManager_init) as [s|] eqn:Hrun;
    [|vm_compute in Hrun; discriminate].
  assert (Hb : heap s !! 1%nat =
               Some (mkPrintJob "b" "B.pdf" "/B.pdf" 1 Completed 2 (-1))).
  { vm_compute in Hrun. injection Hrun as <-. reflexivity. }
  exists s, (mkPrintJob "b" "B.pdf" "/B.pdf" 1 Completed 2 (-1)).
  destruct (reachable_job_counters _ s 1%nat _ Hrun Hb) as (Hsum & Hp & _).
  split_and!; [reflexivity|exact Hb|exact Hsum|exact Hp].
Defined.


Lemma status_writes_refl (h : gmap loc PrintJob) : status_writes h h.
Proof. intros r j Hj. exists j. split; [exact Hj|split; reflexivity]. Qed.

Lemma status_writes_trans (h1 h2 h3 : gmap loc PrintJob) :
  status_writes h1 h2 -> status_writes h2 h3 -> status_writes h1 h3.
Proof.
  intros H12 H23 r j Hj. destruct (H12 r j Hj) as (j2 & Hj2 & Hi2 & Hc2).
  destruct (H23 r j2 Hj2) as (j3 & Hj3 & Hi3 & Hc3).
  exists j3. split; [exact Hj3|split; congruence].
Qed.

Lemma status_writes_alter (st : Status) (r : loc) (h : gmap loc PrintJob) :
  status_writes h (alter (set_status st) r h).
Proof.
  intros r' j Hj. destruct (decide (r = r')) as [<-|Hne].
  - exists (set_status st j). rewrite lookup_alter_eq, Hj.
    split; [reflexivity|split; reflexivity].
  - exists j. rewrite lookup_alter_ne by exact Hne.
    split; [exact Hj|split; reflexivity].
Qed.

Lemma status_writes_alter_after (st : Status) (r : loc) (h h' : gmap loc PrintJob) :
  status_writes h h' -> status_writes h (alter (set_status st) r h').
Proof.
  intros Hw. apply (status_writes_trans _ h'); [exact Hw|apply status_writes_alter].
Qed.

Lemma run_cycle_before_delay_status_writes (self : Printer) (s : State) :
  status_writes (heap s) (heap (snd (fst (run_cycle_before_delay self s)))).
Proof.
  unfold run_cycle_before_delay. destruct (is_paused self).
  - destruct (current_job self); state_simpl;
      [apply status_writes_alter|apply status_writes_refl].
  - destruct (current_job self) as [r|]; state_simpl; [apply status_writes_refl|].
    destruct (shutdown_flag self); state_simpl; [apply status_writes_refl|].
    pose proof (get_next_job_heap (printer_id self) (send_status_update self s)) as Hg.
    destruct (get_next_job _ _) as [[r|] s2]; cbn [fst snd] in *; state_simpl;
      rewrite Hg; state_simpl; [apply status_writes_alter|apply status_writes_refl].
Qed.

(** After the delay either nothing is written, or the current job gets its
    page and then only statuses are written. *)
Lemma run_cycle_after_delay_status_writes (self self' : Printer) (s s' : State) :
  run_cycle_after_delay self s = Some (self', s') ->
  heap s' = heap s \/
  exists r, current_job self = Some r /\
            status_writes (alter print_page r (heap s)) (heap s').
Proof.
  unfold run_cycle_after_delay. destruct (_ || _); [intros [= <- <-]; left; reflexivity|].
  destruct (current_job self) as [r|]; [|discriminate].
  intros Hrun. right. exists r. split; [reflexivity|]. revert Hrun.
  destruct (cancel_current_job self).
  { intros [= <- <-]. state_simpl. apply status_writes_alter. }
  destruct (preempt_with_job self) as [n|].
  { intros [= <- <-]. state_simpl.
    apply status_writes_alter_after, status_writes_alter. }
  destruct (_ <=? _); intros [= <- <-]; state_simpl;
    [apply status_writes_alter|apply status_writes_refl].
Qed.

(** X4.  No operation removes a job object or writes its id, file name, file
    path or page count, and no operation moves its counters except by one
    printed page: [progress] stays or goes up by one, with [pages_remaining]
    going down by as much. *)
Theorem step_keeps_jobs (o : Op) (s s' : State) (r : loc) (j : PrintJob) :
  step o s = Some s' -> heap s !! r = Some j ->
  exists j',
    heap s' !! r = Some j' /\
    job_identity j' = job_identity j /\
    (counters j' = counters j \/
     counters j' = (progress j + 1, pages_remaining j - 1)).
Proof.
  intros Hstep Hj.
  assert (Hsame : status_writes (heap s) (heap s') ->
            exists j', heap s' !! r = Some j' /\ job_identity j' = job_identity j /\
              (counters j' = counters j \/
               counters j' = (progress j + 1, pages_remaining j - 1))).
  { intros Hw. destruct (Hw r j Hj) as (j' & Hj' & Hi & Hc).
    exists j'. split_and!; [exact Hj'|exact Hi|left; exact Hc]. }
  destruct o as [id name|jid fname fpath npages|jid|i|i|id]; cbn [step] in Hstep.
  - injection Hstep as <-. apply Hsame, status_writes_refl.
  - destruct (PrintJob_init jid fname fpath npages s) as [job s1] eqn:Hinit.
    unfold PrintJob_init in Hinit. injection Hinit as <- <-.
    injection Hstep as <-. apply Hsame. state_simpl.
    intros r0 j0 H0. exists j0. split; [|split; reflexivity].
    rewrite lookup_insert_ne; [exact H0|].
    intros <-. pose proof (is_fresh (dom (heap s))) as Hf.
    apply not_elem_of_dom in Hf. congruence.
  - apply Hsame. rewrite (cancel_job_heap _ _ _ Hstep). apply status_writes_refl.
  - unfold on_printer in Hstep. destruct (printers s !! i) as [self|]; [|discriminate].
    pose proof (toggle_pause_heap self s) as Ht.
    destruct (toggle_pause self s) as [self' s1]. cbn [snd] in Ht.
    injection Hstep as <-. apply Hsame. cbn [heap set_printers]. rewrite Ht.
    destruct (current_job self); [apply status_writes_alter|apply status_writes_refl].
  - unfold on_printer in Hstep. destruct (printers s !! i) as [self|]; [|discriminate].
    destruct (run_cycle self s) as [[self' s1]|] eqn:Hrun; [|discriminate].
    injection Hstep as <-. cbn [heap set_printers]. unfold run_cycle in Hrun.
    pose proof (run_cycle_before_delay_status_writes self s) as H1.
    destruct (run_cycle_before_delay self s) as [[self1 s2] go]. cbn [fst snd] in H1.
    destruct go; [|injection Hrun as <- <-; apply Hsame, H1].
    destruct (run_cycle_after_delay_status_writes _ _ _ _ Hrun) as [Heq|(r0 & _ & H2)].
    + apply Hsame. cbn [heap set_printers]. rewrite Heq. exact H1.
    + destruct (H1 r j Hj) as (j1 & Hj1 & Hi1 & Hc1).
      destruct (decide (r0 = r)) as [->|Hne].
      * destruct (H2 r (print_page j1)) as (j' & Hj' & Hi' & Hc').
        { rewrite lookup_alter_eq, Hj1. reflexivity. }
        exists j'. split_and!; [exact Hj'| |right].
        -- rewrite Hi'. exact Hi1.
        -- rewrite Hc'. unfold counters in *. cbn [progress pages_remaining print_page].
           injection Hc1 as -> ->. reflexivity.
      * destruct (H2 r j1) as (j' & Hj' & Hi' & Hc').
        { rewrite lookup_alter_ne by exact Hne. exact Hj1. }
        exists j'. split_and!; [exact Hj'|congruence|left; congruence].
  - unfold remove_printer in Hstep.
    destruct (dict_pop id (printers s)) as [[p ps']|].
    + injection Hstep as <-. apply Hsame. unfold run_exit, stop. state_simpl.
      destruct (current_job _); state_simpl;
        [apply status_writes_alter|apply status_writes_refl].
    + injection Hstep as <-. apply Hsame, status_writes_refl.
Qed.

Lemma step_keeps_jobs_witness :
  exists s' j',
    step (OpRunCycle 0%nat) five_pending = Some s' /\
    heap s' !! 0%nat = Some j' /\
    job_identity j' = ("a", "A.pdf", "/A.pdf", 40) /\
    (counters j' = (1, 39) \/ counters j' = (2, 38)).
Proof.
  destruct (step (OpRunCycle 0%nat) five_pending) as [s'|] eqn:Hstep;
    [|vm_compute in Hstep; discriminate].
  destruct (step_keeps_jobs _ _ _ 0%nat
              (mkPrintJob "a" "A.pdf" "/A.pdf" 40 Printing 1 39) Hstep eq_refl)
    as (j' & Hj' & Hi & Hc).
  exists s', j'. split_and!; [reflexivity|exact Hj'|exact Hi|exact Hc].
Defined.

(** ** Cancellation of a job on a printer *)

Lemma find_holder_first (h : gmap loc PrintJob) (jid : string) (ps : list Printer) :
  forall (i0 i : nat) (p : Printer) (r : loc),
  ps !! i = Some p -> current_job p = Some r -> job_id (deref h r) = jid ->
  (forall k q x, (k < i)%nat -> ps !! k = Some q -> current_job q = Some x ->
                 job_id (deref h x) <> jid) ->
  find_holder h jid ps i0 = Some ((i0 + i)%nat, p, r).
Proof.
  induction ps as [|p0 ps IH]; intros i0 i p r Hi Hc Hid Hbefore; [discriminate|].
  destruct i as [|i]; cbn [find_holder].
  - injection Hi as ->. rewrite Hc. apply String.eqb_eq in Hid. rewrite Hid.
    do 3 f_equal. lia.
  - assert (Hrec : find_holder h jid ps (S i0) = Some ((i0 + S i)%nat, p, r)).
    { replace (i0 + S i)%nat with (S i0 + i)%nat by lia.
      apply IH; try assumption.
      intros k q x Hk. apply (Hbefore (S k)). lia. }
    destruct (current_job p0) as [r0|] eqn:Hc0; [|exact Hrec].
    destruct (String.eqb _ _) eqn:Heq; [|exact Hrec].
    apply String.eqb_eq in Heq. exfalso.
    apply (Hbefore 0%nat p0 r0); [lia|reflexivity|exact Hc0|exact Heq].
Qed.

Lemma cancel_job_first_holder (jid : string) (s : State) (i : nat) (p : Printer)
    (r : loc) :
  (forall x, x ∈ job_queue s -> job_id (deref (heap s) x) <> jid) ->
  printers s !! i = Some p -> current_job p = Some r ->
  job_id (deref (heap s) r) = jid ->
  (forall k q x, (k < i)%nat -> printers s !! k = Some q -> current_job q = Some x ->
                 job_id (deref (heap s) x) <> jid) ->
  cancel_job jid s =
    Some (mkState (heap s)
            (update_queue s ++
               [ULog Manager (MsgSignaling (printer_name p)
                                (file_name (deref (heap s) r)))])
            (job_queue s)
            (<[i := set_cancel_current_job true p]> (printers s))
            (algorithm s)).
Proof.
  intros Hq Hi Hc Hid Hbefore.
  pose proof (find_holder_first (heap s) jid (printers s) 0 i p r Hi Hc Hid Hbefore)
    as Hfind.
  exact (proj2 (proj2 (proj2 (cancel_job_in_flight jid s _ p r Hq Hfind)))).
Qed.

(** X6.  [cancel_job] for an id that no pending job has and that the current
    job of a printer has: nothing is raised, one line is logged, the cancel
    flag of the first such printer is set, and the queue, the jobs, the policy
    and the other printers are untouched. *)
Theorem cancel_job_signals_first_holder (jid : string) (s : State) (i : nat)
    (p : Printer) (r : loc) :
  (forall x, x ∈ job_queue s -> job_id (deref (heap s) x) <> jid) ->
  printers s !! i = Some p -> current_job p = Some r ->
  job_id (deref (heap s) r) = jid ->
  (forall k q x, (k < i)%nat -> printers s !! k = Some q -> current_job q = Some x ->
                 job_id (deref (heap s) x) <> jid) ->
  exists s',
    cancel_job jid s = Some s' /\
    printers s' = <[i := set_cancel_current_job true p]> (printers s) /\
    job_queue s' = job_queue s /\ heap s' = heap s /\ algorithm s' = algorithm s /\
    update_queue s' =
      update_queue s ++
        [ULog Manager (MsgSignaling (printer_name p) (file_name (deref (heap s) r)))].
Proof.
  intros Hq Hi Hc Hid Hbefore. eexists. split.
  - exact (cancel_job_first_holder jid s i p r Hq Hi Hc Hid Hbefore).
  - split_and!; reflexivity.
Qed.

Lemma cancel_job_signals_first_holder_witness :
  exists s',
    cancel_job "a" five_pending = Some s' /\
    printers s' = [mkPrinter 1 "W" (Some 0%nat) true false false None true] /\
    job_queue s' = [1; 2; 3; 4; 5]%nat.
Proof.
  destruct (cancel_job_signals_first_holder "a" five_pending 0%nat printer_printing 0%nat)
    as (s' & Hc & Hp & Hq & _).
  - intros x Hx. apply (bool_decide_unpack _). revert x Hx.
    apply Forall_forall. vm_compute. repeat constructor.
  - reflexivity.
  - reflexivity.
  - reflexivity.
  - intros k q x Hk. lia.
  - exists s'. split_and!; [exact Hc|exact Hp|exact Hq].
Defined.

(** X7.  [cancel_job] for an id that neither a pending job nor the current
    job of a printer has: nothing is raised, "Could not find job ..." is
    logged, and nothing else changes. *)
Theorem cancel_job_unknown_id (jid : string) (s : State) :
  (forall x, x ∈ job_queue s -> job_id (deref (heap s) x) <> jid) ->
  (forall p r, p ∈ printers s -> current_job p = Some r ->
               job_id (deref (heap s) r) <> jid) ->
  exists s',
    cancel_job jid s = Some s' /\
    heap s' = heap s /\ job_queue s' = job_queue s /\
    printers s' = printers s /\ algorithm s' = algorithm s /\
    update_queue s' = update_queue s ++ [ULog Manager (MsgCouldNotFind jid)].
Proof.
  intros Hq Hp. eexists. split; [exact (cancel_job_not_found jid s Hq Hp)|].
  split_and!; reflexivity.
Qed.

Lemma cancel_job_unknown_id_witness :
  exists s',
    cancel_job "zz" five_pending = Some s' /\
    update_queue s' = [ULog Manager (MsgCouldNotFind "zz")].
Proof.
  destruct (cancel_job_unknown_id "zz" five_pending) as (s' & Hc & _ & _ & _ & _ & Hu).
  - intros x Hx. apply (bool_decide_unpack _). revert x Hx.
    apply Forall_forall. vm_compute. repeat constructor.
  - intros p r Hp. apply list_elem_of_singleton in Hp as ->.
    intros [= <-]. vm_compute. discriminate.
  - exists s'. split; [exact Hc|exact Hu].
Defined.

(** X8.  A cancellation signalled to a printer that is neither paused nor
    shutting down takes effect at the printer's next cycle, after one more
    page: the job is then marked Canceled with that page counted, the printer
    has no current job and its cancel flag is clear again, and the queue is as
    it was. *)
Theorem cancel_takes_effect_next_cycle (jid : string) (s : State) (i : nat)
    (p : Printer) (r : loc) (j : PrintJob) :
  (forall x, x ∈ job_queue s -> job_id (deref (heap s) x) <> jid) ->
  printers s !! i = Some p -> current_job p = Some r ->
  heap s !! r = Some j -> job_id j = jid ->
  (forall k q x, (k < i)%nat -> printers s !! k = Some q -> current_job q = Some x ->
                 job_id (deref (heap s) x) <> jid) ->
  is_paused p = false -> shutdown_flag p = false ->
  exists s1 s2,
    cancel_job jid s = Some s1 /\
    step (OpRunCycle i) s1 = Some s2 /\
    heap s2 !! r = Some (set_status Canceled (print_page j)) /\
    printers s2 =
      <[i := set_cancel_current_job false (set_current_job None p)]> (printers s) /\
    job_queue s2 = job_queue s.
Proof.
  intros Hq Hi Hc Hj Hid Hbefore Hpau Hshut.
  assert (Hd : deref (heap s) r = j) by (unfold deref; rewrite Hj; reflexivity).
  assert (Hid' : job_id (deref (heap s) r) = jid) by (rewrite Hd; exact Hid).
  pose proof (cancel_job_first_holder jid s i p r Hq Hi Hc Hid' Hbefore) as Hcancel.
  eexists. eexists. split; [exact Hcancel|].
  assert (Hlt : (i < length (printers s))%nat) by (apply lookup_lt_Some in Hi; exact Hi).
  cbn [step]. unfold on_printer. cbn [printers].
  rewrite list_lookup_insert_eq by exact Hlt.
  unfold run_cycle, run_cycle_before_delay.
  cbn [is_paused current_job set_cancel_current_job]. rewrite Hpau, Hc.
  unfold run_cycle_after_delay.
  cbn [is_paused shutdown_flag current_job cancel_current_job set_cancel_current_job].
  rewrite Hpau, Hshut, Hc. cbn [orb]. split; [reflexivity|].
  state_simpl. split_and!.
  - rewrite lookup_alter_eq, lookup_alter_eq, Hj. reflexivity.
  - rewrite list_insert_insert_eq. destruct p; reflexivity.
  - reflexivity.
Qed.

Lemma cancel_takes_effect_next_cycle_witness :
  exists s1 s2,
    cancel_job "a" five_pending = Some s1 /\
    step (OpRunCycle 0%nat) s1 = Some s2 /\
    heap s2 !! 0%nat = Some (mkPrintJob "a" "A.pdf" "/A.pdf" 40 Canceled 2 38) /\
    job_queue s2 = [1; 2; 3; 4; 5]%nat.
Proof.
  destruct (cancel_takes_effect_next_cycle "a" five_pending 0%nat printer_printing 0%nat
              (mkPrintJob "a" "A.pdf" "/A.pdf" 40 Printing 1 39))
    as (s1 & s2 & Hc & Hs & Hh & _ & Hq).
  - intros x Hx. apply (bool_decide_unpack _). revert x Hx.
    apply Forall_forall. vm_compute. repeat constructor.
  - reflexivity.
  - reflexivity.
  - reflexivity.
  - reflexivity.
  - intros k q x Hk. lia.
  - reflexivity.
  - reflexivity.
  - exists s1, s2. split_and!; [exact Hc|exact Hs|exact Hh|exact Hq].
Defined.

(** ** The policy *)



(** ** A payload that is replaced *)

(** X10.  A printer keeps one preemption payload.  When
    [check_for_preemption] hands the new job to a printer that still has a
    payload, the earlier payload is replaced: it is then neither pending nor
    held by any printer. *)
Theorem check_for_preemption_replaces_payload (new_job : loc) (s : State)
    (i : nat) (p p' : Printer) (n : loc) :
  NoDup (owned s) -> new_job ∈ job_queue s ->
  printers s !! i = Some p -> preempt_with_job p = Some n ->
  printers (check_for_preemption new_job s) !! i = Some p' ->
  preempt_with_job p' = Some new_job ->
  n ∉ owned (check_for_preemption new_job s).
Proof.
  intros Hnd Hin Hi Hn Hi' Hn'.
  assert (Hnew : new_job <> n).
  { intros ->. unfold owned in Hnd. apply NoDup_app in Hnd as (_ & Hdisj & _).
    apply (Hdisj n Hin). apply list_elem_of_bind. exists p.
    split; [apply held_payload, Hn|exact (list_elem_of_lookup_2 _ _ _ Hi)]. }
  revert Hi' Hn'. unfold check_for_preemption.
  destruct (scan_printers (heap s) (printers s) 0 None
              (pages_remaining (deref (heap s) new_job))) as [b m] eqn:Hscan.
  apply scan_printers_spec in Hscan. cbn [fst].
  destruct Hscan as [(-> & _)|(k & pk & r & -> & Hk & _)].
  { intros Hi' Hn'. exfalso. congruence. }
  cbn [job_queue log send_update Nat.add].
  destruct (deque_remove new_job (job_queue s)) as [q'|] eqn:Hrem.
  2:{ cbn [printers log send_update]. intros Hi' Hn'. exfalso. congruence. }
  apply deque_remove_Some in Hrem as (l1 & l2 & Hq & -> & _).
  unfold preempt. cbn [printers set_job_queue set_printers].
  rewrite (list_alter_insert _ _ _ _ Hk).
  destruct (decide (k = i)) as [->|Hne].
  2:{ rewrite list_lookup_insert_ne by exact Hne. intros Hi' Hn'. exfalso. congruence. }
  intros _ _. rewrite Hi in Hk. injection Hk as <-.
  unfold owned. cbn [job_queue printers].
  rewrite (bind_held_insert _ _ _ (set_preempt_with_job (Some new_job) p) Hi).
  unfold owned in Hnd. rewrite (bind_held_lookup _ _ _ Hi), Hq in Hnd.
  apply NoDup_app in Hnd as (_ & Hdisj1 & Hnd).
  apply NoDup_app in Hnd as (Hheld & Hdisj2 & _).
  assert (Hnp : n ∈ held p) by (apply held_payload, Hn).
  intros [Hx|[Hx|Hx]%elem_of_app]%elem_of_app.
  - apply (Hdisj1 n); [|apply elem_of_app; left; exact Hnp].
    apply elem_of_app in Hx as [Hx|Hx]; apply elem_of_app;
      [left; exact Hx|right; right; exact Hx].
  - unfold held in Hx, Hheld. cbn [current_job preempt_with_job set_preempt_with_job] in Hx.
    rewrite Hn in Hheld. cbn [option_list] in Hx, Hheld.
    apply elem_of_app in Hx as [Hx|Hx].
    + apply NoDup_app in Hheld as (_ & Hd & _). apply (Hd n Hx). left.
    + apply list_elem_of_singleton in Hx. congruence.
  - exact (Hdisj2 n Hnp Hx).
Qed.

Lemma check_for_preemption_replaces_payload_witness :
  preempt_with_job <$> printers (check_for_preemption 5%nat payload_waiting)
    = [Some 5%nat] /\
  4%nat ∉ owned (check_for_preemption 5%nat payload_waiting).
Proof.
  split; [reflexivity|].
  apply (check_for_preemption_replaces_payload 5%nat payload_waiting 0%nat
           (mkPrinter 1 "W" (Some 0%nat) true false false (Some 4%nat) false)
           (mkPrinter 1 "W" (Some 0%nat) true false false (Some 5%nat) false)).
  - apply (bool_decide_unpack _). vm_compute. exact I.
  - apply (bool_decide_unpack _). vm_compute. exact I.
  - reflexivity.
  - reflexivity.
  - reflexivity.
  - reflexivity.
Defined.

(** ** Connecting and disconnecting printers *)

Lemma dict_pop_found (id : Z) (ps1 ps2 : list Printer) (p : Printer) :
  printer_id p = id -> (forall q, q ∈ ps1 -> printer_id q <> id) ->
  dict_pop id (ps1 ++ p :: ps2) = Some (p, ps1 ++ ps2).
Proof.
  intros Hp. induction ps1 as [|q ps1 IH]; intros Hfresh; simpl.
  - rewrite decide_True by exact Hp. reflexivity.
  - rewrite decide_False by (apply Hfresh; left).
    rewrite IH; [reflexivity|]. intros x Hx. apply Hfresh. right. exact Hx.
Qed.

Lemma dict_pop_missing (id : Z) (ps : list Printer) :
  (forall q, q ∈ ps -> printer_id q <> id) -> dict_pop id ps = None.
Proof.
  induction ps as [|q ps IH]; intros Hfresh; simpl; [reflexivity|].
  rewrite decide_False by (apply Hfresh; left).
  rewrite IH; [reflexivity|]. intros x Hx. apply Hfresh. right. exact Hx.
Qed.

Lemma dict_set_fresh (p : Printer) (ps : list Printer) :
  (forall q, q ∈ ps -> printer_id q <> printer_id p) -> dict_set p ps = ps ++ [p].
Proof.
  induction ps as [|q ps IH]; intros Hfresh; simpl; [reflexivity|].
  rewrite decide_False by (apply Hfresh; left).
  rewrite IH; [reflexivity|]. intros x Hx. apply Hfresh. right. exact Hx.
Qed.

Lemma run_exit_effect (self : Printer) (s : State) :
  job_queue (snd (run_exit self s)) = option_list (current_job self) ++ job_queue s /\
  printers (snd (run_exit self s)) = printers s /\
  heap (snd (run_exit self s)) =
    match current_job self with
    | Some r => alter (set_status Queued) r (heap s)
    | None => heap s
    end.
Proof.
  unfold run_exit. cbn [snd]. destruct (current_job self) as [r|]; state_simpl.
  - rewrite (proj1 (add_job_to_queue_requeue r _)),
            (proj2 (add_job_to_queue_requeue r _)). state_simpl.
    split_and!; reflexivity.
  - split_and!; reflexivity.
Qed.

(** X11.  Disconnecting a printer takes the first printer with that id out of
    the manager's list; when its thread leaves the loop, its current job, if
    any, is marked Queued and put at the head of the pending queue with its
    counters as they are.  A payload the printer still had is given to
    nobody.  For an id that no printer has, nothing changes. *)
Theorem remove_printer_gives_job_back (id : Z) (s : State) :
  ((forall q, q ∈ printers s -> printer_id q <> id) ->
   step (OpRemovePrinter id) s = Some s)
  /\
  (forall ps1 ps2 p,
     printers s = ps1 ++ p :: ps2 -> printer_id p = id ->
     (forall q, q ∈ ps1 -> printer_id q <> id) ->
     exists s',
       step (OpRemovePrinter id) s = Some s' /\
       printers s' = ps1 ++ ps2 /\
       match current_job p with
       | Some r => job_queue s' = r :: job_queue s /\
                   heap s' = alter (set_status Queued) r (heap s)
       | None => job_queue s' = job_queue s /\ heap s' = heap s
       end /\
       (NoDup (owned s) -> forall n, preempt_with_job p = Some n -> n ∉ owned s')).
Proof.
  split.
  - intros Hfresh. cbn [step]. unfold remove_printer.
    rewrite (dict_pop_missing _ _ Hfresh). reflexivity.
  - intros ps1 ps2 p Hps Hid Hfresh. cbn [step]. unfold remove_printer.
    rewrite Hps, (dict_pop_found _ _ _ _ Hid Hfresh). unfold stop.
    eexists. split; [reflexivity|].
    destruct (run_exit_effect (set_shutdown_flag true p)
                (log (MsgShuttingDown (printer_name (set_shutdown_flag true p))
                        (printer_id (set_shutdown_flag true p)))
                     (printer_log p MsgShutdownSignal (set_printers (ps1 ++ ps2) s))))
      as (Hq & Hp & Hh).
    cbn [current_job set_shutdown_flag] in Hq, Hh. revert Hq Hp Hh. state_simpl.
    intros Hq Hp Hh. split_and!.
    + exact Hp.
    + destruct (current_job p) as [r|]; split; assumption.
    + intros Hnd n Hn. unfold owned. rewrite Hq, Hp.
      unfold owned in Hnd. rewrite Hps in Hnd.
      rewrite !bind_app, bind_cons in Hnd. rewrite bind_app.
      apply NoDup_app in Hnd as (_ & Hdisj1 & Hnd).
      apply NoDup_app in Hnd as (_ & Hdisj2 & Hnd).
      apply NoDup_app in Hnd as (Hheld & Hdisj3 & _).
      assert (Hnp : n ∈ held p) by (apply held_payload, Hn).
      intros [[Hx|Hx]%elem_of_app|[Hx|Hx]%elem_of_app]%elem_of_app.
      * unfold held in Hheld. rewrite Hn in Hheld. cbn [option_list] in Hheld.
        apply NoDup_app in Hheld as (_ & Hd & _). apply (Hd n Hx). left.
      * apply (Hdisj1 n Hx). apply elem_of_app. right. apply elem_of_app. left.
        exact Hnp.
      * apply (Hdisj2 n Hx). apply elem_of_app. left. exact Hnp.
      * exact (Hdisj3 n Hnp Hx).
Qed.

Lemma remove_printer_gives_job_back_witness :
  exists s',
    step (OpRemovePrinter 1) payload_waiting = Some s' /\
    printers s' = [] /\
    job_queue s' = [0; 1; 2; 3; 5]%nat /\
    (4%nat ∉ owned s').
Proof.
  destruct (proj2 (remove_printer_gives_job_back 1 payload_waiting) [] []
              (mkPrinter 1 "W" (Some 0%nat) true false false (Some 4%nat) false)
              eq_refl eq_refl)
    as (s' & Hstep & Hp & [Hq _] & Hlost).
  { intros q Hq. inversion Hq. }
  exists s'. split_and!; [exact Hstep|exact Hp|exact Hq|].
  apply (Hlost); [|reflexivity].
  apply (bool_decide_unpack _). vm_compute. exact I.
Defined.

(** ** Messages to the display *)

Lemma send_update_status_messages (u : Update) (s : State) :
  is_printer_status u = false ->
  status_messages (send_update u s) = status_messages s.
Proof.
  intros Hu. unfold status_messages, send_update. cbn [update_queue].
  rewrite List.filter_app. cbn [List.filter]. rewrite Hu. apply app_nil_r.
Qed.

Lemma log_status_messages (msg : LogMsg) (s : State) :
  status_messages (log msg s) = status_messages s.
Proof. apply send_update_status_messages. reflexivity. Qed.

Lemma printer_log_status_messages (self : Printer) (msg : LogMsg) (s : State) :
  status_messages (printer_log self msg s) = status_messages s.
Proof.
  unfold printer_log, printer_send_update.
  destruct (is_running self); [|reflexivity].
  apply send_update_status_messages. reflexivity.
Qed.

Lemma auto_select_algorithm_status_messages (s : State) :
  status_messages (auto_select_algorithm s) = status_messages s.
Proof.
  unfold auto_select_algorithm. case_decide; [reflexivity|].
  rewrite send_update_status_messages by reflexivity.
  rewrite log_status_messages. reflexivity.
Qed.

Lemma check_for_preemption_status_messages (new_job : loc) (s : State) :
  status_messages (check_for_preemption new_job s) = status_messages s.
Proof.
  unfold check_for_preemption.
  destruct (fst (scan_printers _ _ _ _ _)) as [i|]; [|reflexivity].
  destruct (deque_remove _ _) as [q'|].
  - unfold preempt, set_printers, set_job_queue, status_messages.
    cbn [update_queue]. apply (log_status_messages _ s).
  - rewrite !log_status_messages. reflexivity.
Qed.

Lemma add_job_to_queue_status_messages (job : loc) (preempted : bool) (s : State) :
  status_messages (add_job_to_queue job preempted s) = status_messages s.
Proof.
  unfold add_job_to_queue, send_full_update.
  rewrite send_update_status_messages by reflexivity.
  rewrite auto_select_algorithm_status_messages.
  destruct (_ && _); [rewrite check_for_preemption_status_messages|];
    destruct preempted; rewrite log_status_messages; reflexivity.
Qed.

(** X12.  A printer whose thread leaves its loop sends no [printer_status]
    message: the Offline status is built after [is_running] is set to false,
    and [send_update] drops it.  Disconnecting a printer therefore puts no
    status message on the update queue at all. *)
Theorem offline_status_never_sent :
  (forall self s, status_messages (snd (run_exit self s)) = status_messages s) /\
  (forall id s s', step (OpRemovePrinter id) s = Some s' ->
                   status_messages s' = status_messages s).
Proof.
  assert (Hexit : forall self s,
             status_messages (snd (run_exit self s)) = status_messages s).
  { intros self s. unfold run_exit. cbn [snd].
    unfold printer_send_update at 1. cbn [is_running set_is_running].
    rewrite printer_log_status_messages.
    destruct (current_job self) as [r|]; [|reflexivity].
    rewrite add_job_to_queue_status_messages.
    unfold write_status, set_heap, status_messages. cbn [update_queue].
    apply (printer_log_status_messages self _ s). }
  split; [exact Hexit|].
  intros id s s'. cbn [step]. unfold remove_printer.
  destruct (dict_pop id (printers s)) as [[p ps']|]; [|intros [= <-]; reflexivity].
  unfold stop. cbv beta iota. intros [= <-].
  etrans;
    [exact (Hexit (set_shutdown_flag true p)
              (log (MsgShuttingDown (printer_name p) (printer_id p))
                   (printer_log p MsgShutdownSignal (set_printers ps' s))))|].
  rewrite log_status_messages, printer_log_status_messages. reflexivity.
Qed.

Lemma offline_status_never_sent_witness :
  exists s',
    step (OpRemovePrinter 1) payload_waiting = Some s' /\
    status_messages s' = status_messages payload_waiting.
Proof.
  eexists. split; [vm_compute; reflexivity|].
  apply (proj2 offline_status_never_sent 1). vm_compute. reflexivity.
Defined.

(** X13.  Connecting a printer under an id that no connected printer has puts
    it last in the manager's list, and disconnecting it again, before it has
    taken a job, gives back the list, the pending queue, the jobs and the
    policy as they were; only messages have been added. *)
Theorem add_then_remove_printer (id : Z) (name : string) (s : State) :
  (forall q, q ∈ printers s -> printer_id q <> id) ->
  exists s1 s2,
    step (OpAddPrinter id name) s = Some s1 /\
    printers s1 = printers s ++ [Printer_init id name] /\
    step (OpRemovePrinter id) s1 = Some s2 /\
    printers s2 = printers s /\ job_queue s2 = job_queue s /\
    heap s2 = heap s /\ algorithm s2 = algorithm s /\
    status_messages s2 = status_messages s.
Proof.
  intros Hfresh.
  assert (Hset : dict_set (Printer_init id name) (printers s)
                 = printers s ++ [Printer_init id name])
    by (apply dict_set_fresh; exact Hfresh).
  exists (add_printer (Printer_init id name) s). eexists.
  split; [reflexivity|]. split; [unfold add_printer; state_simpl; exact Hset|].
  split.
  { cbn [step]. unfold remove_printer, add_printer. state_simpl. rewrite Hset.
    rewrite (dict_pop_found id (printers s) [] (Printer_init id name) eq_refl Hfresh).
    reflexivity. }
  unfold stop, run_exit. cbn [snd fst current_job set_shutdown_flag Printer_init].
  split_and!; state_simpl; try reflexivity.
  - apply app_nil_r.
  - unfold printer_send_update at 1. cbn [is_running set_is_running].
    rewrite printer_log_status_messages, log_status_messages,
      printer_log_status_messages.
    unfold set_printers, status_messages. cbn [update_queue].
    apply (log_status_messages _ s).
Qed.

Lemma add_then_remove_printer_witness :
  exists s1 s2,
    step (OpAddPrinter 2 "V") five_pending = Some s1 /\
    step (OpRemovePrinter 2) s1 = Some s2 /\
    printers s2 = printers five_pending /\ job_queue s2 = job_queue five_pending.
Proof.
  destruct (add_then_remove_printer 2 "V" five_pending)
    as (s1 & s2 & H1 & _ & H2 & Hp & Hq & _).
  { intros q Hq. apply list_elem_of_singleton in Hq as ->. discriminate. }
  exists s1, s2. split_and!; assumption.
Defined.

(** ** A printer left alone *)

Lemma after_pages_succ (k : Z) (j : PrintJob) :
  after_pages k (print_page j) = after_pages (k + 1) j.
Proof.
  unfold after_pages, print_page. cbn. f_equal; lia.
Qed.

Lemma run_cycle_prints_page (self : Printer) (s : State) (r : loc) (j : PrintJob) :
  undisturbed self -> current_job self = Some r -> heap s !! r = Some j ->
  exists s',
    run_cycle self s =
      Some (if pages j <=? progress j + 1 then set_current_job None self else self,
            s') /\
    heap s' = alter (fun x => if pages j <=? progress j + 1
                              then set_status Completed (print_page x)
                              else print_page x) r (heap s) /\
    job_queue s' = job_queue s /\ printers s' = printers s /\
    algorithm s' = algorithm s.
Proof.
  intros (Hp & Hs & Hc & Hn) Hcur Hj.
  unfold run_cycle, run_cycle_before_delay. rewrite Hp, Hcur.
  unfold run_cycle_after_delay. rewrite Hp, Hs, Hcur, Hc, Hn. cbn [orb].
  state_simpl.
  assert (Hd : deref (alter print_page r (heap s)) r = print_page j).
  { rewrite deref_alter_eq by (rewrite Hj; eauto). unfold deref. rewrite Hj.
    reflexivity. }
  rewrite Hd. cbn [pages progress print_page].
  destruct (pages j <=? progress j + 1); eexists; (split; [reflexivity|]);
    state_simpl; split_and!; try reflexivity;
    try (unfold send_status_update, printer_log, printer_send_update;
         cbn [is_running set_current_job]; destruct (is_running self); reflexivity).
  apply map_eq. intros x. destruct (decide (x = r)) as [->|Hne].
  - rewrite !lookup_alter_eq. destruct (heap s !! r); reflexivity.
  - rewrite !lookup_alter_ne by congruence. reflexivity.
Qed.

Lemma run_cycles_prints (m : nat) :
  forall (self : Printer) (s : State) (r : loc) (j : PrintJob),
    undisturbed self -> current_job self = Some r -> heap s !! r = Some j ->
    m = 0%nat \/ progress j + Z.of_nat m < pages j ->
    exists s',
      run_cycles m self s = Some (self, s') /\
      heap s' = <[r := after_pages (Z.of_nat m) j]> (heap s) /\
      job_queue s' = job_queue s /\ printers s' = printers s /\
      algorithm s' = algorithm s.
Proof.
  induction m as [|m IH]; intros self s r j Hu Hcur Hj Hlt.
  - exists s. split_and!; try reflexivity.
    symmetry. apply insert_id. rewrite Hj. f_equal.
    unfold after_pages. destruct j; cbn. f_equal; lia.
  - destruct (run_cycle_prints_page self s r j Hu Hcur Hj)
      as (s1 & Hrun & Hh & Hq & Hps & Ha).
    destruct Hlt as [Hlt|Hlt]; [discriminate|].
    assert (Hnot : (pages j <=? progress j + 1) = false) by (apply Z.leb_gt; lia).
    rewrite Hnot in Hrun, Hh.
    assert (Hj1 : heap s1 !! r = Some (print_page j))
      by (rewrite Hh, lookup_alter_eq, Hj; reflexivity).
    destruct (IH self s1 r (print_page j) Hu Hcur Hj1)
      as (s' & Hrun' & Hh' & Hq' & Hps' & Ha').
    { right. cbn [progress pages print_page]. lia. }
    exists s'. cbn [run_cycles]. rewrite Hrun. split; [exact Hrun'|].
    split_and!; try congruence.
    rewrite Hh', Hh, after_pages_succ.
    replace (Z.of_nat m + 1) with (Z.of_nat (S m)) by lia.
    apply map_eq. intros x. destruct (decide (x = r)) as [->|Hne].
    + rewrite !lookup_insert_eq. reflexivity.
    + rewrite !lookup_insert_ne, lookup_alter_ne by congruence. reflexivity.
Qed.

Lemma run_cycles_app (m n : nat) (self : Printer) (s : State) :
  run_cycles (m + n) self s =
    match run_cycles m self s with
    | Some (self1, s1) => run_cycles n self1 s1
    | None => None
    end.
Proof.
  revert self s. induction m as [|m IH]; intros self s; cbn [run_cycles Nat.add].
  - reflexivity.
  - destruct (run_cycle self s) as [[self1 s1]|]; [apply IH|reflexivity].
Qed.

(** X14.  A printer that is left alone while it holds a job finishes it after
    exactly max(1, pages - progress) cycles: before that it still holds the
    job, with one page more per cycle and the status unchanged; then the job
    is Completed and the printer is free.  The pending queue, the other jobs,
    the list of printers and the policy are not touched.  A job of no pages
    still gets one page printed. *)
Theorem uninterrupted_printing (self : Printer) (s : State) (r : loc) (j : PrintJob) :
  undisturbed self -> current_job self = Some r -> heap s !! r = Some j ->
  let n := Z.max 1 (pages j - progress j) in
  (forall k : nat, Z.of_nat k < n ->
     exists sk,
       run_cycles k self s = Some (self, sk) /\
       heap sk = <[r := after_pages (Z.of_nat k) j]> (heap s)) /\
  (exists s',
     run_cycles (Z.to_nat n) self s = Some (set_current_job None self, s') /\
     heap s' = <[r := set_status Completed (after_pages n j)]> (heap s) /\
     job_queue s' = job_queue s /\ printers s' = printers s /\
     algorithm s' = algorithm s).
Proof.
  intros Hu Hcur Hj n. split.
  - intros k Hk.
    destruct (run_cycles_prints k self s r j Hu Hcur Hj) as (sk & Hrun & Hh & _).
    { subst n. lia. }
    exists sk. split; assumption.
  - destruct (run_cycles_prints (Z.to_nat (n - 1)) self s r j Hu Hcur Hj)
      as (s1 & Hrun & Hh & Hq & Hps & Ha).
    { subst n. lia. }
    assert (Hj1 : heap s1 !! r = Some (after_pages (n - 1) j)).
    { rewrite Hh, lookup_insert_eq. f_equal. f_equal. subst n. lia. }
    destruct (run_cycle_prints_page self s1 r _ Hu Hcur Hj1)
      as (s' & Hrun' & Hh' & Hq' & Hps' & Ha').
    cbn [pages progress after_pages] in Hrun', Hh'.
    assert (Hlast : (pages j <=? progress j + (n - 1) + 1) = true)
      by (apply Z.leb_le; subst n; lia).
    rewrite Hlast in Hrun', Hh'.
    exists s'. split.
    { replace (Z.to_nat n) with (Z.to_nat (n - 1) + 1)%nat by (subst n; lia).
      rewrite run_cycles_app, Hrun. cbn [run_cycles]. rewrite Hrun'. reflexivity. }
    split_and!; try congruence.
    rewrite Hh', Hh. apply map_eq. intros x. destruct (decide (x = r)) as [->|Hne].
    + rewrite lookup_alter_eq, !lookup_insert_eq. cbn. f_equal.
      unfold set_status, print_page, after_pages. cbn. f_equal; subst n; lia.
    + rewrite lookup_alter_ne, !lookup_insert_ne by congruence. reflexivity.
Qed.

Lemma uninterrupted_printing_witness :
  exists s',
    run_cycles 39 (mkPrinter 1 "W" (Some 0%nat) true false false None false)
      five_pending
    = Some (mkPrinter 1 "W" None true false false None false, s') /\
    heap s' !! 0%nat = Some (mkPrintJob "a" "A.pdf" "/A.pdf" 40 Completed 40 0) /\
    job_queue s' = [1; 2; 3; 4; 5]%nat.
Proof.
  destruct (uninterrupted_printing
              (mkPrinter 1 "W" (Some 0%nat) true false false None false)
              five_pending 0%nat
              (mkPrintJob "a" "A.pdf" "/A.pdf" 40 Printing 1 39))
    as [_ (s' & Hrun & Hh & Hq & _)].
  - split_and!; reflexivity.
  - reflexivity.
  - reflexivity.
  - exists s'. split_and!; [exact Hrun| |exact Hq].
    rewrite Hh, lookup_insert_eq. reflexivity.
Defined.

Lemma run_cycle_halted (self : Printer) (s : State) :
  is_paused self = true \/ shutdown_flag self = true ->
  exists s',
    run_cycle self s = Some (self, s') /\
    job_queue s' = job_queue s /\ printers s' = printers s /\
    heap s' = match current_job self with
              | Some r => if is_paused self
                          then alter (set_status Paused) r (heap s) else heap s
              | None => heap s
              end.
Proof.
  intros Hhalt. unfold run_cycle, run_cycle_before_delay.
  destruct (is_paused self) eqn:Hp.
  - eexists. split; [reflexivity|]. state_simpl.
    destruct (current_job self) as [r|]; state_simpl; split_and!; reflexivity.
  - destruct Hhalt as [?|Hs]; [discriminate|].
    destruct (current_job self) as [r|] eqn:Hcur.
    + unfold run_cycle_after_delay. rewrite Hp, Hs. cbn [orb].
      eexists. split; [reflexivity|]. state_simpl. split_and!; reflexivity.
    + rewrite Hs. eexists. split; [reflexivity|]. state_simpl.
      split_and!; reflexivity.
Qed.

(** X15.  A printer that is paused, or that has been told to shut down, takes
    no job and prints no page, however many cycles it runs: the printer is as
    it was, the pending queue and the list of printers are untouched, and the
    only thing written is the status Paused on the job of a paused printer. *)
Theorem halted_printer_idles (n : nat) (self : Printer) (s : State) :
  is_paused self = true \/ shutdown_flag self = true ->
  exists s',
    run_cycles n self s = Some (self, s') /\
    job_queue s' = job_queue s /\ printers s' = printers s /\
    heap s' = match current_job self with
              | Some r => if is_paused self && negb (n =? 0)%nat
                          then alter (set_status Paused) r (heap s) else heap s
              | None => heap s
              end.
Proof.
  intros Hhalt. revert s. induction n as [|n IH]; intros s.
  - exists s. cbn [run_cycles Nat.eqb negb]. rewrite andb_false_r.
    split_and!; try reflexivity. destruct (current_job self); reflexivity.
  - destruct (run_cycle_halted self s Hhalt) as (s1 & Hrun & Hq & Hps & Hh).
    destruct (IH s1) as (s' & Hrun' & Hq' & Hps' & Hh').
    exists s'. cbn [run_cycles]. rewrite Hrun. split; [exact Hrun'|].
    split_and!; try congruence.
    rewrite Hh', Hh. cbn [Nat.eqb negb]. rewrite andb_true_r.
    destruct (current_job self) as [r|]; [|reflexivity].
    destruct (is_paused self); cbn [andb]; [|destruct (negb _); reflexivity].
    destruct (negb (n =? 0)%nat); [|reflexivity].
    apply map_eq. intros x. destruct (decide (x = r)) as [->|Hne].
    + rewrite !lookup_alter_eq. destruct (heap s !! r); reflexivity.
    + rewrite !lookup_alter_ne by congruence. reflexivity.
Qed.

Lemma halted_printer_idles_witness :
  exists s',
    run_cycles 7 (mkPrinter 1 "W" None true false true None false) five_pending
    = Some (mkPrinter 1 "W" None true false true None false, s') /\
    job_queue s' = [1; 2; 3; 4; 5]%nat.
Proof.
  destruct (halted_printer_idles 7
              (mkPrinter 1 "W" None true false true None false) five_pending)
    as (s' & Hrun & Hq & _).
  - right. reflexivity.
  - exists s'. split; assumption.
Defined.

(** ** The connected printers *)

Lemma fmap_alter_same {A B} (f : A -> B) (g : A -> A) (i : nat) (l : list A) :
  (forall x, f (g x) = f x) -> f <$> alter g i l = f <$> l.
Proof.
  intros Hfg. revert i. induction l as [|x l IH]; intros [|i]; cbn; try reflexivity.
  - rewrite Hfg. reflexivity.
  - f_equal. apply IH.
Qed.

Lemma fmap_insert_same {A B} (f : A -> B) (i : nat) (x y : A) (l : list A) :
  l !! i = Some x -> f y = f x -> f <$> <[i := y]> l = f <$> l.
Proof.
  intros Hi Hf. rewrite list_fmap_insert, Hf. apply list_insert_id.
  rewrite list_lookup_fmap, Hi. reflexivity.
Qed.

Lemma check_for_preemption_identities (new_job : loc) (s : State) :
  printer_identity <$> printers (check_for_preemption new_job s)
  = printer_identity <$> printers s.
Proof.
  unfold check_for_preemption.
  destruct (fst (scan_printers _ _ _ _ _)) as [i|]; [|reflexivity].
  destruct (deque_remove _ _) as [q'|]; [|reflexivity].
  unfold preempt. cbn [printers set_printers set_job_queue log send_update].
  apply fmap_alter_same. reflexivity.
Qed.

Lemma run_cycle_identity (self self' : Printer) (s s' : State) :
  run_cycle self s = Some (self', s') ->
  printers s' = printers s /\ printer_identity self' = printer_identity self.
Proof.
  unfold run_cycle.
  assert (Hbefore :
            printers (snd (fst (run_cycle_before_delay self s))) = printers s /\
            printer_identity (fst (fst (run_cycle_before_delay self s)))
            = printer_identity self).
  { unfold run_cycle_before_delay. destruct (is_paused self).
    { cbn [fst snd]. state_simpl. destruct (current_job self); split; reflexivity. }
    destruct (current_job self) as [r|].
    { cbn [fst snd]. state_simpl. split; reflexivity. }
    destruct (shutdown_flag self).
    { cbn [fst snd]. state_simpl. split; reflexivity. }
    destruct (get_next_job_dequeues (printer_id self) (send_status_update self s))
      as (_ & Hps & _).
    destruct (get_next_job (printer_id self) (send_status_update self s))
      as [[r|] s2]; cbn [fst snd] in *; state_simpl; rewrite Hps; state_simpl;
      split; reflexivity. }
  destruct (run_cycle_before_delay self s) as [[self1 s1] go].
  cbn [fst snd] in Hbefore. destruct Hbefore as [Hps1 Hid1].
  destruct go; [|intros [= <- <-]; split; assumption].
  unfold run_cycle_after_delay.
  destruct (is_paused self1 || shutdown_flag self1).
  { intros [= <- <-]. split; assumption. }
  destruct (current_job self1) as [r|]; [|discriminate].
  destruct (cancel_current_job self1).
  { intros [= <- <-]. state_simpl. split; [exact Hps1|exact Hid1]. }
  destruct (preempt_with_job self1) as [n|].
  { intros [= <- <-]. state_simpl.
    rewrite (proj2 (add_job_to_queue_requeue r _)). state_simpl.
    split; [exact Hps1|exact Hid1]. }
  destruct (_ <=? _); intros [= <- <-]; state_simpl; split; assumption.
Qed.

Lemma step_identities (o : Op) (s s' : State) :
  step o s = Some s' ->
  match o with
  | OpAddPrinter id name =>
      printers s' = dict_set (Printer_init id name) (printers s)
  | OpRemovePrinter id =>
      printers s' = match dict_pop id (printers s) with
                    | Some (_, ps') => ps'
                    | None => printers s
                    end
  | _ => printer_identity <$> printers s' = printer_identity <$> printers s
  end.
Proof.
  destruct o as [id name|jid fname fpath npages|jid|i|i|id]; cbn [step].
  - intros [= <-]. reflexivity.
  - unfold PrintJob_init. intros [= <-]. rewrite add_job_to_queue_unfold.
    cbn zeta. state_simpl.
    rewrite (proj2 (proj2 (auto_select_algorithm_frame _))).
    destruct (_ && _); [rewrite check_for_preemption_identities|]; reflexivity.
  - unfold cancel_job. destruct (find _ _) as [r|].
    + destruct (deque_remove _ _); [|discriminate]. intros [= <-]. reflexivity.
    + destruct (find_holder _ _ _ _) as [[[k p] r]|]; intros [= <-];
        [|reflexivity].
      unfold set_cancel_flag. state_simpl. apply fmap_alter_same. reflexivity.
  - unfold on_printer. destruct (printers s !! i) as [self|] eqn:Hi; [|discriminate].
    destruct (toggle_pause_frame self s) as (_ & Hps & _).
    pose proof (toggle_pause_fst self s) as Hfst.
    destruct (toggle_pause self s) as [self' s1]. cbn [fst snd] in *.
    intros [= <-]. state_simpl. rewrite Hps.
    apply (fmap_insert_same _ _ self); [exact Hi|]. rewrite Hfst. reflexivity.
  - unfold on_printer. destruct (printers s !! i) as [self|] eqn:Hi; [|discriminate].
    destruct (run_cycle self s) as [[self' s1]|] eqn:Hrun; [|discriminate].
    destruct (run_cycle_identity _ _ _ _ Hrun) as [Hps Hid].
    intros [= <-]. state_simpl. rewrite Hps.
    apply (fmap_insert_same _ _ self); assumption.
  - unfold remove_printer.
    destruct (dict_pop id (printers s)) as [[p ps']|]; [|intros [= <-]; reflexivity].
    destruct (stop p (set_printers ps' s)) as [p1 s1] eqn:Hstop.
    unfold stop in Hstop. injection Hstop as <- <-. intros Hs'.
    apply (f_equal (fun x => match x with Some y => printers y | None => [] end))
      in Hs'.
    rewrite <- Hs', (proj1 (proj2 (run_exit_effect _ _))). state_simpl.
    reflexivity.
Qed.

(** X16.  Submitting a file, cancelling a job, pausing or resuming a printer
    and running a printer's cycle never change which printers are connected:
    the manager's list has the same printers, in the same order, with the
    same ids and names.  Only connecting and disconnecting change it. *)
Theorem printers_stay_connected (o : Op) (s s' : State) :
  (forall id name, o <> OpAddPrinter id name) ->
  (forall id, o <> OpRemovePrinter id) ->
  step o s = Some s' ->
  printer_identity <$> printers s' = printer_identity <$> printers s.
Proof.
  intros Hadd Hrem Hstep. pose proof (step_identities o s s' Hstep) as H.
  destruct o; try exact H; [destruct (Hadd _ _ eq_refl)|destruct (Hrem _ eq_refl)].
Qed.

Lemma printers_stay_connected_witness :
  exists s',
    step (OpRunCycle 0) five_pending = Some s' /\
    printer_identity <$> printers s' = [(1, "W")].
Proof.
  eexists. split; [vm_compute; reflexivity|].
  apply (printers_stay_connected (OpRunCycle 0) five_pending);
    [discriminate|discriminate|vm_compute; reflexivity].
Defined.

Lemma dict_set_ids (p : Printer) (ps : list Printer) :
  NoDup (printer_id <$> ps) -> NoDup (printer_id <$> dict_set p ps).
Proof.
  induction ps as [|q ps IH]; cbn [dict_set fmap list_fmap]; intros Hnd.
  - apply NoDup_singleton.
  - apply NoDup_cons in Hnd as [Hq Hnd]. destruct (decide (printer_id q = printer_id p)) as [He|Hne].
    + cbn [fmap list_fmap]. apply NoDup_cons. rewrite <- He. split; assumption.
    + cbn [fmap list_fmap]. apply NoDup_cons. split; [|apply IH, Hnd].
      intros Hin. apply Hq. clear IH Hq Hnd.
      induction ps as [|y ps IH]; cbn [dict_set fmap list_fmap] in *.
      * apply list_elem_of_singleton in Hin. congruence.
      * destruct (decide (printer_id y = printer_id p)) as [Hy|Hy];
          cbn [fmap list_fmap] in Hin.
        -- apply elem_of_cons in Hin as [Hin|Hin]; [congruence|right; exact Hin].
        -- apply elem_of_cons in Hin as [Hin|Hin]; [rewrite Hin; left|right; auto].
Qed.

Lemma dict_pop_ids (id : Z) (ps ps' : list Printer) (p : Printer) :
  dict_pop id ps = Some (p, ps') ->
  NoDup (printer_id <$> ps) ->
  NoDup (printer_id <$> ps') /\ id ∉ printer_id <$> ps'.
Proof.
  revert ps'. induction ps as [|q ps IH]; intros ps'; cbn [dict_pop]; [discriminate|].
  destruct (decide (printer_id q = id)) as [He|Hne].
  - intros [= <- <-] Hnd. cbn [fmap list_fmap] in Hnd.
    apply NoDup_cons in Hnd as [Hq Hnd]. rewrite <- He. split; assumption.
  - destruct (dict_pop id ps) as [[x0 ps0]|] eqn:Hpop; [|discriminate].
    intros [= <- <-] Hnd. cbn [fmap list_fmap] in *.
    apply NoDup_cons in Hnd as [Hq Hnd].
    destruct (IH _ eq_refl Hnd) as [Hnd0 Hid]. split.
    + apply NoDup_cons. split; [|exact Hnd0]. intros Hin. apply Hq.
      apply list_elem_of_fmap in Hin as (y & -> & Hy).
      apply list_elem_of_fmap. exists y. split; [reflexivity|].
      exact (proj2 (dict_pop_held _ _ _ _ Hpop) _ Hy).
    + intros [Hin|Hin]%elem_of_cons; [congruence|exact (Hid Hin)].
Qed.

Lemma printer_ids_identity (ps : list Printer) :
  printer_id <$> ps = fst <$> (printer_identity <$> ps).
Proof. rewrite <- list_fmap_compose. reflexivity. Qed.

Lemma step_ids_distinct (o : Op) (s s' : State) :
  NoDup (printer_id <$> printers s) -> step o s = Some s' ->
  NoDup (printer_id <$> printers s').
Proof.
  intros Hnd Hstep. pose proof (step_identities o s s' Hstep) as H.
  destruct o as [id name|jid fname fpath npages|jid|i|i|id];
    try (rewrite printer_ids_identity, H, <- printer_ids_identity; exact Hnd).
  - rewrite H. apply dict_set_ids, Hnd.
  - rewrite H. destruct (dict_pop id (printers s)) as [[p ps']|] eqn:Hpop;
      [|exact Hnd].
    exact (proj1 (dict_pop_ids _ _ _ _ Hpop Hnd)).
Qed.

Lemma run_ops_ids_distinct (os : list Op) (s s' : State) :
  NoDup (printer_id <$> printers s) -> run_ops os s = Some s' ->
  NoDup (printer_id <$> printers s').
Proof.
  revert s. induction os as [|o os IH]; intros s Hnd; cbn [run_ops].
  - intros [= <-]. exact Hnd.
  - destruct (step o s) as [s1|] eqn:Hstep; [|discriminate].
    apply IH. exact (step_ids_distinct _ _ _ Hnd Hstep).
Qed.

(** X17.  In every state the program reaches, the connected printers have
    pairwise distinct ids, whatever ids they were connected under; so after a
    printer is disconnected no connected printer has its id. *)
Theorem reachable_printer_ids (os : list Op) (s : State) :
  run_ops os JobManager_init = Some s ->
  NoDup (printer_id <$> printers s) /\
  (forall id s', step (OpRemovePrinter id) s = Some s' ->
                 id ∉ printer_id <$> printers s').
Proof.
  intros Hrun.
  assert (Hnd : NoDup (printer_id <$> printers s)).
  { apply (run_ops_ids_distinct os JobManager_init); [apply NoDup_nil_2|exact Hrun]. }
  split; [exact Hnd|]. intros id s' Hstep.
  pose proof (step_identities _ _ _ Hstep) as H. cbn beta iota in H. rewrite H.
  destruct (dict_pop id (printers s)) as [[p ps']|] eqn:Hpop.
  - exact (proj2 (dict_pop_ids _ _ _ _ Hpop Hnd)).
  - clear -Hpop. induction (printers s) as [|q ps IH]; cbn [dict_pop] in Hpop.
    + intros Hin. inversion Hin.
    + destruct (decide (printer_id q = id)); [discriminate|].
      destruct (dict_pop id ps) as [[x0 ps0]|]; [discriminate|].
      cbn [fmap list_fmap]. intros [Hin|Hin]%elem_of_cons; [congruence|].
      exact (IH eq_refl Hin).
Qed.

Lemma reachable_printer_ids_witness :
  exists s,
    run_ops [OpAddPrinter 1 "W"; OpAddPrinter 1 "V"; OpAddPrinter 2 "U"]
      JobManager_init = Some s /\
    NoDup (printer_id <$> printers s).
Proof.
  eexists. split; [vm_compute; reflexivity|].
  apply (reachable_printer_ids
           [OpAddPrinter 1 "W"; OpAddPrinter 1 "V"; OpAddPrinter 2 "U"]).
  vm_compute. reflexivity.
Defined.

(** ** Jobs that have left the system *)

Lemma local_step_unowned (s s1 : State) (i : nat) (p p' : Printer) :
  printers s !! i = Some p -> local_step s p s1 p' ->
  owned (set_printers (<[i := p']> (printers s1)) s1) ⊆+ owned s /\
  (forall x, x ∉ owned s -> is_Some (heap s !! x) -> heap s1 !! x = heap s !! x).
Proof.
  intros Hi (Hps & Hsub & Hdom & Hframe).
  assert (Howned : owned s ≡ₚ (job_queue s ++ held p) ++ (delete i (printers s) ≫= held)).
  { unfold owned. rewrite (bind_held_lookup _ _ _ Hi), app_assoc. reflexivity. }
  split.
  - rewrite Howned. unfold owned. cbn [job_queue printers set_printers]. rewrite Hps.
    rewrite (bind_held_insert _ _ _ p' Hi), app_assoc.
    apply submseteq_skips_r. exact Hsub.
  - intros x Hx Hsome.
    assert (Hnot : x ∉ job_queue s ++ held p).
    { intros Hin. apply Hx. rewrite Howned. apply elem_of_app. left. exact Hin. }
    specialize (Hframe x Hnot). destruct (Hdom x Hsome) as [j1 Hj1].
    destruct Hsome as [j Hj]. unfold deref in Hframe.
    rewrite Hj1, Hj in Hframe. cbn in Hframe. congruence.
Qed.

Lemma check_for_preemption_owned (new_job : loc) (s : State) :
  owned (check_for_preemption new_job s) ⊆+ owned s.
Proof.
  unfold check_for_preemption.
  destruct (scan_printers (heap s) (printers s) 0 None
              (pages_remaining (deref (heap s) new_job))) as [b m] eqn:Hscan.
  apply scan_printers_spec in Hscan. cbn [fst].
  destruct Hscan as [(-> & _)|(k & p & r & -> & Hk & _)]; [reflexivity|].
  cbn [job_queue log send_update].
  destruct (deque_remove new_job (job_queue s)) as [q'|] eqn:Hrem; [|reflexivity].
  apply deque_remove_Some in Hrem as (l1 & l2 & Hq & -> & _).
  unfold preempt. cbn [printers set_job_queue Nat.add].
  rewrite (list_alter_insert _ _ _ _ Hk).
  apply (local_step_unowned s
           (set_job_queue (l1 ++ l2)
              (log (MsgSrtfPreemption (job_id (deref (heap s) new_job))
                      (pages_remaining (deref (heap s) new_job))) s))
           k p (set_preempt_with_job (Some new_job) p) Hk).
  split_and!; cbn [printers job_queue heap set_job_queue log send_update]; auto.
  rewrite Hq. unfold held. cbn [current_job preempt_with_job set_preempt_with_job].
  cbn [option_list]. solve_submseteq.
Qed.

Lemma add_job_to_queue_new_owned (job : loc) (s : State) :
  owned (add_job_to_queue job false s) ⊆+ job :: owned s.
Proof.
  rewrite add_job_to_queue_unfold. cbn zeta.
  set (s1 := log _ (set_job_queue (job_queue s ++ [job]) s)).
  assert (Hperm : owned s1 ≡ₚ job :: owned s).
  { unfold owned, s1. cbn [job_queue printers log send_update set_job_queue].
    solve_Permutation. }
  set (s2 := if _ && _ then _ else _).
  assert (Hle : owned s2 ⊆+ owned s1).
  { subst s2. destruct (_ && _); [apply check_for_preemption_owned|reflexivity]. }
  destruct (auto_select_algorithm_frame s2) as (_ & Hq & Hp).
  unfold owned at 1. cbn [job_queue printers send_full_update send_update].
  rewrite Hq, Hp, <- Hperm. exact Hle.
Qed.

Lemma step_leaves_unowned (o : Op) (s s' : State) :
  wf s -> step o s = Some s' ->
  (forall x, x ∈ owned s' -> x ∈ owned s \/ heap s !! x = None) /\
  (forall x, x ∉ owned s -> is_Some (heap s !! x) -> heap s' !! x = heap s !! x).
Proof.
  intros Hwf.
  assert (Hsub : forall s1, owned s1 ⊆+ owned s ->
                   forall x, x ∈ owned s1 -> x ∈ owned s \/ heap s !! x = None).
  { intros s1 Hle x Hx. left. exact (elem_of_submseteq _ _ _ Hx Hle). }
  destruct o as [id name|jid fname fpath npages|jid|i|i|id]; cbn [step].
  - intros [= <-]. split; [|reflexivity]. apply Hsub.
    destruct (dict_set_held (Printer_init id name) (printers s) eq_refl) as [Hle _].
    unfold owned. cbn [job_queue printers add_printer log send_update set_printers].
    apply submseteq_skips_l. exact Hle.
  - unfold PrintJob_init. intros [= <-].
    set (r := fresh (dom (heap s))).
    assert (Hfresh : heap s !! r = None) by (apply not_elem_of_dom, is_fresh).
    split.
    + intros x Hx.
      pose proof (elem_of_submseteq _ _ _ Hx
                    (add_job_to_queue_new_owned r
                       (set_heap (<[r := mkPrintJob jid fname fpath npages Queued 0
                                         npages]> (heap s)) s))) as Hin.
      apply elem_of_cons in Hin as [->|Hin]; [right; exact Hfresh|left; exact Hin].
    + intros x Hx [j Hj]. state_simpl. apply lookup_insert_ne. congruence.
  - intros Hc. split; [|intros x _ _; rewrite (cancel_job_heap _ _ _ Hc); reflexivity].
    apply Hsub. revert Hc. unfold cancel_job. destruct (find _ _) as [r|].
    + destruct (deque_remove r (job_queue s)) as [q'|] eqn:Hrem; [|discriminate].
      intros [= <-]. apply deque_remove_Some in Hrem as (l1 & l2 & Hq & -> & _).
      unfold owned. cbn [job_queue printers send_full_update send_update log set_job_queue].
      rewrite Hq. solve_submseteq.
    + destruct (find_holder _ _ _ _) as [[[k p] r]|] eqn:Hfind; intros [= <-];
        [|reflexivity].
      destruct (find_holder_Some _ _ _ _ _ _ _ Hfind) as (k0 & -> & Hk & _).
      unfold set_cancel_flag. cbn [printers log send_update Nat.add].
      rewrite (list_alter_insert _ _ _ _ Hk).
      apply (local_step_unowned s
               (log (MsgSignaling (printer_name p) (file_name (deref (heap s) r))) s)
               k0 p (set_cancel_current_job true p) Hk).
      split_and!; cbn [printers job_queue heap log send_update]; auto.
  - unfold on_printer. destruct (printers s !! i) as [self|] eqn:Hi; [|discriminate].
    destruct (toggle_pause_local self s) as [Hl _].
    destruct (toggle_pause self s) as [self' s1]. intros [= <-]. cbn [fst snd] in *.
    destruct (local_step_unowned _ _ _ _ _ Hi Hl) as [Hle Hframe].
    split; [exact (Hsub _ Hle)|exact Hframe].
  - unfold on_printer. destruct (printers s !! i) as [self|] eqn:Hi; [|discriminate].
    destruct (run_cycle self s) as [[self' s1]|] eqn:Hrun; [|discriminate].
    intros [= <-]. destruct (wf_printer _ _ _ Hwf Hi) as [Hal Hsh].
    destruct (run_cycle_local _ _ _ _ Hrun Hal Hsh) as [Hl _].
    destruct (local_step_unowned _ _ _ _ _ Hi Hl) as [Hle Hframe].
    split; [exact (Hsub _ Hle)|exact Hframe].
  - unfold remove_printer.
    destruct (dict_pop id (printers s)) as [[p ps']|] eqn:Hpop;
      [|intros [= <-]; split; [apply Hsub; reflexivity|reflexivity]].
    destruct (dict_pop_held _ _ _ _ Hpop) as [Hperm _].
    destruct (stop p (set_printers ps' s)) as [p1 s1] eqn:Hstop.
    unfold stop in Hstop. injection Hstop as <- <-. intros Hs'.
    replace s' with
      (snd (run_exit (set_shutdown_flag true p)
              (log (MsgShuttingDown (printer_name (set_shutdown_flag true p))
                      (printer_id (set_shutdown_flag true p)))
                   (printer_log p MsgShutdownSignal (set_printers ps' s)))))
      by congruence.
    clear Hs'.
    destruct (run_exit_effect (set_shutdown_flag true p)
                (log (MsgShuttingDown (printer_name (set_shutdown_flag true p))
                        (printer_id (set_shutdown_flag true p)))
                     (printer_log p MsgShutdownSignal (set_printers ps' s))))
      as (Hq & Hp & Hh).
    cbn [current_job set_shutdown_flag] in Hq, Hh. revert Hq Hp Hh. state_simpl.
    intros Hq Hp Hh.
    assert (Howned : owned s ≡ₚ job_queue s ++ held p ++ (ps' ≫= held)).
    { unfold owned. rewrite Hperm. reflexivity. }
    split.
    + apply Hsub. unfold owned at 1. rewrite Hq, Hp, Howned. unfold held.
      solve_submseteq.
    + intros x Hx Hsome. rewrite Hh. destruct (current_job p) as [r|] eqn:Hcur;
        [|reflexivity].
      apply lookup_alter_ne. intros <-. apply Hx. rewrite Howned.
      apply elem_of_app. right. apply elem_of_app. left. apply held_current, Hcur.
Qed.

Lemma run_ops_leaves_unowned (os : list Op) :
  forall (s s' : State) (r : loc) (j : PrintJob),
    wf s -> heap s !! r = Some j -> r ∉ owned s -> run_ops os s = Some s' ->
    heap s' !! r = Some j /\ r ∉ owned s'.
Proof.
  induction os as [|o os IH]; intros s s' r j Hwf Hj Hr; cbn [run_ops].
  - intros [= <-]. split; assumption.
  - destruct (step o s) as [s1|] eqn:Hstep; [|discriminate].
    destruct (step_leaves_unowned _ _ _ Hwf Hstep) as [Hown Hframe].
    apply (IH s1 s' r j (step_wf _ _ _ Hwf Hstep)).
    + rewrite (Hframe r Hr); [exact Hj|rewrite Hj; eauto].
    + intros Hin. destruct (Hown r Hin) as [Hold|Hnone]; [exact (Hr Hold)|congruence].
Qed.

(** X23.  A job that neither the pending queue nor a printer holds has left
    the system for good: whatever is done afterwards, it is never written
    again, it never comes back to the queue, and no printer takes it.  This
    is so for a job a printer has completed or cancelled, and for a job
    cancelled while pending. *)
Theorem unowned_jobs_are_final (os0 os : list Op) (s s' : State) (r : loc)
    (j : PrintJob) :
  run_ops os0 JobManager_init = Some s ->
  heap s !! r = Some j -> r ∉ owned s ->
  run_ops os s = Some s' ->
  heap s' !! r = Some j /\ (r ∉ job_queue s') /\
  (forall p, p ∈ printers s' -> r ∉ held p).
Proof.
  intros Hreach Hj Hr Hrun.
  destruct (run_ops_leaves_unowned os s s' r j
              (run_ops_wf _ _ _ JobManager_init_wf Hreach) Hj Hr Hrun) as [Hj' Hr'].
  split_and!; [exact Hj'| |].
  - intros Hin. apply Hr'. apply elem_of_app. left. exact Hin.
  - intros p Hp Hin. apply Hr'. apply elem_of_app. right.
    apply list_elem_of_bind. exists p. split; assumption.
Qed.

Lemma unowned_jobs_are_final_witness :
  exists s s',
    run_ops [OpAddPrinter 1 "W"; OpSubmit "a" "A.pdf" "/A.pdf" 1; OpRunCycle 0]
      JobManager_init = Some s /\
    run_ops [OpSubmit "b" "B.pdf" "/B.pdf" 2; OpRunCycle 0; OpCancel "a"] s
    = Some s' /\
    heap s' !! 0%nat = Some (mkPrintJob "a" "A.pdf" "/A.pdf" 1 Completed 1 0).
Proof.
  eexists _, _. split; [vm_compute; reflexivity|].
  split; [vm_compute; reflexivity|].
  refine (proj1 (unowned_jobs_are_final
                   [OpAddPrinter 1 "W"; OpSubmit "a" "A.pdf" "/A.pdf" 1; OpRunCycle 0]
                   [OpSubmit "b" "B.pdf" "/B.pdf" 2; OpRunCycle 0; OpCancel "a"]
                   _ _ 0%nat _ _ _ _ _)).
  - vm_compute. reflexivity.
  - vm_compute. reflexivity.
  - apply (bool_decide_unpack _). vm_compute. exact I.
  - vm_compute. reflexivity.
Defined.

Lemma final_alter (f : PrintJob -> PrintJob) (r0 r : loc) (h : gmap loc PrintJob)
    (j' : PrintJob) :
  (forall j, is_final (status (f j)) = true -> is_final (status j) = true) ->
  alter f r0 h !! r = Some j' -> is_final (status j') = true ->
  exists j, h !! r = Some j /\ is_final (status j) = true.
Proof.
  intros Hf. destruct (decide (r0 = r)) as [->|Hne].
  - rewrite lookup_alter_eq. destruct (h !! r) as [j|]; [|discriminate].
    intros [= <-] Hfin. exists j. split; [reflexivity|exact (Hf _ Hfin)].
  - rewrite lookup_alter_ne by exact Hne. intros Hj Hfin. exists j'. split; assumption.
Qed.

Lemma run_cycle_before_delay_final (self : Printer) (s : State) (r : loc)
    (j' : PrintJob) :
  heap (snd (fst (run_cycle_before_delay self s))) !! r = Some j' ->
  is_final (status j') = true ->
  exists j, heap s !! r = Some j /\ is_final (status j) = true.
Proof.
  unfold run_cycle_before_delay. destruct (is_paused self).
  { cbn [fst snd]. state_simpl. destruct (current_job self) as [c|]; state_simpl.
    - apply final_alter. intros j H. discriminate H.
    - eauto. }
  destruct (current_job self) as [c|].
  { cbn [fst snd]. state_simpl. eauto. }
  destruct (shutdown_flag self).
  { cbn [fst snd]. state_simpl. eauto. }
  pose proof (get_next_job_heap (printer_id self) (send_status_update self s)) as Hh.
  destruct (get_next_job (printer_id self) (send_status_update self s))
    as [[n|] s2]; cbn [fst snd] in *; state_simpl; rewrite Hh; state_simpl.
  - apply final_alter. intros j H. discriminate H.
  - eauto.
Qed.

Lemma run_cycle_after_delay_final (self self' : Printer) (s s' : State) (r : loc)
    (j' : PrintJob) :
  run_cycle_after_delay self s = Some (self', s') ->
  NoDup (job_queue s ++ held self) ->
  heap s' !! r = Some j' -> is_final (status j') = true ->
  (exists j, heap s !! r = Some j /\ is_final (status j) = true) \/
  (r ∈ held self /\ r ∉ job_queue s' ++ held self').
Proof.
  unfold run_cycle_after_delay.
  destruct (is_paused self || shutdown_flag self).
  { intros [= <- <-] _ Hj Hfin. left. eauto. }
  destruct (current_job self) as [c|] eqn:Hcur; [|discriminate].
  assert (Hpage : forall j, is_final (status (print_page j)) = true ->
                            is_final (status j) = true) by (intros j H; exact H).
  assert (Hdetach : NoDup (job_queue s ++ held self) ->
                    c ∈ held self /\
                    c ∉ job_queue s ++ option_list (preempt_with_job self)).
  { intros Hnd. split; [apply held_current, Hcur|].
    unfold held in Hnd. rewrite Hcur in Hnd. cbn [option_list] in Hnd.
    apply NoDup_app in Hnd as (_ & Hdisj & Hnd). apply NoDup_cons in Hnd as [Hc _].
    intros [Hin|Hin]%elem_of_app; [|exact (Hc Hin)].
    apply (Hdisj c Hin). left. }
  destruct (cancel_current_job self).
  { intros [= <- <-] Hnd. state_simpl. intros Hj Hfin.
    destruct (decide (c = r)) as [<-|Hne].
    - right. destruct (Hdetach Hnd) as [Hin Hout]. split; [exact Hin|].
      exact Hout.
    - left. rewrite !lookup_alter_ne in Hj by exact Hne. eauto. }
  destruct (preempt_with_job self) as [n|] eqn:Hpay.
  { intros [= <- <-] _. state_simpl. intros Hj Hfin. left.
    apply final_alter in Hj as (j1 & Hj1 & Hfin1);
      [|intros j H; discriminate H|exact Hfin].
    apply final_alter in Hj1 as (j2 & Hj2 & Hfin2);
      [|intros j H; discriminate H|exact Hfin1].
    apply final_alter in Hj2 as (j3 & Hj3 & Hfin3); [|exact Hpage|exact Hfin2].
    eauto. }
  destruct (_ <=? _).
  - intros [= <- <-] Hnd. state_simpl. intros Hj Hfin.
    destruct (decide (c = r)) as [<-|Hne].
    + right. destruct (Hdetach Hnd) as [Hin Hout]. split; [exact Hin|].
      unfold held. cbn [current_job preempt_with_job set_current_job]. rewrite Hpay.
      exact Hout.
    + left. rewrite !lookup_alter_ne in Hj by exact Hne. eauto.
  - intros [= <- <-] _. state_simpl. intros Hj Hfin. left.
    apply final_alter in Hj as (j1 & Hj1 & Hfin1); [|exact Hpage|exact Hfin]. eauto.
Qed.

Lemma on_printer_run_cycle_final (i : nat) (s s' : State) (r : loc) (j' : PrintJob) :
  wf s -> on_printer i run_cycle s = Some s' ->
  heap s' !! r = Some j' -> is_final (status j') = true -> r ∈ owned s' ->
  exists j, heap s !! r = Some j /\ is_final (status j) = true.
Proof.
  intros Hwf. unfold on_printer.
  destruct (printers s !! i) as [self|] eqn:Hi; [|discriminate].
  destruct (run_cycle self s) as [[self' s1]|] eqn:Hrun; [|discriminate].
  intros [= <-]. cbn [heap set_printers].
  destruct (wf_printer _ _ _ Hwf Hi) as [Hal Hsh].
  destruct (run_cycle_local _ _ _ _ Hrun Hal Hsh) as [(Hps & _) _].
  assert (Howned : owned s ≡ₚ (job_queue s ++ held self) ++ (delete i (printers s) ≫= held)).
  { unfold owned. rewrite (bind_held_lookup _ _ _ Hi), app_assoc. reflexivity. }
  assert (Hnew : owned (set_printers (<[i := self']> (printers s1)) s1)
                 ≡ₚ (job_queue s1 ++ held self') ++ (delete i (printers s) ≫= held)).
  { unfold owned. cbn [job_queue printers set_printers]. rewrite Hps.
    rewrite (bind_held_insert _ _ _ self' Hi), app_assoc. reflexivity. }
  pose proof (wf_NoDup _ Hwf) as Hnd. rewrite Howned in Hnd.
  apply NoDup_app in Hnd as (Hnd1 & Hdisj & _).
  unfold run_cycle in Hrun.
  destruct (run_cycle_before_delay_local self s) as ((_ & Hsub & _) & _ & _).
  pose proof (run_cycle_before_delay_final self s r) as Hbefore.
  destruct (run_cycle_before_delay self s) as [[self1 sB] go]. cbn [fst snd] in *.
  destruct go; [|injection Hrun as <- <-; intros Hj Hfin _; eauto].
  intros Hj Hfin Hin.
  destruct (run_cycle_after_delay_final _ _ _ _ r j' Hrun
              (submseteq_NoDup _ _ Hsub Hnd1) Hj Hfin)
    as [(jB & HjB & HfinB)|[Hheld Hout]]; [eauto|].
  exfalso. rewrite Hnew in Hin. apply elem_of_app in Hin as [Hin|Hin];
    [exact (Hout Hin)|].
  apply (Hdisj r); [|exact Hin].
  exact (elem_of_submseteq _ _ _ (proj2 (elem_of_app _ _ _) (or_intror Hheld)) Hsub).
Qed.

Lemma step_final (o : Op) (s s' : State) (r : loc) (j' : PrintJob) :
  wf s -> step o s = Some s' ->
  heap s' !! r = Some j' -> is_final (status j') = true -> r ∈ owned s' ->
  exists j, heap s !! r = Some j /\ is_final (status j) = true.
Proof.
  intros Hwf. destruct o as [id name|jid fname fpath npages|jid|i|i|id]; cbn [step].
  - intros [= <-] Hj Hfin _. eauto.
  - unfold PrintJob_init. intros [= <-]. state_simpl. intros Hj Hfin _.
    destruct (decide (fresh (dom (heap s)) = r)) as [<-|Hne].
    + rewrite lookup_insert_eq in Hj. injection Hj as <-. discriminate Hfin.
    + rewrite lookup_insert_ne in Hj by exact Hne. eauto.
  - intros Hc. rewrite (cancel_job_heap _ _ _ Hc). eauto.
  - unfold on_printer. destruct (printers s !! i) as [self|] eqn:Hi; [|discriminate].
    pose proof (toggle_pause_heap self s) as Hh.
    destruct (toggle_pause self s) as [self' s1]. intros [= <-]. cbn [fst snd] in *.
    cbn [heap set_printers]. rewrite Hh. intros Hj Hfin _.
    destruct (current_job self) as [c|]; [|eauto].
    apply final_alter in Hj; [exact Hj| |exact Hfin].
    intros j H. destruct (is_paused self); discriminate H.
  - apply on_printer_run_cycle_final. exact Hwf.
  - unfold remove_printer.
    destruct (dict_pop id (printers s)) as [[p ps']|] eqn:Hpop;
      [|intros [= <-]; eauto].
    destruct (stop p (set_printers ps' s)) as [p1 s1] eqn:Hstop.
    unfold stop in Hstop. injection Hstop as <- <-. intros Hs'.
    replace s' with
      (snd (run_exit (set_shutdown_flag true p)
              (log (MsgShuttingDown (printer_name (set_shutdown_flag true p))
                      (printer_id (set_shutdown_flag true p)))
                   (printer_log p MsgShutdownSignal (set_printers ps' s)))))
      by congruence.
    clear Hs'. rewrite (proj2 (proj2 (run_exit_effect _ _))).
    cbn [current_job set_shutdown_flag]. state_simpl. intros Hj Hfin _.
    destruct (current_job p) as [c|]; [|eauto].
    apply final_alter in Hj; [exact Hj| |exact Hfin]. intros j H. discriminate H.
Qed.

Lemma run_ops_final (os : list Op) :
  forall s s' : State,
    wf s ->
    (forall r j, heap s !! r = Some j -> is_final (status j) = true -> r ∉ owned s) ->
    run_ops os s = Some s' ->
    forall r j, heap s' !! r = Some j -> is_final (status j) = true -> r ∉ owned s'.
Proof.
  induction os as [|o os IH]; intros s s' Hwf Hinv; cbn [run_ops].
  - intros [= <-]. exact Hinv.
  - destruct (step o s) as [s1|] eqn:Hstep; [|discriminate].
    apply (IH s1 s' (step_wf _ _ _ Hwf Hstep)).
    intros r j' Hj' Hfin Hin.
    destruct (step_final _ _ _ _ _ Hwf Hstep Hj' Hfin Hin) as (j & Hj & Hfinj).
    destruct (proj1 (step_leaves_unowned _ _ _ Hwf Hstep) r Hin) as [Hold|Hnone];
      [|congruence].
    exact (Hinv r j Hj Hfinj Hold).
Qed.

(** X24.  In every state the program reaches, a job whose status is Completed
    or Canceled is held by nobody: it is not in the pending queue, and it is
    neither the current job nor the preemption payload of a printer.  With
    the property before, such a job is never written again. *)
Theorem final_jobs_are_unowned (os : list Op) (s : State) (r : loc) (j : PrintJob) :
  run_ops os JobManager_init = Some s ->
  heap s !! r = Some j -> is_final (status j) = true ->
  (r ∉ job_queue s) /\ (forall p, p ∈ printers s -> r ∉ held p).
Proof.
  intros Hrun Hj Hfin.
  assert (Hr : r ∉ owned s).
  { apply (run_ops_final os JobManager_init s JobManager_init_wf) with (j := j);
      try assumption.
    intros r0 j0 Hj0. cbn [heap JobManager_init] in Hj0.
    rewrite lookup_empty in Hj0. discriminate Hj0. }
  split.
  - intros Hin. apply Hr. apply elem_of_app. left. exact Hin.
  - intros p Hp Hin. apply Hr. apply elem_of_app. right.
    apply list_elem_of_bind. exists p. split; assumption.
Qed.

Lemma final_jobs_are_unowned_witness :
  exists s,
    run_ops [OpAddPrinter 1 "W"; OpSubmit "a" "A.pdf" "/A.pdf" 1; OpRunCycle 0;
             OpSubmit "b" "B.pdf" "/B.pdf" 2; OpRunCycle 0]
      JobManager_init = Some s /\
    (0%nat ∉ job_queue s) /\
    (forall p, p ∈ printers s -> 0%nat ∉ held p).
Proof.
  eexists. split; [vm_compute; reflexivity|].
  apply (final_jobs_are_unowned
           [OpAddPrinter 1 "W"; OpSubmit "a" "A.pdf" "/A.pdf" 1; OpRunCycle 0;
            OpSubmit "b" "B.pdf" "/B.pdf" 2; OpRunCycle 0]
           _ 0%nat (mkPrintJob "a" "A.pdf" "/A.pdf" 1 Completed 1 0)).
  - vm_compute. reflexivity.
  - vm_compute. reflexivity.
  - reflexivity.
Defined.

(** X25.  [cancel_job] raises nothing: the job it takes out of the pending
    queue is one it has just found there, so [deque.remove] cannot fail. *)
Theorem cancel_job_never_raises (jid : string) (s : State) :
  exists s', cancel_job jid s = Some s'.
Proof. destruct (cancel_job_total jid s) as [s' Hs']. exists s'. exact Hs'. Qed.

(** * printersch.py *)

Import printersch.

Lemma insert_by_arrival_perm (x : Process) (l : list Process) :
  insert_by_arrival x l ≡ₚ x :: l.
Proof.
  induction l as [|y l IH]; cbn [insert_by_arrival]; [reflexivity|].
  destruct (arrival_time x <=? arrival_time y); [reflexivity|].
  rewrite IH. apply Permutation_swap.
Qed.

Lemma sort_by_arrival_perm (l : list Process) : sort_by_arrival l ≡ₚ l.
Proof.
  induction l as [|x l IH]; cbn [sort_by_arrival foldr]; [reflexivity|].
  rewrite insert_by_arrival_perm. f_equiv. exact IH.
Qed.

Lemma insert_by_arrival_order (x : Process) (l : list Process) :
  in_arrival_order l -> in_arrival_order (insert_by_arrival x l).
Proof.
  induction l as [|y l IH]; cbn [insert_by_arrival in_arrival_order].
  - intros _. split; [apply Forall_nil_2|exact I].
  - intros [Hy Hl]. destruct (arrival_time x <=? arrival_time y) eqn:Hxy.
    + apply Z.leb_le in Hxy. cbn [in_arrival_order]. split_and!; try assumption.
      apply Forall_cons. split; [exact Hxy|].
      eapply Forall_impl; [exact Hy|]. cbn. intros q Hq. lia.
    + apply Z.leb_gt in Hxy. cbn [in_arrival_order]. split; [|apply IH, Hl].
      rewrite insert_by_arrival_perm. apply Forall_cons. split; [lia|exact Hy].
Qed.

Lemma sort_by_arrival_order (l : list Process) : in_arrival_order (sort_by_arrival l).
Proof.
  induction l as [|x l IH]; cbn [sort_by_arrival foldr]; [exact I|].
  apply insert_by_arrival_order, IH.
Qed.

Lemma insert_by_arrival_filter (t : Z) (x : Process) (l : list Process) :
  List.filter (fun p => arrival_time p =? t) (insert_by_arrival x l)
  = List.filter (fun p => arrival_time p =? t) (x :: l).
Proof.
  induction l as [|y l IH]; cbn [insert_by_arrival]; [reflexivity|].
  destruct (arrival_time x <=? arrival_time y) eqn:Hxy; [reflexivity|].
  apply Z.leb_gt in Hxy. cbn [List.filter] in *. rewrite IH.
  destruct (arrival_time x =? t) eqn:Hx; [|reflexivity].
  destruct (arrival_time y =? t) eqn:Hy; [|reflexivity]. lia.
Qed.

Lemma sort_by_arrival_filter (t : Z) (l : list Process) :
  List.filter (fun p => arrival_time p =? t) (sort_by_arrival l)
  = List.filter (fun p => arrival_time p =? t) l.
Proof.
  induction l as [|x l IH]; cbn [sort_by_arrival foldr]; [reflexivity|].
  rewrite insert_by_arrival_filter. cbn [List.filter].
  unfold sort_by_arrival in IH. rewrite IH. reflexivity.
Qed.


(** The loop keeps what identifies a process, and the order. *)
Lemma for_loop_identity (l : list Process) (time w a : Z) :
  proc_identity <$> (for_loop l time w a).1.1 = proc_identity <$> l /\
  arrival_time <$> (for_loop l time w a).1.1 = arrival_time <$> l /\
  length (for_loop l time w a).1.1 = length l.
Proof.
  revert time w a. induction l as [|p l IH]; intros time w a; cbn [for_loop].
  - split_and!; reflexivity.
  - cbv zeta.
    specialize (IH ((if time <? arrival_time p then arrival_time p else time)
                    + burst_time p)
                   (w + ((if time <? arrival_time p then arrival_time p else time)
                         + burst_time p - arrival_time p - burst_time p))
                   (a + ((if time <? arrival_time p then arrival_time p else time)
                         + burst_time p - arrival_time p))).
    destruct (for_loop l _ _ _) as [[done w'] a']. cbn [fst snd] in *.
    destruct IH as (IH1 & IH2 & IH3). cbn [fmap list_fmap length].
    split_and!; f_equal; assumption.
Qed.

Lemma in_arrival_order_ext (l l' : list Process) :
  arrival_time <$> l' = arrival_time <$> l ->
  in_arrival_order l -> in_arrival_order l'.
Proof.
  revert l'. induction l as [|p l IH]; intros [|p' l']; cbn; try discriminate;
    [auto|].
  intros [= Hp Hl] [Hall Hord]. split; [|exact (IH _ Hl Hord)].
  apply Forall_forall. intros q' Hq'.
  assert (Hin : arrival_time q' ∈ arrival_time <$> l')
    by (apply list_elem_of_fmap; eauto).
  rewrite Hl in Hin. apply list_elem_of_fmap in Hin as (q & Hq & Hqin).
  rewrite Forall_forall in Hall. specialize (Hall q Hqin). lia.
Qed.

Lemma filter_fmap_identity (t : Z) (l l' : list Process) :
  proc_identity <$> l' = proc_identity <$> l ->
  proc_identity <$> List.filter (fun p => arrival_time p =? t) l'
  = proc_identity <$> List.filter (fun p => arrival_time p =? t) l.
Proof.
  revert l'. induction l as [|p l IH]; intros [|p' l'];
    cbn [fmap list_fmap List.filter]; try discriminate; [reflexivity|].
  intros [= Hp Ha Hb Hpr Hl]. rewrite Ha.
  destruct (arrival_time p =? t); cbn [fmap list_fmap]; rewrite (IH _ Hl);
    [|reflexivity].
  f_equal. unfold proc_identity. rewrite Hp, Ha, Hb, Hpr. reflexivity.
Qed.

Lemma run_scheduler_list (self : SmartPrinterScheduler) :
  process_list (fst (run_scheduler self))
  = (for_loop (sort_by_arrival (process_list self)) 0 0 0).1.1.
Proof.
  unfold run_scheduler. destruct (process_list self) as [|p l] eqn:Hl;
    [exact Hl|].
  destruct (for_loop _ 0 0 0) as [[done w] a]. reflexivity.
Qed.

(** X18.  [run_scheduler] leaves the process list in order of arrival, with
    processes of equal arrival time in the order they were added, and changes
    no process's id, arrival time, burst time or priority: for every arrival
    time, the processes that have it are the same, in the same order, before
    and after. *)
Theorem run_scheduler_orders_by_arrival (self : SmartPrinterScheduler) :
  let done := process_list (fst (run_scheduler self)) in
  in_arrival_order done /\
  proc_identity <$> done ≡ₚ proc_identity <$> process_list self /\
  (forall t,
     proc_identity <$> List.filter (fun p => arrival_time p =? t) done
     = proc_identity <$> List.filter (fun p => arrival_time p =? t)
                          (process_list self)).
Proof.
  cbv zeta. rewrite run_scheduler_list.
  destruct (for_loop_identity (sort_by_arrival (process_list self)) 0 0 0)
    as (Hid & Harr & _).
  split_and!.
  - exact (in_arrival_order_ext _ _ Harr (sort_by_arrival_order _)).
  - rewrite Hid, sort_by_arrival_perm. reflexivity.
  - intros t. rewrite (filter_fmap_identity t _ _ Hid), sort_by_arrival_filter.
    reflexivity.
Qed.

Lemma for_loop_lookup (l : list Process) :
  forall (time w a : Z) (i : nat) (p : Process),
    (for_loop l time w a).1.1 !! i = Some p ->
    let free_at := match i with
                   | O => time
                   | S k => from_option completion_time 0
                              ((for_loop l time w a).1.1 !! k)
                   end in
    completion_time p = Z.max free_at (arrival_time p) + burst_time p /\
    turnaround_time p = completion_time p - arrival_time p /\
    waiting_time p = turnaround_time p - burst_time p.
Proof.
  induction l as [|q l IH]; intros time w a i p; cbn [for_loop];
    [intros Hi; inversion Hi|].
  cbv zeta.
  specialize (IH ((if time <? arrival_time q then arrival_time q else time)
                  + burst_time q)
                 (w + ((if time <? arrival_time q then arrival_time q else time)
                       + burst_time q - arrival_time q - burst_time q))
                 (a + ((if time <? arrival_time q then arrival_time q else time)
                       + burst_time q - arrival_time q))).
  destruct (for_loop l _ _ _) as [[done w'] a']. cbn [fst snd] in *.
  destruct i as [|i].
  - intros [= <-]. cbn. split_and!; try reflexivity.
    destruct (time <? arrival_time q) eqn:Ht;
      [apply Z.ltb_lt in Ht|apply Z.ltb_ge in Ht]; lia.
  - cbn [lookup list_lookup]. intros Hi. specialize (IH i p Hi).
    destruct i as [|i]; [|exact IH].
    cbn [lookup list_lookup from_option completion_time]. exact IH.
Qed.

(** X19.  After [run_scheduler], the printer serves the processes one at a
    time in the order of the list: each process starts when the one before it
    has completed, or when it arrives if that is later, the first one no
    earlier than time 0.  Its turnaround time is its completion time less its
    arrival time, its waiting time is its turnaround time less its burst
    time, and no process has a negative waiting time. *)
Theorem run_scheduler_times (self : SmartPrinterScheduler) (i : nat) (p : Process) :
  process_list (fst (run_scheduler self)) !! i = Some p ->
  let free_at := match i with
                 | O => 0
                 | S k => from_option completion_time 0
                            (process_list (fst (run_scheduler self)) !! k)
                 end in
  completion_time p = Z.max free_at (arrival_time p) + burst_time p /\
  turnaround_time p = completion_time p - arrival_time p /\
  waiting_time p = turnaround_time p - burst_time p /\
  waiting_time p = Z.max 0 (free_at - arrival_time p).
Proof.
  rewrite run_scheduler_list. intros Hi.
  destruct (for_loop_lookup _ _ _ _ _ _ Hi) as (Hc & Ht & Hw).
  cbv zeta. split_and!; try assumption. lia.
Qed.

Lemma run_scheduler_times_witness :
  exists p,
    process_list
      (fst (run_scheduler
              (mkScheduler [Process_init "late" 5 3 1; Process_init "early" 0 7 2;
                            Process_init "gap" 20 (-4) 0] []))) !! 1%nat = Some p /\
    pid p = "late" /\ completion_time p = 10 /\ waiting_time p = 2.
Proof.
  eexists. split; [vm_compute; reflexivity|].
  destruct (run_scheduler_times
              (mkScheduler [Process_init "late" 5 3 1; Process_init "early" 0 7 2;
                            Process_init "gap" 20 (-4) 0] [])
              1%nat (mkProcess "late" 5 3 1 3 2 5 10))
    as (Hc & _ & _ & Hw); [vm_compute; reflexivity|].
  split_and!; [reflexivity|exact Hc|exact Hw].
Defined.











